(** * Mars rover: the command engine and the input parser

    A shallow embedding of [rover/types.ts], [rover/engine.ts],
    [rover/parser.ts] and [rover/format.ts], and the properties of the
    specification that concern them.

    Conventions of the embedding.
    - A JavaScript string is a [string]: each [ascii] stands for one code
      unit below 256 (U+0000 to U+00FF).
    - The numbers held by positions and plateaus are integers; they are
      embedded as [Z]. The source computes on doubles: their comparisons
      are those of [Z], what [Number] makes of a string is modelled with
      its rounding to a double, and so is the sum of two coordinates, which
      is the sum of [Z] up to [2^53] in absolute value.
    - A [throw] is the [Throw] case of [result]; functions that can throw
      return a [result] and are sequenced with [bind]. *)

From Stdlib Require Import ZArith NArith List String Ascii Bool Lia.
From Stdlib Require Import DecimalString DecimalPos DecimalN.
Import ListNotations.

#[local] Open Scope string_scope.
#[local] Open Scope Z_scope.

(** ** Exceptions *)

(** One constructor per [throw new Error(...)] of [parser.ts], carrying the
    values its message interpolates, and the two ways the run time itself
    can refuse an [undefined] value. *)
Inductive Exception : Type :=
| EmptyInput
    (* 'Input is empty or contains no valid lines' *)
| MissingRoverData
    (* 'Input must contain at least plateau line + one rover (position + commands)' *)
| UnpairedRoverLines
    (* 'Invalid input format: each rover must have exactly 2 lines (position + commands)' *)
| InvalidPlateauLine (line : string)
    (* `Invalid plateau line: expected "maxX maxY", got "${line}"` *)
| NotAValidInteger (fieldName value : string)
    (* `Invalid ${fieldName}: "${value}" is not a valid integer` *)
| NegativePlateau
    (* 'Plateau coordinates must be non-negative' *)
| InvalidPositionLine (line : string)
    (* `Invalid position line: expected "x y D", got "${line}"` *)
| InvalidDirection (direction : string)
    (* `Invalid direction "${direction}": must be one of N, E, S, W` *)
| OutsidePlateau (x y maxX maxY : Z)
    (* `Starting position (${x}, ${y}) is outside plateau bounds (0-${maxX}, 0-${maxY})` *)
| InvalidCommands (line : string)
    (* `Invalid commands "${line}": must only contain L, R, or M` *)
| TypeError
    (* a property read or a destructuring of [undefined] *)
| UndefinedDirection.
    (* [DIRECTIONS[dirNum]] is [undefined]: the object built is no RoverState *)

Inductive result (A : Type) : Type :=
| Ok (a : A)
| Throw (e : Exception).

Arguments Ok {A} a.
Arguments Throw {A} e.

Definition bind {A B : Type} (r : result A) (k : A -> result B) : result B :=
  match r with
  | Ok a => k a
  | Throw e => Throw e
  end.

Notation "x <- r ;; k" := (bind r (fun x => k))
  (at level 61, r at next level, right associativity).

(** ** rover/types.ts *)

(** [type Direction = 'N' | 'E' | 'S' | 'W'] *)
Inductive Direction : Type := North | East | South | West.

Record Plateau : Type := mkPlateau { maxX : Z; maxY : Z }.

Record Position : Type := mkPosition { x : Z; y : Z }.

Record RoverState : Type :=
  mkRoverState { position : Position; direction : Direction }.

Record RoverInput : Type :=
  mkRoverInput { start : RoverState; commands : string }.

Record ParsedInput : Type :=
  mkParsedInput { plateau : Plateau; rovers : list RoverInput }.

(** ** The built-in operations the source calls *)

Module JS.

Definition code (c : ascii) : N := N_of_ascii c.

(** WhiteSpace and LineTerminator code units below 256: TAB, LF, VT, FF, CR,
    SP and NBSP. [String.prototype.trim], the class [\s] of regular
    expressions and the conversion of a string to a number share this set. *)
Definition isWhiteSpace (c : ascii) : bool :=
  let n := code c in
  ((9 <=? n) && (n <=? 13) || (n =? 32) || (n =? 160))%N.

Fixpoint trimStart (s : string) : string :=
  match s with
  | EmptyString => EmptyString
  | String c r => if isWhiteSpace c then trimStart r else s
  end.

Fixpoint trimEnd (s : string) : string :=
  match s with
  | EmptyString => EmptyString
  | String c r =>
      match trimEnd r with
      | EmptyString =>
          if isWhiteSpace c then EmptyString else String c EmptyString
      | t => String c t
      end
  end.

(** [s.trim()] *)
Definition trim (s : string) : string := trimEnd (trimStart s).

(** Puts [c] in front of the first piece of a split. *)
Definition consFirst (c : ascii) (pieces : list string) : list string :=
  match pieces with
  | [] => [String c EmptyString]
  | t :: ts => String c t :: ts
  end.

Definition LF : ascii := ascii_of_N 10.

(** [s.split('\n')]: always at least one piece. *)
Fixpoint splitLines (s : string) : list string :=
  match s with
  | EmptyString => [EmptyString]
  | String c r =>
      if Ascii.eqb c LF then EmptyString :: splitLines r
      else consFirst c (splitLines r)
  end.

(** [s.split(/\s+/)], reading [s] from a position where the previous code
    unit was white space ([inGap = true]) or was not. A run of white space
    separates two pieces, also an empty piece at either end of [s]. *)
Fixpoint splitGaps (inGap : bool) (s : string) : list string :=
  match s with
  | EmptyString => [EmptyString]
  | String c r =>
      if isWhiteSpace c then
        if inGap then splitGaps true r else EmptyString :: splitGaps true r
      else consFirst c (splitGaps false r)
  end.

Definition splitWhiteSpace (s : string) : list string := splitGaps false s.

(** The upper case of one code unit. Two code units below 256 have their
    upper case above 255, which a [string] does not hold: U+00B5 (upper case
    U+039C) and U+00FF (upper case U+0178). They are kept as they are. No
    test of the parser tells the two forms apart, neither being an ASCII
    letter; the text an error message shows is the source's only for a
    string without them. U+00DF becomes the two letters SS. *)
Definition upperUnit (c : ascii) : string :=
  let n := code c in
  if ((97 <=? n) && (n <=? 122))%N then String (ascii_of_N (n - 32)) EmptyString
  else if (n =? 223)%N then "SS"
  else if ((224 <=? n) && (n <=? 254) && negb (n =? 247))%N
       then String (ascii_of_N (n - 32)) EmptyString
  else String c EmptyString.

(** [s.toUpperCase()] *)
Fixpoint toUpperCase (s : string) : string :=
  match s with
  | EmptyString => EmptyString
  | String c r => (upperUnit c ++ toUpperCase r)%string
  end.

(** *** Numbers

    A number is NaN, an infinity or a finite double, held as the integers
    [m] and [e] of its value [m * 2^e]; the two zeros are not told apart. *)
Inductive number : Type :=
| NaN
| Infinity (negative : bool)
| Finite (m e : Z).

(** The value of [c] as a digit in base [base], up to 16. *)
Definition digitOf (base : Z) (c : ascii) : option Z :=
  let n := Z.of_N (code c) in
  let v := if (48 <=? n) && (n <=? 57) then n - 48
           else if (97 <=? n) && (n <=? 102) then n - 87
           else if (65 <=? n) && (n <=? 70) then n - 55
           else 16 in
  if v <? base then Some v else None.

(** Reads the longest run of digits at the head of [s]: the value they add to
    [acc], how many they are added to [count], and the rest of [s]. *)
Fixpoint readDigits (base : Z) (s : string) (acc count : Z)
  : Z * Z * string :=
  match s with
  | EmptyString => (acc, count, s)
  | String c r =>
      match digitOf base c with
      | Some d => readDigits base r (acc * base + d) (count + 1)
      | None => (acc, count, s)
      end
  end.

Definition isEmpty (s : string) : bool :=
  match s with
  | EmptyString => true
  | String _ _ => false
  end.

(** An optional sign: whether it is [-], and what follows it. *)
Definition readSign (s : string) : bool * string :=
  match s with
  | String c r =>
      if Ascii.eqb c "+" then (false, r)
      else if Ascii.eqb c "-" then (true, r)
      else (false, s)
  | EmptyString => (false, s)
  end.

(** ExponentPart, optional, up to the end of the string. *)
Definition readExponent (s : string) : option Z :=
  match s with
  | EmptyString => Some 0
  | String c r =>
      if Ascii.eqb c "e" || Ascii.eqb c "E" then
        let '(neg, r1) := readSign r in
        let '(v, n, rest) := readDigits 10 r1 0 0 in
        if (n =? 0) || negb (isEmpty rest) then None
        else Some (if neg then - v else v)
      else None
  end.

(** StrUnsignedDecimalLiteral other than [Infinity]: digits with an optional
    point among them and an optional exponent, as the pair [(m, e)] of its
    mathematical value [m * 10^e]. *)
Definition readUnsignedDecimal (s : string) : option (Z * Z) :=
  let '(iv, icount, r1) := readDigits 10 s 0 0 in
  let '(mv, fcount, r2) :=
    match r1 with
    | String c r => if Ascii.eqb c "." then readDigits 10 r iv 0
                    else (iv, 0, r1)
    | EmptyString => (iv, 0, r1)
    end in
  if icount + fcount =? 0 then None
  else match readExponent r2 with
       | None => None
       | Some ex => Some (mv, ex - fcount)
       end.

(** The integer nearest to [p / q], the even one of two that are as near. *)
Definition divNearestEven (p q : Z) : Z :=
  let d := p / q in
  let r := p mod q in
  if 2 * r <? q then d
  else if q <? 2 * r then d + 1
  else if Z.even d then d else d + 1.

(** The double nearest to [p / q], for [0 <= p] and [0 < q]: 53 bits of
    precision, exponents from -1074, overflow to infinity from [2^1024].
    The exact value is rounded, however many digits the text has. *)
Definition roundToDouble (negative : bool) (p q : Z) : number :=
  if p =? 0 then Finite 0 0
  else
    let e0 := Z.log2 p - Z.log2 q in
    let e := if p * 2 ^ Z.max 0 (- e0) <? q * 2 ^ Z.max 0 e0
             then e0 - 1 else e0 in
    let k := Z.max (e - 52) (-1074) in
    let m := divNearestEven (p * 2 ^ Z.max 0 (- k)) (q * 2 ^ Z.max 0 k) in
    if 2 ^ 1024 <=? m * 2 ^ Z.max 0 k then Infinity negative
    else Finite (if negative then - m else m) k.

(** NonDecimalIntegerLiteral after its prefix: digits up to the end. *)
Definition readNonDecimal (base : Z) (s : string) : number :=
  let '(v, n, rest) := readDigits base s 0 0 in
  if (n =? 0) || negb (isEmpty rest) then NaN
  else roundToDouble false v 1.

(** StrDecimalLiteral *)
Definition readDecimal (s : string) : number :=
  let '(neg, u) := readSign s in
  if String.eqb u "Infinity" then Infinity neg
  else match readUnsignedDecimal u with
       | None => NaN
       | Some (m, ex) =>
           roundToDouble neg (m * 10 ^ Z.max 0 ex) (10 ^ Z.max 0 (- ex))
       end.

(** [Number(s)] for a string [s]: StringToNumber. *)
Definition Number (s : string) : number :=
  match trim s with
  | EmptyString => Finite 0 0
  | String c0 (String c1 r) as t =>
      if Ascii.eqb c0 "0" && (Ascii.eqb c1 "x" || Ascii.eqb c1 "X")
      then readNonDecimal 16 r
      else if Ascii.eqb c0 "0" && (Ascii.eqb c1 "o" || Ascii.eqb c1 "O")
      then readNonDecimal 8 r
      else if Ascii.eqb c0 "0" && (Ascii.eqb c1 "b" || Ascii.eqb c1 "B")
      then readNonDecimal 2 r
      else readDecimal t
  | t => readDecimal t
  end.

(** [Number.isInteger(n)] *)
Definition Number_isInteger (n : number) : bool :=
  match n with
  | Finite m e => if 0 <=? e then true else m mod 2 ^ (- e) =? 0
  | _ => false
  end.

(** [isNaN(n)] *)
Definition isNaN (n : number) : bool :=
  match n with
  | NaN => true
  | _ => false
  end.

(** The integer a number is, when [Number_isInteger] holds of it. *)
Definition integerValue (n : number) : Z :=
  match n with
  | Finite m e => if 0 <=? e then m * 2 ^ e else m / 2 ^ (- e)
  | _ => 0
  end.

(** The double nearest to the integer [z], as an integer. *)
Definition roundInteger (z : Z) : Z :=
  integerValue (roundToDouble (z <? 0) (Z.abs z) 1).

(** [a + b] for two numbers that are integers: the sum, rounded to a
    double. *)
Definition add (a b : Z) : Z := roundInteger (a + b).

(** The decimal digits of [n >= 0], the digit [0] for zero. *)
Definition digits (n : Z) : string :=
  NilZero.string_of_uint (N.to_uint (Z.to_N n)).

(** How many decimal digits [n > 0] has. *)
Definition digitCount (n : Z) : Z := Z.of_nat (String.length (digits n)).

Fixpoint zeros (count : nat) : string :=
  match count with
  | O => EmptyString
  | S c => String "0" (zeros c)
  end.

(** The pairs [(n, s)] that Number::toString may take for [k] digits: [s] has
    [k] digits and [s * 10^(n-k)] rounds to [x]. About [x / 10^(n-k)] only
    the integer below and the integer above can do, and [n] is the number of
    digits of [x] or one more. *)
Definition digitCandidates (x k : Z) : list (Z * Z) :=
  let n0 := digitCount x in
  filter (fun '(n, s) =>
            (k <=? n) && (10 ^ (k - 1) <=? s) && (s <? 10 ^ k)
            && (roundInteger (s * 10 ^ (n - k)) =? x))
         (flat_map (fun n => let s := x / 10 ^ (n - k) in [(n, s); (n, s + 1)])
                   [n0; n0 + 1]).

(** Of the candidates the one whose value is nearest to [x], the even [s]
    of two that are as near. *)
Definition nearestCandidate (x k : Z) (cs : list (Z * Z)) : option (Z * Z) :=
  fold_left
    (fun best c =>
       let dist := fun '(n, s) => Z.abs (s * 10 ^ (n - k) - x) in
       match best with
       | None => Some c
       | Some b =>
           if dist c <? dist b then Some c
           else if (dist c =? dist b) && Z.even (snd c) && Z.odd (snd b)
           then Some c else best
       end)
    cs None.

(** The least [k] from [k] on, within [fuel] tries, that has a candidate. *)
Fixpoint shortestDigits (fuel : nat) (x k : Z) : option (Z * Z * Z) :=
  match fuel with
  | O => None
  | S f =>
      match nearestCandidate x k (digitCandidates x k) with
      | Some (n, s) => Some (n, k, s)
      | None => shortestDigits f x (k + 1)
      end
  end.

(** Number::toString for [x > 0]: the digits of [s] and [n - k] zeros up to
    21 digits, otherwise the first digit, the others after a point, and the
    exponent. A double never needs more than 17 digits; an integer that is
    no double is written digit by digit. *)
Definition positiveToString (x : Z) : string :=
  match shortestDigits 17 x 1 with
  | None => digits x
  | Some (n, k, s) =>
      if n <=? 21 then (digits s ++ zeros (Z.to_nat (n - k)))%string
      else
        match digits s with
        | EmptyString => EmptyString
        | String d EmptyString =>
            (String d EmptyString ++ "e+" ++ digits (n - 1))%string
        | String d more =>
            (String d EmptyString ++ "." ++ more ++ "e+"
             ++ digits (n - 1))%string
        end
  end.

(** [`${n}`] for a number that is the integer [n]. *)
Definition numberToString (n : Z) : string :=
  if n =? 0 then "0"
  else if n <? 0 then String "-" (positiveToString (- n))
  else positiveToString n.

(** [pieces.join(sep)] *)
Fixpoint join (sep : string) (pieces : list string) : string :=
  match pieces with
  | [] => EmptyString
  | [p] => p
  | p :: ps => (p ++ sep ++ join sep ps)%string
  end.

End JS.

(** ** rover/engine.ts *)

Module Engine.

Definition DIRECTIONS : list Direction := [North; East; South; West].

Definition DIR_TO_NUM (d : Direction) : Z :=
  match d with
  | North => 0
  | East => 1
  | South => 2
  | West => 3
  end.

Definition DELTAS : list (Z * Z) := [(0, 1); (1, 0); (0, -1); (-1, 0)].

(** [a[i]] for an integer [i]: [undefined], here [None], outside the array. *)
Definition index {A : Type} (a : list A) (i : Z) : option A :=
  if i <? 0 then None else nth_error a (Z.to_nat i).

(** The three variables the loop updates. *)
Record Vars : Type := mkVars { var_x : Z; var_y : Z; var_dirNum : Z }.

(** The body of the [for] loop, for the character [cmd = commands[i]].
    [%] is the remainder that takes the sign of the dividend, [Z.rem], and
    [+] on the coordinates is the sum of doubles, [JS.add]. *)
Definition loopBody (plateau : Plateau) (cmd : ascii) (v : Vars)
  : result Vars :=
  let '(mkVars x y dirNum) := v in
  if Ascii.eqb cmd "L" then
    Ok (mkVars x y (Z.rem (dirNum + 3) 4))
  else if Ascii.eqb cmd "R" then
    Ok (mkVars x y (Z.rem (dirNum + 1) 4))
  else if Ascii.eqb cmd "M" then
    match index DELTAS dirNum with
    | None => Throw TypeError
    | Some (dx, dy) =>
        let newX := JS.add x dx in
        let newY := JS.add y dy in
        if (newX >=? 0) && (newX <=? maxX plateau)
           && (newY >=? 0) && (newY <=? maxY plateau)
        then Ok (mkVars newX newY dirNum)
        else Ok (mkVars x y dirNum)
    end
  else Ok v.

(** [for (let i = 0; i < commands.length; i++)]: the characters in order. *)
Fixpoint loop (plateau : Plateau) (commands : string) (v : Vars)
  : result Vars :=
  match commands with
  | EmptyString => Ok v
  | String cmd rest =>
      v' <- loopBody plateau cmd v ;;
      loop plateau rest v'
  end.

Definition executeCommands
  (start : RoverState) (commands : string) (plateau : Plateau)
  : result RoverState :=
  let v0 := mkVars (x (position start)) (y (position start))
                   (DIR_TO_NUM (direction start)) in
  v <- loop plateau commands v0 ;;
  match index DIRECTIONS (var_dirNum v) with
  | None => Throw UndefinedDirection
  | Some d => Ok (mkRoverState (mkPosition (var_x v) (var_y v)) d)
  end.

End Engine.

(** ** rover/parser.ts *)

Module Parser.

Import JS.

(** [VALID_DIRECTIONS.has(direction)], with the [Direction] the string is
    then cast to. *)
Definition VALID_DIRECTIONS (direction : string) : option Direction :=
  if String.eqb direction "N" then Some North
  else if String.eqb direction "E" then Some East
  else if String.eqb direction "S" then Some South
  else if String.eqb direction "W" then Some West
  else None.

Definition isCommandLetter (c : ascii) : bool :=
  Ascii.eqb c "L" || Ascii.eqb c "R" || Ascii.eqb c "M".

Fixpoint allCommandLetters (s : string) : bool :=
  match s with
  | EmptyString => true
  | String c r => isCommandLetter c && allCommandLetters r
  end.

(** [VALID_COMMANDS.test(s)] for [VALID_COMMANDS = /^[LRM]+$/] *)
Definition VALID_COMMANDS (s : string) : bool :=
  negb (isEmpty s) && allCommandLetters s.

Definition parseInteger (value fieldName : string) : result Z :=
  let num := Number value in
  if negb (Number_isInteger num) || isNaN num then
    Throw (NotAValidInteger fieldName value)
  else Ok (integerValue num).

Definition parsePlateau (line : string) : result Plateau :=
  match splitWhiteSpace line with
  | [part0; part1] =>
      maxX <- parseInteger part0 "plateau maxX" ;;
      maxY <- parseInteger part1 "plateau maxY" ;;
      if (maxX <? 0) || (maxY <? 0) then Throw NegativePlateau
      else Ok (mkPlateau maxX maxY)
  | _ => Throw (InvalidPlateauLine line)
  end.

Definition parsePosition (line : string) (plateau : Plateau)
  : result RoverState :=
  match splitWhiteSpace line with
  | [part0; part1; part2] =>
      x <- parseInteger part0 "x coordinate" ;;
      y <- parseInteger part1 "y coordinate" ;;
      let direction := toUpperCase part2 in
      match VALID_DIRECTIONS direction with
      | None => Throw (InvalidDirection direction)
      | Some d =>
          if (x <? 0) || (x >? maxX plateau) || (y <? 0) || (y >? maxY plateau)
          then Throw (OutsidePlateau x y (maxX plateau) (maxY plateau))
          else Ok (mkRoverState (mkPosition x y) d)
      end
  | _ => Throw (InvalidPositionLine line)
  end.

Definition parseCommands (line : string) : result string :=
  let commands := toUpperCase line in
  if negb (VALID_COMMANDS commands) then Throw (InvalidCommands line)
  else Ok commands.

(** The constant [lines] of [parseInput]. *)
Definition inputLines (input : string) : list string :=
  filter (fun line => (0 <? String.length line)%nat)
         (map trim (splitLines (trim input))).

(** [for (let i = 1; i < lines.length; i += 2)], on the lines from [lines[1]]
    on. A last line without a successor has [lines[i + 1]] undefined, on
    which [parseCommands] cannot call [toUpperCase]. *)
Fixpoint parseRovers (plateau : Plateau) (lines : list string)
  : result (list RoverInput) :=
  match lines with
  | [] => Ok []
  | positionLine :: [] =>
      _ <- parsePosition positionLine plateau ;;
      Throw TypeError
  | positionLine :: commandsLine :: rest =>
      start <- parsePosition positionLine plateau ;;
      commands <- parseCommands commandsLine ;;
      rovers <- parseRovers plateau rest ;;
      Ok (mkRoverInput start commands :: rovers)
  end.

Definition parseInput (input : string) : result ParsedInput :=
  let lines := inputLines input in
  if (List.length lines <? 1)%nat then Throw EmptyInput
  else if (List.length lines <? 3)%nat then Throw MissingRoverData
  else if negb (Z.rem (Z.of_nat (List.length lines) - 1) 2 =? 0)
  then Throw UnpairedRoverLines
  else
    match lines with
    | [] => Throw TypeError
    | line0 :: rest =>
        plateau <- parsePlateau line0 ;;
        rovers <- parseRovers plateau rest ;;
        Ok (mkParsedInput plateau rovers)
    end.

End Parser.

(** ** rover/format.ts *)

Module Format.

Definition directionLetter (d : Direction) : string :=
  match d with
  | North => "N"
  | East => "E"
  | South => "S"
  | West => "W"
  end.

Definition formatState (state : RoverState) : string :=
  (JS.numberToString (x (position state)) ++ " "
   ++ JS.numberToString (y (position state)) ++ " "
   ++ directionLetter (direction state))%string.

Definition formatOutput (states : list RoverState) : string :=
  JS.join (String JS.LF EmptyString) (map formatState states).

End Format.

(** ** app/page.tsx *)

Module Page.

(** [rovers.map(f)] for an [f] that can throw: the first exception ends it. *)
Fixpoint mapResult {A B : Type} (f : A -> result B) (l : list A)
  : result (list B) :=
  match l with
  | [] => Ok []
  | a :: r =>
      b <- f a ;;
      bs <- mapResult f r ;;
      Ok (b :: bs)
  end.

(** The body of the [try] of [handleRunSimulation]: the text passed to
    [setOutput], or the exception caught. *)
Definition runSimulation (input : string) : result string :=
  parsed <- Parser.parseInput input ;;
  finalStates <-
    mapResult (fun rover =>
                 Engine.executeCommands (start rover) (commands rover)
                                        (plateau parsed))
              (rovers parsed) ;;
  Ok (Format.formatOutput finalStates).

End Page.

(** ** The vocabulary of the specification *)

Module Spec.

(** A position within [[0, maxX] x [0, maxY]], both ends included. *)
Definition contains (plateau : Plateau) (p : Position) : Prop :=
  0 <= x p <= maxX plateau /\ 0 <= y p <= maxY plateau.

Definition containsb (plateau : Plateau) (p : Position) : bool :=
  (0 <=? x p) && (x p <=? maxX plateau)
  && (0 <=? y p) && (y p <=? maxY plateau).

(** The unit displacement of each direction. *)
Definition displacement (d : Direction) : Z * Z :=
  match d with
  | North => (0, 1)
  | East => (1, 0)
  | South => (0, -1)
  | West => (-1, 0)
  end.

(** Current position plus the unit displacement of the current direction,
    the sums being those of the source. *)
Definition candidate (s : RoverState) : Position :=
  mkPosition (JS.add (x (position s)) (fst (displacement (direction s))))
             (JS.add (y (position s)) (snd (displacement (direction s)))).

(** MoveForward: commit the candidate when the plateau contains it,
    otherwise keep the state. *)
Definition moveForward (plateau : Plateau) (s : RoverState) : RoverState :=
  if containsb plateau (candidate s)
  then mkRoverState (candidate s) (direction s)
  else s.

(** The candidate as the specification words it: the sums are those of the
    integers, whatever their size. *)
Definition exactCandidate (s : RoverState) : Position :=
  mkPosition (x (position s) + fst (displacement (direction s)))
             (y (position s) + snd (displacement (direction s))).

(** The cycle North, West, South, East, North. *)
Definition turnLeft (d : Direction) : Direction :=
  match d with
  | North => West
  | West => South
  | South => East
  | East => North
  end.

(** The reverse cycle. *)
Definition turnRight (d : Direction) : Direction :=
  match d with
  | North => East
  | East => South
  | South => West
  | West => North
  end.

Definition isTurn (c : ascii) : bool := Ascii.eqb c "L" || Ascii.eqb c "R".

Fixpoint onlyTurns (s : string) : bool :=
  match s with
  | EmptyString => true
  | String c r => isTurn c && onlyTurns r
  end.

(** A string of white space only, the empty string included. *)
Fixpoint blank (s : string) : bool :=
  match s with
  | EmptyString => true
  | String c r => JS.isWhiteSpace c && blank r
  end.

(** Every line trimmed, and the lines left empty dropped. *)
Definition usable (lines : list string) : list string :=
  filter (fun line => negb (JS.isEmpty line)) (map JS.trim lines).

(** The usable lines of an input: its lines, trimmed, without the blank
    ones. *)
Definition usableLines (input : string) : list string :=
  usable (JS.splitLines input).

(** Whether a result is the invalid-commands error. *)
Definition isInvalidCommands {A : Type} (r : result A) : bool :=
  match r with
  | Throw (InvalidCommands _) => true
  | _ => false
  end.

(** The number a text denotes is the integer [n]. *)
Definition denotesInteger (text : string) (n : Z) : Prop :=
  match JS.Number text with
  | JS.Finite m e => if 0 <=? e then n = m * 2 ^ e else m = n * 2 ^ (- e)
  | _ => False
  end.

End Spec.

(** ** The loop of the engine, as a machine on its variables *)

Module Loop.

Import Engine.

(** What the loop maintains: a direction number that indexes both tables. *)
Definition dirOk (v : Vars) : Prop := 0 <= var_dirNum v <= 3.

Definition varsOf (s : RoverState) : Vars :=
  mkVars (x (position s)) (y (position s)) (DIR_TO_NUM (direction s)).

(** The state the engine would return from the variables [v]. *)
Definition stateOf (v : Vars) : result RoverState :=
  match index DIRECTIONS (var_dirNum v) with
  | None => Throw UndefinedDirection
  | Some d => Ok (mkRoverState (mkPosition (var_x v) (var_y v)) d)
  end.

(** The position the loop holds lies within the plateau. *)
Definition boundsOk (plateau : Plateau) (v : Vars) : Prop :=
  Spec.contains plateau (mkPosition (var_x v) (var_y v)).

End Loop.

(** ** The inputs the properties are tried on *)

Module Scenario.

Definition newline : string := String JS.LF EmptyString.

(** The lines of an input text, joined by line feeds. *)
Definition text (lines : list string) : string := JS.join newline lines.

(** Scenario A of the specification, the sample of [page.tsx]. *)
Definition scenarioA : string :=
  text ["5 5"; "1 2 N"; "LMLMLMLMM"; "3 3 E"; "MMRMMRMRRM"].

(** A valid plateau line and position line, then a commands line of three
    spaces: the input of the test 'should throw on whitespace-only command
    line'. *)
Definition blankCommands : string := text ["5 5"; "1 2 N"; "   "].

(** Two rovers, the first with a blank commands line. *)
Definition blankCommandsOfTwo : string :=
  text ["5 5"; "1 2 N"; " "; "3 3 E"; "MM"].

(** Bounds and coordinates written in hexadecimal, with an exponent, with a
    sign and with a decimal point. *)
Definition otherNotations : string := text ["0x10 1e3"; "+5 2.0 N"; "M"].

(** A rover at [x = 2^53] facing East, two cells from the East edge of a
    plateau of bounds [2^53 + 2] and [0]. *)
Definition farEast : string :=
  text ["9007199254740994 0"; "9007199254740992 0 E"; "MM"].

(** Scenario F: a start outside the plateau. *)
Definition scenarioF : string := text ["5 5"; "6 2 N"; "M"].

End Scenario.

(** ** Further vocabulary, for what the code does beyond the specification *)

Module More.

(** The direction [d] after the command [c]: a turn for [L] and [R]. *)
Definition turn (c : ascii) (d : Direction) : Direction :=
  if Ascii.eqb c "L" then Spec.turnLeft d
  else if Ascii.eqb c "R" then Spec.turnRight d
  else d.

(** The direction after the turns of [commands], read in order. *)
Fixpoint applyTurns (commands : string) (d : Direction) : Direction :=
  match commands with
  | EmptyString => d
  | String c rest => applyTurns rest (turn c d)
  end.

(** How many [M] a command string holds. *)
Fixpoint countMoves (commands : string) : Z :=
  match commands with
  | EmptyString => 0
  | String c rest => (if Ascii.eqb c "M" then 1 else 0) + countMoves rest
  end.

(** A rover the engine can be started on: a start within the plateau and a
    command string that [VALID_COMMANDS] accepts. *)
Definition roverOk (plateau : Plateau) (rover : RoverInput) : Prop :=
  Spec.contains plateau (position (start rover))
  /\ Parser.VALID_COMMANDS (commands rover) = true.

(** A parsed input whose plateau has bounds from 0 on and whose rovers all
    are [roverOk]. *)
Definition wellFormed (parsed : ParsedInput) : Prop :=
  0 <= maxX (plateau parsed) /\ 0 <= maxY (plateau parsed)
  /\ Forall (roverOk (plateau parsed)) (rovers parsed).

(** One of the letters l, r, m, in either case. *)
Definition isCommandLetterAnyCase (c : ascii) : bool :=
  Parser.isCommandLetter c
  || Ascii.eqb c "l" || Ascii.eqb c "r" || Ascii.eqb c "m".

Fixpoint allCommandLettersAnyCase (s : string) : bool :=
  match s with
  | EmptyString => true
  | String c r => isCommandLetterAnyCase c && allCommandLettersAnyCase r
  end.

(** The eight texts of a direction, each with the direction it names. *)
Definition directionOfText (text : string) : option Direction :=
  if String.eqb text "N" || String.eqb text "n" then Some North
  else if String.eqb text "E" || String.eqb text "e" then Some East
  else if String.eqb text "S" || String.eqb text "s" then Some South
  else if String.eqb text "W" || String.eqb text "w" then Some West
  else None.

(** A string whose upper case has no code unit above 255: one that holds
    neither U+00B5 nor U+00FF. *)
Fixpoint upperBelow256 (s : string) : bool :=
  match s with
  | EmptyString => true
  | String c r =>
      negb (JS.code c =? 181)%N && negb (JS.code c =? 255)%N
      && upperBelow256 r
  end.

(** A string without white space, line feeds among it. *)
Fixpoint spaceFree (s : string) : bool :=
  match s with
  | EmptyString => true
  | String c r => negb (JS.isWhiteSpace c) && spaceFree r
  end.

(** A field: a string with a character at least and without white
    space. *)
Definition isField (f : string) : bool :=
  negb (JS.isEmpty f) && spaceFree f.

(** A string of decimal digits only. *)
Fixpoint numeric (s : string) : bool :=
  match s with
  | EmptyString => true
  | String c r =>
      match JS.digitOf 10 c with
      | Some _ => numeric r
      | None => false
      end
  end.

(** A string without a line feed. *)
Fixpoint lineFeedFree (s : string) : bool :=
  match s with
  | EmptyString => true
  | String c r => negb (Ascii.eqb c JS.LF) && lineFeedFree r
  end.

(** A character a numeral can start with: a digit, a sign or the point. *)
Definition numeralStart (c : ascii) : bool :=
  match JS.digitOf 10 c with
  | Some _ => true
  | None => Ascii.eqb c "+" || Ascii.eqb c "-" || Ascii.eqb c "."
  end.

(** The exponent [roundToDouble] takes for [p / q]: that of the power of two
    at or next below the quotient. *)
Definition exponentOf (p q : Z) : Z :=
  let e0 := Z.log2 p - Z.log2 q in
  if p * 2 ^ Z.max 0 (- e0) <? q * 2 ^ Z.max 0 e0 then e0 - 1 else e0.

(** A character of a decimal numeral in plain notation: a digit, the point,
    the [e] of the exponent or the minus sign. *)
Definition numeralChar (c : ascii) : bool :=
  match JS.digitOf 10 c with
  | Some _ => true
  | None => Ascii.eqb c "." || Ascii.eqb c "e" || Ascii.eqb c "-"
  end.

Fixpoint numeralChars (s : string) : bool :=
  match s with
  | EmptyString => true
  | String c r => numeralChar c && numeralChars r
  end.

(** A character that the text of some number holds: white space, a digit of
    a decimal, hexadecimal, octal or binary numeral, the letter of a prefix
    or of an exponent, a sign, the point, a letter of [Infinity]. *)
Definition numberChar (c : ascii) : bool :=
  match JS.digitOf 16 c with
  | Some _ => true
  | None =>
      JS.isWhiteSpace c
      || Ascii.eqb c "x" || Ascii.eqb c "X"
      || Ascii.eqb c "o" || Ascii.eqb c "O"
      || Ascii.eqb c "+" || Ascii.eqb c "-" || Ascii.eqb c "."
      || Ascii.eqb c "I" || Ascii.eqb c "n" || Ascii.eqb c "i"
      || Ascii.eqb c "t" || Ascii.eqb c "y"
  end.

(** A text that holds a character no number is written with. *)
Fixpoint foreign (s : string) : bool :=
  match s with
  | EmptyString => false
  | String c r => negb (numberChar c) || foreign r
  end.

End More.

(** ** Decimal numerals and the values they denote

    The numerals of the specification, [5.5] and [2.0] among them, built
    from their parts and valued by arithmetic on integers: no text is read
    and nothing is rounded. *)

Module Literal.

(** A numeral: whether it has a minus sign, the digits before the point,
    the digits after the point when it has one, and the exponent when it
    has one. *)
Record literal : Type :=
  mkLiteral {
      negative : bool;
      whole : Decimal.uint;
      fraction : option Decimal.uint;
      exponent : option Z
    }.

(** The digits of [d] as they are written, none for [Nil]. *)
Definition numeral (d : Decimal.uint) : string := NilEmpty.string_of_uint d.

(** The integer the digits of [d] are. *)
Definition value (d : Decimal.uint) : Z := Z.of_N (N.of_uint d).

Definition fractionText (l : literal) : string :=
  match fraction l with
  | Some f => String "." (numeral f)
  | None => EmptyString
  end.

Definition exponentText (l : literal) : string :=
  match exponent l with
  | Some ex =>
      String "e" ((if ex <? 0 then "-" else "") ++ JS.digits (Z.abs ex))
  | None => EmptyString
  end.

(** The text of a numeral: [-12.50e-3] for the sign, [12], [50] and [-3]. *)
Definition text (l : literal) : string :=
  ((if negative l then "-" else "")
   ++ numeral (whole l) ++ fractionText l ++ exponentText l)%string.

(** How many digits follow the point. *)
Definition places (l : literal) : Z :=
  match fraction l with
  | Some f => Z.of_nat (Decimal.nb_digits f)
  | None => 0
  end.

(** A numeral has a digit at least, before or after its point. *)
Definition wellFormed (l : literal) : Prop :=
  0 < Z.of_nat (Decimal.nb_digits (whole l)) + places l.

(** The digits before and after the point, read as one integer. *)
Definition mantissa (l : literal) : Z :=
  value (whole l) * 10 ^ places l
  + match fraction l with
    | Some f => value f
    | None => 0
    end.

(** The power of ten the mantissa is scaled by. *)
Definition scale (l : literal) : Z :=
  match exponent l with
  | Some ex => ex
  | None => 0
  end - places l.

(** The value of [l], its mantissa times [10^scale] with its sign, is the
    integer [n]. *)
Definition denotes (l : literal) (n : Z) : Prop :=
  let m := if negative l then - mantissa l else mantissa l in
  if 0 <=? scale l then n = m * 10 ^ scale l
  else m = n * 10 ^ (- scale l).

(** [5.5] *)
Definition fiveAndAHalf : literal :=
  mkLiteral false (Decimal.D5 Decimal.Nil) (Some (Decimal.D5 Decimal.Nil))
            None.

(** [-12.50e1] *)
Definition signedWithExponent : literal :=
  mkLiteral true (Decimal.D1 (Decimal.D2 Decimal.Nil))
            (Some (Decimal.D5 (Decimal.D0 Decimal.Nil))) (Some 1).

(** [1.0000000000000001]: sixteen places, the last one a 1. *)
Definition justAboveOne : literal :=
  mkLiteral
    false (Decimal.D1 Decimal.Nil)
    (Some (Decimal.D0 (Decimal.D0 (Decimal.D0 (Decimal.D0 (Decimal.D0
       (Decimal.D0 (Decimal.D0 (Decimal.D0 (Decimal.D0 (Decimal.D0
          (Decimal.D0 (Decimal.D0 (Decimal.D0 (Decimal.D0 (Decimal.D0
             (Decimal.D1 Decimal.Nil)))))))))))))))))
    None.

(** [1e400] *)
Definition tenToThe400 : literal :=
  mkLiteral false (Decimal.D1 Decimal.Nil) None (Some 400).

End Literal.

(** * Properties of the numbers *)

Section NumberFacts.

Import JS.

Lemma divNearestEven_1 (a : Z) : divNearestEven a 1 = a.
Proof.
  unfold divNearestEven; rewrite Z.mod_1_r, Z.div_1_r; reflexivity.
Qed.

(** Every integer up to [2^53] in absolute value is a double. *)
Lemma roundInteger_exact (z : Z) : Z.abs z <= 2 ^ 53 -> roundInteger z = z.
Proof.
  intros Hz; unfold roundInteger, roundToDouble.
  destruct (Z.eqb_spec (Z.abs z) 0) as [E0 | N0].
  { simpl; lia. }
  assert (Hp : 0 < Z.abs z) by lia.
  change (Z.log2 1) with 0; rewrite Z.sub_0_r.
  set (p := Z.abs z) in *.
  pose proof (Z.log2_nonneg p) as HL0.
  destruct (Z.log2_spec p Hp) as [HL1 HL2].
  set (L := Z.log2 p) in *.
  assert (HL53 : L <= 53).
  { destruct (Z.le_gt_cases L 53) as [H | H]; [exact H|].
    assert (2 ^ 54 <= 2 ^ L) by (apply Z.pow_le_mono_r; lia).
    assert (2 ^ 53 < 2 ^ 54) by (apply Z.pow_lt_mono_r; lia). lia. }
  rewrite (Z.max_l 0 (- L)), (Z.max_r 0 L) by lia.
  rewrite Z.pow_0_r, Z.mul_1_r, Z.mul_1_l.
  destruct (Z.ltb_spec p (2 ^ L)) as [H | _]; [lia|].
  rewrite (Z.max_l (L - 52) (-1074)) by lia.
  destruct (Z.eq_dec L 53) as [E53 | N53].
  - assert (Ep : p = 2 ^ 53) by (rewrite E53 in HL1; lia).
    rewrite E53, Ep.
    destruct (Z.ltb_spec z 0) as [Hn | Hn]; vm_compute integerValue;
      unfold p in Ep; lia.
  - rewrite (Z.max_r 0 (- (L - 52))), (Z.max_l 0 (L - 52)) by lia.
    rewrite Z.pow_0_r, Z.mul_1_l, divNearestEven_1, Z.mul_1_r.
    replace (- (L - 52)) with (52 - L) by lia.
    assert (Hd : 0 < 2 ^ (52 - L)) by (apply Z.pow_pos_nonneg; lia).
    assert (Hm : p * 2 ^ (52 - L) < 2 ^ 53).
    { replace (2 ^ 53) with (2 ^ Z.succ L * 2 ^ (52 - L)).
      - apply Z.mul_lt_mono_pos_r; assumption.
      - rewrite <- Z.pow_add_r by lia; f_equal; lia. }
    assert (H1024 : 2 ^ 53 < 2 ^ 1024) by (apply Z.pow_lt_mono_r; lia).
    destruct (Z.leb_spec (2 ^ 1024) (p * 2 ^ (52 - L))) as [H | _]; [lia|].
    unfold integerValue.
    destruct (Z.leb_spec 0 (L - 52)) as [H52 | H52].
    + replace (L - 52) with 0 by lia; replace (52 - L) with 0 by lia.
      rewrite !Z.pow_0_r, Z.mul_1_r.
      destruct (Z.ltb_spec z 0); unfold p; lia.
    + replace (- (L - 52)) with (52 - L) by lia.
      destruct (Z.ltb_spec z 0).
      * rewrite <- Z.mul_opp_l, Z.div_mul by lia; unfold p; lia.
      * rewrite Z.div_mul by lia; unfold p; lia.
Qed.

Lemma add_exact (a b : Z) : Z.abs (a + b) <= 2 ^ 53 -> add a b = a + b.
Proof. apply roundInteger_exact. Qed.

End NumberFacts.

(** * Properties of the engine *)

Section EngineFacts.

Import Engine Loop.

Variable plateau : Plateau.

Lemma dirOk_varsOf (s : RoverState) : dirOk (varsOf s).
Proof. unfold dirOk; destruct s as [p []]; simpl; lia. Qed.

Lemma dirOk_cases (v : Vars) :
  dirOk v ->
  var_dirNum v = 0 \/ var_dirNum v = 1 \/ var_dirNum v = 2 \/ var_dirNum v = 3.
Proof. unfold dirOk; lia. Qed.

Lemma index_DIRECTIONS (v : Vars) :
  dirOk v ->
  exists d, index DIRECTIONS (var_dirNum v) = Some d
            /\ DIR_TO_NUM d = var_dirNum v.
Proof.
  intros H; destruct (dirOk_cases v H) as [E | [E | [E | E]]]; rewrite E.
  - exists North; split; reflexivity.
  - exists East; split; reflexivity.
  - exists South; split; reflexivity.
  - exists West; split; reflexivity.
Qed.

Lemma stateOf_varsOf (s : RoverState) : stateOf (varsOf s) = Ok s.
Proof. destruct s as [[px py] []]; reflexivity. Qed.

Lemma stateOf_ok (v : Vars) :
  dirOk v -> exists s, stateOf v = Ok s /\ varsOf s = v.
Proof.
  intros H; destruct (index_DIRECTIONS v H) as [d [E1 E2]].
  unfold stateOf; rewrite E1; eexists; split; [reflexivity|].
  destruct v; unfold varsOf; simpl in *; now rewrite E2.
Qed.

Lemma executeCommands_loop (s : RoverState) (cmds : string) :
  executeCommands s cmds plateau
  = v <- loop plateau cmds (varsOf s) ;; stateOf v.
Proof. reflexivity. Qed.

Ltac solve_step :=
  eexists; split; [reflexivity | unfold dirOk; vm_compute; split; discriminate].

(** One step never throws and keeps the direction number in range. *)
Lemma loopBody_ok (c : ascii) (v : Vars) :
  dirOk v -> exists v', loopBody plateau c v = Ok v' /\ dirOk v'.
Proof.
  intros H; destruct (dirOk_cases v H) as [E | [E | [E | E]]];
    destruct v as [vx vy vd]; simpl in E; subst vd; unfold loopBody;
    destruct (Ascii.eqb c "L"); try solve_step;
    destruct (Ascii.eqb c "R"); try solve_step;
    destruct (Ascii.eqb c "M"); try solve_step;
    match goal with
    | |- context [index DELTAS ?k] =>
        let r := eval vm_compute in (index DELTAS k) in
        change (index DELTAS k) with r
    end; cbv beta iota zeta;
    match goal with
    | |- context [if ?b then _ else _] => destruct b
    end; solve_step.
Qed.

Lemma loop_ok (cmds : string) :
  forall v, dirOk v -> exists v', loop plateau cmds v = Ok v' /\ dirOk v'.
Proof.
  induction cmds as [| c r IH]; intros v H; simpl.
  - now exists v.
  - destruct (loopBody_ok c v H) as [v1 [E1 H1]]; rewrite E1; simpl.
    now apply IH.
Qed.

Lemma loop_app (a b : string) :
  forall v,
    loop plateau (a ++ b) v = v' <- loop plateau a v ;; loop plateau b v'.
Proof.
  induction a as [| c r IH]; intros v; simpl; [reflexivity|].
  destruct (loopBody plateau c v) as [v1 | e]; simpl; [apply IH | reflexivity].
Qed.

(** Running [a ++ b] is running [b] from the state [a] ends in. *)
Lemma executeCommands_app (s : RoverState) (a b : string) :
  executeCommands s (a ++ b) plateau
  = s' <- executeCommands s a plateau ;; executeCommands s' b plateau.
Proof.
  rewrite !executeCommands_loop, loop_app.
  destruct (loop_ok a (varsOf s) (dirOk_varsOf s)) as [v1 [E1 H1]].
  rewrite E1; simpl.
  destruct (stateOf_ok v1 H1) as [s1 [E2 E3]]; rewrite E2; simpl.
  now rewrite executeCommands_loop, E3.
Qed.

Lemma executeCommands_total (s : RoverState) (cmds : string) :
  exists final, executeCommands s cmds plateau = Ok final.
Proof.
  rewrite executeCommands_loop.
  destruct (loop_ok cmds (varsOf s) (dirOk_varsOf s)) as [v1 [E1 H1]].
  rewrite E1; simpl.
  destruct (stateOf_ok v1 H1) as [s1 [E2 _]]; now exists s1.
Qed.

Lemma executeCommands_cons (s : RoverState) (c : ascii) (rest : string) :
  executeCommands s (String c rest) plateau
  = s' <- executeCommands s (String c EmptyString) plateau ;;
    executeCommands s' rest plateau.
Proof. apply (executeCommands_app s (String c EmptyString) rest). Qed.

End EngineFacts.

Section EngineClaims.

Import Engine Loop.

Variable plateau : Plateau.

(** A step commits a position only after the bounds test on it passed. *)
Lemma loopBody_bounds (c : ascii) (v v' : Vars) :
  boundsOk plateau v -> loopBody plateau c v = Ok v' -> boundsOk plateau v'.
Proof.
  unfold loopBody, boundsOk, Spec.contains; destruct v as [vx vy vd]; simpl.
  intros B.
  destruct (Ascii.eqb c "L"); [intros [= <-]; exact B|].
  destruct (Ascii.eqb c "R"); [intros [= <-]; exact B|].
  destruct (Ascii.eqb c "M"); [|intros [= <-]; exact B].
  destruct (index DELTAS vd) as [[dx dy]|]; [|discriminate].
  destruct ((JS.add vx dx >=? 0) && (JS.add vx dx <=? maxX plateau)
            && (JS.add vy dy >=? 0) && (JS.add vy dy <=? maxY plateau)) eqn:T;
    intros [= <-]; simpl; [|exact B].
  rewrite !andb_true_iff, !Z.geb_le, !Z.leb_le in T; lia.
Qed.

Lemma loop_bounds (cmds : string) :
  forall v v',
    boundsOk plateau v -> loop plateau cmds v = Ok v' -> boundsOk plateau v'.
Proof.
  induction cmds as [| c r IH]; intros v v' B; simpl.
  - now intros [= <-].
  - destruct (loopBody plateau c v) as [v1 | e] eqn:E; simpl; [|discriminate].
    apply IH; eapply loopBody_bounds; eassumption.
Qed.

(** C1. For every plateau and every start state whose position lies within
    the plateau, and for every command string, [executeCommands] returns a
    final state, and the position of that state lies within the plateau:
    [0 <= x <= maxX] and [0 <= y <= maxY]. *)
Theorem executeCommands_stays_in_bounds
  (start : RoverState) (commands : string) :
  Spec.contains plateau (position start) ->
  exists final,
    executeCommands start commands plateau = Ok final
    /\ 0 <= x (position final) <= maxX plateau
    /\ 0 <= y (position final) <= maxY plateau.
Proof.
  intros B.
  destruct (executeCommands_total plateau start commands) as [final E].
  exists final; split; [exact E|].
  rewrite executeCommands_loop in E.
  destruct (loop plateau commands (varsOf start)) as [v |] eqn:L;
    simpl in E; [|discriminate].
  assert (B' : boundsOk plateau v).
  { apply (loop_bounds commands (varsOf start)); [|exact L].
    destruct start as [[px py] d]; exact B. }
  unfold stateOf in E; destruct (index DIRECTIONS (var_dirNum v));
    [|discriminate].
  injection E as <-; exact B'.
Qed.

Lemma executeCommands_M (s : RoverState) :
  executeCommands s "M" plateau = Ok (Spec.moveForward plateau s).
Proof.
  destruct s as [[px py] d].
  unfold Spec.moveForward, Spec.containsb, Spec.candidate.
  destruct d; unfold executeCommands; simpl;
    rewrite !Z.geb_leb;
    match goal with
    | |- context [if ?b then _ else _] => destruct b
    end; reflexivity.
Qed.

Lemma containsb_contains (p : Position) :
  Spec.containsb plateau p = true <-> Spec.contains plateau p.
Proof.
  unfold Spec.containsb, Spec.contains.
  rewrite !andb_true_iff, !Z.leb_le; tauto.
Qed.

(** Where the sum of doubles is the sum of integers, the candidate of the
    source is the one of the specification. *)
Lemma candidate_exact (s : RoverState) :
  Z.abs (x (position s)) < 2 ^ 53 -> Z.abs (y (position s)) < 2 ^ 53 ->
  Spec.candidate s = Spec.exactCandidate s.
Proof.
  intros Hx Hy; unfold Spec.candidate, Spec.exactCandidate.
  f_equal; apply add_exact; destruct (direction s); simpl; lia.
Qed.

(** C2, amended. The unit displacements are North (0,+1), East (+1,0),
    South (0,-1), West (-1,0), the entries of [DELTAS]. For every plateau
    and every state whose coordinates are below [2^53] in absolute value,
    the in-bounds states of a plateau with bounds below [2^53] among them, a
    single [M] computes the candidate, the current position plus the unit
    displacement of the current direction, commits it exactly when it lies
    within [[0, maxX] x [0, maxY]] and otherwise leaves position and
    direction as they were; the commands after the [M] are run from the
    resulting state. For every state whatever its coordinates the same holds
    of the candidate whose sums are rounded to the nearest double, and an [M]
    is never an error: the run returns a state. *)
Theorem moveForward_step (s : RoverState) (rest : string) :
  (Spec.displacement North = (0, 1)
   /\ Spec.displacement East = (1, 0)
   /\ Spec.displacement South = (0, -1)
   /\ Spec.displacement West = (-1, 0))
  /\ (forall d, index DELTAS (DIR_TO_NUM d) = Some (Spec.displacement d))
  /\ (Z.abs (x (position s)) < 2 ^ 53 -> Z.abs (y (position s)) < 2 ^ 53 ->
      (Spec.contains plateau (Spec.exactCandidate s) ->
       executeCommands s "M" plateau
       = Ok (mkRoverState (Spec.exactCandidate s) (direction s))
       /\ executeCommands s (String "M" rest) plateau
          = executeCommands (mkRoverState (Spec.exactCandidate s) (direction s))
                            rest plateau)
      /\ (~ Spec.contains plateau (Spec.exactCandidate s) ->
          executeCommands s "M" plateau = Ok s
          /\ executeCommands s (String "M" rest) plateau
             = executeCommands s rest plateau))
  /\ (Spec.contains plateau (Spec.candidate s) ->
      executeCommands s "M" plateau
      = Ok (mkRoverState (Spec.candidate s) (direction s))
      /\ executeCommands s (String "M" rest) plateau
         = executeCommands (mkRoverState (Spec.candidate s) (direction s))
                           rest plateau)
  /\ (~ Spec.contains plateau (Spec.candidate s) ->
      executeCommands s "M" plateau = Ok s
      /\ executeCommands s (String "M" rest) plateau
         = executeCommands s rest plateau)
  /\ exists final, executeCommands s (String "M" rest) plateau = Ok final.
Proof.
  assert (In : Spec.contains plateau (Spec.candidate s) ->
               Spec.moveForward plateau s
               = mkRoverState (Spec.candidate s) (direction s)).
  { intros H; apply containsb_contains in H.
    unfold Spec.moveForward; now rewrite H. }
  assert (Out : ~ Spec.contains plateau (Spec.candidate s) ->
                Spec.moveForward plateau s = s).
  { intros H; unfold Spec.moveForward.
    destruct (Spec.containsb plateau (Spec.candidate s)) eqn:E;
      [|reflexivity].
    apply containsb_contains in E; contradiction. }
  split; [repeat split|].
  split; [intros []; reflexivity|].
  split.
  { intros Hx Hy; rewrite <- (candidate_exact s Hx Hy).
    split; intros H; (split; [rewrite executeCommands_M
                             | rewrite executeCommands_cons, executeCommands_M]);
      first [rewrite (In H) | rewrite (Out H)]; reflexivity. }
  split.
  { intros H; split; [rewrite executeCommands_M
                     | rewrite executeCommands_cons, executeCommands_M];
      rewrite (In H); reflexivity. }
  split; [|apply executeCommands_total].
  intros H; split; [rewrite executeCommands_M
                   | rewrite executeCommands_cons, executeCommands_M];
    rewrite (Out H); reflexivity.
Qed.

Lemma loop_onlyTurns (cmds : string) :
  forall v v',
    Spec.onlyTurns cmds = true -> loop plateau cmds v = Ok v' ->
    var_x v' = var_x v /\ var_y v' = var_y v.
Proof.
  induction cmds as [| c r IH]; intros v v'; simpl.
  - now intros _ [= <-].
  - unfold Spec.isTurn; rewrite andb_true_iff; intros [T1 T2].
    unfold loopBody; destruct v as [vx vy vd].
    destruct (Ascii.eqb c "L"); simpl.
    + intros L; apply IH in L; [exact L | exact T2].
    + destruct (Ascii.eqb c "R"); simpl; [|discriminate].
      intros L; apply IH in L; [exact L | exact T2].
Qed.

(** C5. [L] then [R], and [R] then [L], restore the state; four [L] and four
    [R] are the identity; one [L] steps the direction along North, West,
    South, East, North and one [R] along the reverse cycle, the two cycles
    being inverse to each other; and a command string of turns only ends at
    the position it started from. It holds of every state, the in-bounds
    ones among them. *)
Theorem turns_form_a_cycle (s : RoverState) :
  executeCommands s "LR" plateau = Ok s
  /\ executeCommands s "RL" plateau = Ok s
  /\ executeCommands s "LLLL" plateau = Ok s
  /\ executeCommands s "RRRR" plateau = Ok s
  /\ executeCommands s "L" plateau
     = Ok (mkRoverState (position s) (Spec.turnLeft (direction s)))
  /\ executeCommands s "R" plateau
     = Ok (mkRoverState (position s) (Spec.turnRight (direction s)))
  /\ (Spec.turnLeft North = West /\ Spec.turnLeft West = South
      /\ Spec.turnLeft South = East /\ Spec.turnLeft East = North)
  /\ (forall d, Spec.turnLeft (Spec.turnRight d) = d
                /\ Spec.turnRight (Spec.turnLeft d) = d)
  /\ (forall cmds, Spec.onlyTurns cmds = true ->
        exists d, executeCommands s cmds plateau
                  = Ok (mkRoverState (position s) d)).
Proof.
  destruct s as [[px py] d].
  repeat (split; [destruct d; reflexivity|]).
  split; [repeat split|].
  split; [intros []; split; reflexivity|].
  intros cmds T.
  destruct (executeCommands_total plateau (mkRoverState (mkPosition px py) d)
                                  cmds) as [final E].
  rewrite E; rewrite executeCommands_loop in E.
  destruct (loop plateau cmds _) as [v |] eqn:L; simpl in E; [|discriminate].
  destruct (loop_onlyTurns cmds _ _ T L) as [Ex Ey]; simpl in Ex, Ey.
  unfold stateOf in E; destruct (index DIRECTIONS (var_dirNum v)) as [d' |];
    [|discriminate].
  injection E as <-; exists d'; now rewrite Ex, Ey.
Qed.

Lemma executeCommands_skip (s : RoverState) (c : ascii) :
  Parser.isCommandLetter c = false ->
  executeCommands s (String c EmptyString) plateau = Ok s.
Proof.
  unfold Parser.isCommandLetter; rewrite !orb_false_iff; intros [[A B] C].
  rewrite executeCommands_loop; simpl; unfold loopBody.
  destruct (varsOf s) as [vx vy vd] eqn:V.
  rewrite A, B, C; simpl; rewrite <- V; apply stateOf_varsOf.
Qed.

(** C9. [executeCommands] returns a state for every start state, plateau and
    string, whatever the characters of the string; and a character other
    than upper-case [L], [R] and [M] changes nothing: the run with the
    character is the run without it. *)
Theorem executeCommands_total_and_skips
  (s : RoverState) (commands : string) :
  (exists final, executeCommands s commands plateau = Ok final)
  /\ (forall c, Parser.isCommandLetter c = false ->
        executeCommands s (String c EmptyString) plateau = Ok s)
  /\ (forall before c after, Parser.isCommandLetter c = false ->
        executeCommands s (before ++ String c after) plateau
        = executeCommands s (before ++ after) plateau).
Proof.
  split; [apply executeCommands_total|].
  split; [intros c; apply executeCommands_skip|].
  intros before c after Hc.
  rewrite !executeCommands_app.
  destruct (executeCommands s before plateau) as [s1 | e]; simpl;
    [|reflexivity].
  now rewrite executeCommands_cons, executeCommands_skip.
Qed.

End EngineClaims.

(** * Properties of the lines of an input *)

Section LineFacts.

Import JS.

Lemma isEmpty_true (s : string) : isEmpty s = true -> s = EmptyString.
Proof. destruct s; [reflexivity | discriminate]. Qed.

Lemma LF_isWhiteSpace (c : ascii) :
  Ascii.eqb c LF = true -> isWhiteSpace c = true.
Proof. intros H; apply Ascii.eqb_eq in H; subst c; reflexivity. Qed.

Lemma splitLines_cons (s : string) : exists h t, splitLines s = h :: t.
Proof.
  destruct s as [| c r]; simpl; [eauto|].
  destruct (Ascii.eqb c LF); [eauto|].
  destruct (splitLines r); simpl; eauto.
Qed.

Lemma trimEnd_cons (c : ascii) (r : string) :
  trimEnd (String c r)
  = if isEmpty (trimEnd r) && isWhiteSpace c then EmptyString
    else String c (trimEnd r).
Proof.
  simpl; destruct (trimEnd r); simpl; [destruct (isWhiteSpace c)|];
    reflexivity.
Qed.

Lemma trimStart_trimEnd (s : string) :
  trimStart (trimEnd s) = trimEnd (trimStart s).
Proof.
  induction s as [| c r IH]; [reflexivity|].
  rewrite trimEnd_cons; cbn [trimStart].
  destruct (isWhiteSpace c) eqn:W.
  - rewrite andb_true_r; destruct (isEmpty (trimEnd r)) eqn:E.
    + apply isEmpty_true in E; rewrite <- IH, E; reflexivity.
    + cbn [trimStart]; rewrite W; exact IH.
  - rewrite andb_false_r; cbn [trimStart]; rewrite W, trimEnd_cons, W.
    now rewrite andb_false_r.
Qed.

Lemma trim_of_trimEnd (a b : string) :
  trimEnd a = trimEnd b -> trim a = trim b.
Proof.
  intros H; unfold trim; now rewrite <- !trimStart_trimEnd, H.
Qed.

Lemma usable_cons (l : string) (ls : list string) :
  Spec.usable (l :: ls)
  = if isEmpty (trim l) then Spec.usable ls else trim l :: Spec.usable ls.
Proof. unfold Spec.usable; simpl; now destruct (isEmpty (trim l)). Qed.

Lemma usable_app (a b : list string) :
  Spec.usable (a ++ b) = (Spec.usable a ++ Spec.usable b)%list.
Proof. unfold Spec.usable; now rewrite map_app, filter_app. Qed.

Lemma usable_blank (ls : list string) :
  Forall (fun l => trimEnd l = EmptyString) ls -> Spec.usable ls = [].
Proof.
  induction 1 as [| l ls H _ IH]; [reflexivity|].
  rewrite usable_cons, IH.
  replace (trim l) with EmptyString; [reflexivity|].
  unfold trim; now rewrite <- trimStart_trimEnd, H.
Qed.

(** The lines of a string that is white space are white space. *)
Lemma splitLines_blank (s : string) :
  trimEnd s = EmptyString ->
  Forall (fun l => trimEnd l = EmptyString) (splitLines s).
Proof.
  induction s as [| c r IH]; [repeat constructor|].
  rewrite trimEnd_cons.
  destruct (isEmpty (trimEnd r)) eqn:E; [|discriminate].
  destruct (isWhiteSpace c) eqn:W; [intros _ | discriminate].
  apply isEmpty_true in E; specialize (IH E).
  cbn [splitLines]; destruct (Ascii.eqb c LF); [now constructor|].
  destruct (splitLines r) as [| t ts]; cbn [consFirst].
  - repeat constructor; rewrite trimEnd_cons, W; reflexivity.
  - inversion IH as [| ? ? Ht Hts]; subst; constructor; [|exact Hts].
    rewrite trimEnd_cons, Ht, W; reflexivity.
Qed.

(** Trimming the end of a string trims the end of its first line when it
    has one line, and leaves the usable lines after the first as they are. *)
Lemma splitLines_trimEnd (s : string) :
  trimEnd s <> EmptyString ->
  exists h1 t1 h2 t2,
    splitLines (trimEnd s) = h1 :: t1 /\ splitLines s = h2 :: t2
    /\ trimEnd h1 = trimEnd h2 /\ Spec.usable t1 = Spec.usable t2.
Proof.
  induction s as [| c r IH]; [intros H; now elim H|].
  rewrite trimEnd_cons; destruct (isEmpty (trimEnd r)) eqn:E.
  - apply isEmpty_true in E.
    destruct (isWhiteSpace c) eqn:W; [intros H; now elim H | intros _].
    rewrite E; cbn [andb splitLines].
    destruct (Ascii.eqb c LF) eqn:N;
      [apply LF_isWhiteSpace in N; congruence|].
    pose proof (splitLines_blank r E) as B.
    destruct (splitLines r) as [| t ts]; cbn [consFirst].
    + exists (String c EmptyString), [], (String c EmptyString), [].
      repeat split.
    + inversion B as [| ? ? Ht Hts]; subst.
      exists (String c EmptyString), [], (String c t), ts.
      repeat split.
      * now rewrite !trimEnd_cons, Ht, W.
      * now rewrite (usable_blank ts Hts).
  - intros _; cbn [andb].
    destruct IH as (h1 & t1 & h2 & t2 & E1 & E2 & Eh & Et).
    { intros H; rewrite H in E; discriminate. }
    cbn [splitLines]; rewrite E1, E2.
    destruct (Ascii.eqb c LF); cbn [consFirst].
    + exists EmptyString, (h1 :: t1), EmptyString, (h2 :: t2).
      repeat split.
      now rewrite !usable_cons, (trim_of_trimEnd _ _ Eh), Et.
    + exists (String c h1), t1, (String c h2), t2.
      repeat split; [|exact Et].
      now rewrite !trimEnd_cons, Eh.
Qed.

Lemma usable_trimEnd (s : string) :
  Spec.usableLines (trimEnd s) = Spec.usableLines s.
Proof.
  unfold Spec.usableLines.
  destruct (trimEnd s) as [| c r] eqn:E.
  - now rewrite (usable_blank _ (splitLines_blank s E)).
  - destruct (splitLines_trimEnd s) as (h1 & t1 & h2 & t2 & E1 & E2 & Eh & Et).
    { rewrite E; discriminate. }
    rewrite E in E1; rewrite E1, E2.
    now rewrite !usable_cons, (trim_of_trimEnd _ _ Eh), Et.
Qed.

Lemma usable_trimStart (s : string) :
  Spec.usableLines (trimStart s) = Spec.usableLines s.
Proof.
  unfold Spec.usableLines.
  induction s as [| c r IH]; [reflexivity|].
  cbn [trimStart splitLines]; destruct (isWhiteSpace c) eqn:W; [|reflexivity].
  rewrite IH; destruct (Ascii.eqb c LF).
  - now rewrite usable_cons.
  - destruct (splitLines_cons r) as (t & ts & Er); rewrite Er.
    cbn [consFirst]; rewrite !usable_cons.
    replace (trim (String c t)) with (trim t); [reflexivity|].
    unfold trim; cbn [trimStart]; now rewrite W.
Qed.

(** The first [trim] of [parseInput] changes nothing: the lines it keeps are
    every line of the input, trimmed, without the blank ones. *)
Lemma inputLines_usableLines (input : string) :
  Parser.inputLines input = Spec.usableLines input.
Proof.
  unfold Parser.inputLines.
  rewrite <- (usable_trimStart input), <- (usable_trimEnd (trimStart input)).
  unfold Spec.usableLines, Spec.usable, trim.
  apply filter_ext; intros l; now destruct l.
Qed.

End LineFacts.

(** * Properties of the parser *)

Section ParserFacts.

Import JS Parser.

(** Induction on a list two elements at a time, as the rover loop reads it. *)
Lemma pairs_ind {A : Type} (P : list A -> Prop) :
  P [] -> (forall a, P [a]) -> (forall a b l, P l -> P (a :: b :: l)) ->
  forall l, P l.
Proof.
  intros H0 H1 H2 l.
  enough (H : P l /\ forall a, P (a :: l)) by apply H.
  induction l as [| b l [IH1 IH2]]; split; auto.
Qed.

Lemma parseInput_usableLines (input : string) :
  parseInput input
  = let lines := Spec.usableLines input in
    if (List.length lines <? 1)%nat then Throw EmptyInput
    else if (List.length lines <? 3)%nat then Throw MissingRoverData
    else if negb (Z.rem (Z.of_nat (List.length lines) - 1) 2 =? 0)
    then Throw UnpairedRoverLines
    else
      match lines with
      | [] => Throw TypeError
      | line0 :: rest =>
          plateau <- parsePlateau line0 ;;
          rovers <- parseRovers plateau rest ;;
          Ok (mkParsedInput plateau rovers)
      end.
Proof. unfold parseInput; now rewrite inputLines_usableLines. Qed.

Lemma pairing_test (n : nat) :
  (1 <= n)%nat ->
  negb (Z.rem (Z.of_nat n - 1) 2 =? 0) = Nat.even n.
Proof.
  intros H.
  rewrite Z.rem_mod_nonneg by lia.
  destruct (Nat.even n) eqn:E.
  - apply Nat.even_spec in E; destruct E as [k ->].
    apply negb_true_iff, Z.eqb_neq.
    replace (Z.of_nat (2 * k) - 1) with (1 + (Z.of_nat k - 1) * 2) by lia.
    now rewrite Z.mod_add.
  - apply negb_false_iff, Z.eqb_eq.
    assert (O : Nat.odd n = true) by (unfold Nat.odd; now rewrite E).
    apply Nat.odd_spec in O; destruct O as [k ->].
    replace (Z.of_nat (2 * k + 1) - 1) with (0 + Z.of_nat k * 2) by lia.
    now rewrite Z.mod_add.
Qed.

(** The rover loop returns one rover for every two lines. *)
Lemma parseRovers_length (plateau : Plateau) (lines : list string) :
  forall rovers,
    parseRovers plateau lines = Ok rovers ->
    List.length lines = (2 * List.length rovers)%nat.
Proof.
  induction lines as [| a | a b l IH] using pairs_ind; intros rovers; simpl.
  - now intros [= <-].
  - destruct (parsePosition a plateau); discriminate.
  - destruct (parsePosition a plateau); simpl; [|discriminate].
    destruct (parseCommands b); simpl; [|discriminate].
    destruct (parseRovers plateau l) as [rs |]; simpl; [|discriminate].
    intros [= <-]; simpl; rewrite (IH rs eq_refl); lia.
Qed.

Lemma parseRovers_app (plateau : Plateau) (before rest : list string) :
  forall earlier,
    parseRovers plateau before = Ok earlier ->
    parseRovers plateau (before ++ rest)
    = later <- parseRovers plateau rest ;; Ok (earlier ++ later)%list.
Proof.
  induction before as [| a | a b l IH] using pairs_ind; intros earlier.
  - intros [= <-]; simpl; now destruct (parseRovers plateau rest).
  - simpl; destruct (parsePosition a plateau); discriminate.
  - cbn [parseRovers app].
    destruct (parsePosition a plateau) as [s |]; simpl; [|discriminate].
    destruct (parseCommands b) as [c |]; simpl; [|discriminate].
    destruct (parseRovers plateau l) as [rs |] eqn:E; simpl; [|discriminate].
    intros [= <-]; rewrite (IH rs eq_refl).
    now destruct (parseRovers plateau rest).
Qed.

Lemma parseInteger_throws (value fieldName : string) (e : Exception) :
  parseInteger value fieldName = Throw e ->
  e = NotAValidInteger fieldName value.
Proof.
  unfold parseInteger; destruct (_ || _); [now intros [= <-] | discriminate].
Qed.

Lemma parseCommands_throws (line : string) (e : Exception) :
  parseCommands line = Throw e -> e = InvalidCommands line.
Proof.
  unfold parseCommands; destruct (negb _); [now intros [= <-] | discriminate].
Qed.

(** The error for a start outside the plateau carries the bounds of the
    plateau and a point that is outside them. *)
Lemma parsePosition_outside
  (line : string) (plateau : Plateau) (a b c d : Z) :
  parsePosition line plateau = Throw (OutsidePlateau a b c d) ->
  c = maxX plateau /\ d = maxY plateau /\ (a < 0 \/ a > c \/ b < 0 \/ b > d).
Proof.
  unfold parsePosition.
  destruct (splitWhiteSpace line) as [| p0 [| p1 [| p2 [| ? ?]]]];
    try discriminate.
  destruct (parseInteger p0 _) as [vx | e0] eqn:E0; simpl;
    [| apply parseInteger_throws in E0; subst e0; discriminate].
  destruct (parseInteger p1 _) as [vy | e1] eqn:E1; simpl;
    [| apply parseInteger_throws in E1; subst e1; discriminate].
  destruct (VALID_DIRECTIONS _); [|discriminate].
  destruct ((vx <? 0) || (vx >? maxX plateau) || (vy <? 0)
            || (vy >? maxY plateau)) eqn:T; [|discriminate].
  intros [= <- <- <- <-].
  rewrite !orb_true_iff, !Z.ltb_lt, !Z.gtb_gt in T; lia.
Qed.

Lemma parseRovers_outside
  (plateau : Plateau) (lines : list string) (a b c d : Z) :
  parseRovers plateau lines = Throw (OutsidePlateau a b c d) ->
  c = maxX plateau /\ d = maxY plateau /\ (a < 0 \/ a > c \/ b < 0 \/ b > d).
Proof.
  induction lines as [| l0 | l0 l1 l IH] using pairs_ind; simpl.
  - discriminate.
  - destruct (parsePosition l0 plateau) eqn:E; simpl; [discriminate|].
    intros [= ->]; eapply parsePosition_outside; eassumption.
  - destruct (parsePosition l0 plateau) eqn:E; simpl;
      [| intros [= ->]; eapply parsePosition_outside; eassumption].
    destruct (parseCommands l1) eqn:E1; simpl;
      [| apply parseCommands_throws in E1; subst; discriminate].
    destruct (parseRovers plateau l); simpl; [discriminate|].
    intros [= ->]; now apply IH.
Qed.

End ParserFacts.

Section ParserClaims.

Import JS Parser.

(** C8. With [n] the number of lines left after every line is trimmed and
    the blank ones are dropped, [parseInput] decides on [n] alone, before it
    reads a plateau or a rover: no line is the empty-input error, one or two
    lines the missing-rover-data error, an even number from four on the
    pairing error. Only an odd [n] from three on has the content parsed, and
    a [ParsedInput] is returned only whole: its plateau is the parse of the
    first line and its rovers the parse of all the lines after it, one rover
    for every two lines. *)
Theorem structural_checks_come_first (input : string) :
  let n := List.length (Spec.usableLines input) in
  (n = 0%nat -> parseInput input = Throw EmptyInput)
  /\ ((1 <= n < 3)%nat -> parseInput input = Throw MissingRoverData)
  /\ ((3 <= n)%nat -> Nat.even n = true ->
      parseInput input = Throw UnpairedRoverLines)
  /\ ((3 <= n)%nat -> Nat.even n = false ->
      exists line0 rest,
        Spec.usableLines input = line0 :: rest
        /\ parseInput input
           = plateau <- parsePlateau line0 ;;
             rovers <- parseRovers plateau rest ;;
             Ok (mkParsedInput plateau rovers))
  /\ (forall parsed,
        parseInput input = Ok parsed ->
        exists line0 rest,
          Spec.usableLines input = line0 :: rest
          /\ parsePlateau line0 = Ok (plateau parsed)
          /\ parseRovers (plateau parsed) rest = Ok (rovers parsed)
          /\ n = (1 + 2 * List.length (rovers parsed))%nat).
Proof.
  intros n; rewrite parseInput_usableLines; cbv zeta; subst n.
  generalize (Spec.usableLines input); intros lines.
  set (n := List.length lines).
  assert (Hn : n = List.length lines) by reflexivity.
  split; [intros ->; reflexivity|].
  split.
  { intros [H1 H2].
    destruct (Nat.ltb_spec n 1); [lia|].
    destruct (Nat.ltb_spec n 3); [reflexivity | lia]. }
  split.
  { intros H3 E.
    destruct (Nat.ltb_spec n 1); [lia|].
    destruct (Nat.ltb_spec n 3); [lia|].
    now rewrite pairing_test, E by lia. }
  split.
  { intros H3 E.
    destruct (Nat.ltb_spec n 1); [lia|].
    destruct (Nat.ltb_spec n 3); [lia|].
    rewrite pairing_test, E by lia.
    destruct lines as [| line0 rest]; [simpl in Hn; lia|].
    now exists line0, rest. }
  intros parsed.
  destruct (Nat.ltb_spec n 1); [discriminate|].
  destruct (Nat.ltb_spec n 3); [discriminate|].
  destruct (negb _); [discriminate|].
  destruct lines as [| line0 rest]; [discriminate|].
  destruct (parsePlateau line0) as [p |] eqn:Ep; simpl; [|discriminate].
  destruct (parseRovers p rest) as [rs |] eqn:Er; simpl; [|discriminate].
  intros [= <-]; exists line0, rest; simpl.
  repeat split; try assumption.
  rewrite Hn; simpl; now rewrite (parseRovers_length p rest rs Er).
Qed.

(** C7. Take a rover whose position line has three fields, two integers [x]
    and [y] and a direction letter, in an input whose plateau line and
    earlier rovers parse. Then [parseInput] fails with the error for a start
    outside the plateau, carrying the point [(x, y)] and the bounds, exactly
    when [x < 0], [x > maxX], [y < 0] or [y > maxY]; a position within the
    bounds, the bounds themselves included, is accepted as the start of the
    rover. *)
Theorem start_outside_plateau
  (input line0 positionLine commandsLine : string)
  (before after : list string)
  (plateau : Plateau) (earlier : list RoverInput)
  (part0 part1 part2 : string) (x y : Z) (d : Direction) :
  Spec.usableLines input
  = line0 :: (before ++ positionLine :: commandsLine :: after)%list ->
  Nat.even (List.length after) = true ->
  parsePlateau line0 = Ok plateau ->
  parseRovers plateau before = Ok earlier ->
  splitWhiteSpace positionLine = [part0; part1; part2] ->
  parseInteger part0 "x coordinate" = Ok x ->
  parseInteger part1 "y coordinate" = Ok y ->
  VALID_DIRECTIONS (toUpperCase part2) = Some d ->
  (parseInput input
   = Throw (OutsidePlateau x y (maxX plateau) (maxY plateau))
   <-> x < 0 \/ x > maxX plateau \/ y < 0 \/ y > maxY plateau)
  /\ (0 <= x <= maxX plateau -> 0 <= y <= maxY plateau ->
      parsePosition positionLine plateau
      = Ok (mkRoverState (mkPosition x y) d)).
Proof.
  intros Hl Ha Hp Hb Hs Hx Hy Hd.
  assert (Pos : parsePosition positionLine plateau
                = if (x <? 0) || (x >? maxX plateau) || (y <? 0)
                     || (y >? maxY plateau)
                  then Throw (OutsidePlateau x y (maxX plateau) (maxY plateau))
                  else Ok (mkRoverState (mkPosition x y) d)).
  { unfold parsePosition; rewrite Hs, Hx; simpl; rewrite Hy; simpl.
    now rewrite Hd. }
  assert (In : parseInput input
               = rovers <-
                   parseRovers
                     plateau (before ++ positionLine :: commandsLine :: after) ;;
                 Ok (mkParsedInput plateau rovers)).
  { rewrite parseInput_usableLines, Hl; cbv zeta.
    pose proof (parseRovers_length _ _ _ Hb) as Lb.
    apply Nat.even_spec in Ha; destruct Ha as [k Hk].
    assert (Len : List.length
                    (line0 :: before ++ positionLine :: commandsLine :: after)
                  = (2 * (List.length earlier + k + 1) + 1)%nat).
    { simpl; rewrite length_app; simpl; lia. }
    rewrite Len.
    destruct (Nat.ltb_spec (2 * (List.length earlier + k + 1) + 1) 1); [lia|].
    destruct (Nat.ltb_spec (2 * (List.length earlier + k + 1) + 1) 3); [lia|].
    rewrite pairing_test by lia.
    replace (2 * (List.length earlier + k + 1) + 1)%nat
      with (S (2 * (List.length earlier + k + 1))) by lia.
    rewrite Nat.even_succ.
    assert (O : Nat.odd (2 * (List.length earlier + k + 1)) = false).
    { apply not_true_is_false; intros O; apply Nat.odd_spec in O.
      destruct O as [j Hj]; lia. }
    rewrite O, Hp; reflexivity. }
  rewrite In, (parseRovers_app _ _ _ _ Hb); cbn [parseRovers]; rewrite Pos.
  split; [split|].
  - destruct ((x <? 0) || (x >? maxX plateau) || (y <? 0)
              || (y >? maxY plateau)) eqn:T.
    + intros _; rewrite !orb_true_iff, !Z.ltb_lt, !Z.gtb_gt in T; lia.
    + simpl.
      destruct (parseCommands commandsLine) eqn:Ec; simpl;
        [| apply parseCommands_throws in Ec; subst; discriminate].
      destruct (parseRovers plateau after) eqn:Er; simpl; [discriminate|].
      intros [= ->]; apply parseRovers_outside in Er; lia.
  - intros H.
    replace ((x <? 0) || (x >? maxX plateau) || (y <? 0)
             || (y >? maxY plateau)) with true; [reflexivity|].
    symmetry; rewrite !orb_true_iff, !Z.ltb_lt, !Z.gtb_gt; lia.
  - intros Bx By.
    replace ((x <? 0) || (x >? maxX plateau) || (y <? 0)
             || (y >? maxY plateau)) with false; [reflexivity|].
    symmetry; rewrite !orb_false_iff, !Z.ltb_ge, Z.gtb_ltb, Z.gtb_ltb,
      !Z.ltb_ge; lia.
Qed.

End ParserClaims.

(** * Blank lines, integers and the sample run *)

Section BlankLines.

Import JS Parser.

Lemma isEmpty_trimEnd (s : string) : isEmpty (trimEnd s) = Spec.blank s.
Proof.
  induction s as [| c r IH]; [reflexivity|].
  rewrite trimEnd_cons; cbn [Spec.blank]; rewrite <- IH.
  destruct (isEmpty (trimEnd r)), (isWhiteSpace c); reflexivity.
Qed.

Lemma blank_trimStart (s : string) : Spec.blank (trimStart s) = Spec.blank s.
Proof.
  induction s as [| c r IH]; [reflexivity|].
  cbn [trimStart Spec.blank]; destruct (isWhiteSpace c) eqn:W; [exact IH|].
  cbn [Spec.blank]; now rewrite W.
Qed.

(** A line is dropped exactly when it is white space. *)
Lemma isEmpty_trim (s : string) : isEmpty (trim s) = Spec.blank s.
Proof. unfold trim; now rewrite isEmpty_trimEnd, blank_trimStart. Qed.

Lemma usable_of_nonblank (lines : list string) :
  Forall (fun l => Spec.blank l = false) lines ->
  Spec.usable lines = map trim lines.
Proof.
  induction 1 as [| l ls H _ IH]; [reflexivity|].
  now rewrite usable_cons, isEmpty_trim, H, IH.
Qed.

Lemma whiteSpace_unit (c : ascii) :
  isWhiteSpace c = true ->
  upperUnit c = String c EmptyString /\ isCommandLetter c = false.
Proof.
  destruct c as [[] [] [] [] [] [] [] []]; intros H;
    try discriminate H; split; reflexivity.
Qed.

(** [parseCommands], called on a line of white space, raises the
    invalid-commands error. *)
Lemma parseCommands_blank (line : string) :
  Spec.blank line = true ->
  parseCommands line = Throw (InvalidCommands line).
Proof.
  intros B; unfold parseCommands.
  replace (VALID_COMMANDS (toUpperCase line)) with false; [reflexivity|].
  destruct line as [| c r]; [reflexivity|].
  cbn [Spec.blank] in B; apply andb_true_iff in B; destruct B as [W _].
  destruct (whiteSpace_unit c W) as [U L].
  cbn [toUpperCase]; rewrite U; unfold VALID_COMMANDS; simpl.
  now rewrite L.
Qed.

(** [parseInput] never lets a blank line reach a rover. *)
Lemma usableLines_nonblank (input : string) :
  Forall (fun l => isEmpty l = false) (Spec.usableLines input).
Proof.
  unfold Spec.usableLines, Spec.usable; apply Forall_forall; intros l H.
  apply filter_In in H; destruct H as [_ H]; now apply negb_true_iff.
Qed.

End BlankLines.

Section IntegerFacts.

Import JS Parser.

Lemma parseInteger_Ok (value fieldName : string) (n : Z) :
  parseInteger value fieldName = Ok n <-> Spec.denotesInteger value n.
Proof.
  unfold parseInteger, Spec.denotesInteger.
  destruct (Number value) as [| neg | m e]; simpl;
    try (split; [discriminate | intros []]).
  destruct (0 <=? e) eqn:He; simpl.
  - split; [intros [= <-]; reflexivity | intros ->; reflexivity].
  - apply Z.leb_gt in He.
    assert (Hd : 0 < 2 ^ (- e)) by (apply Z.pow_pos_nonneg; lia).
    destruct (m mod 2 ^ (- e) =? 0) eqn:Hm; simpl.
    + apply Z.eqb_eq in Hm; apply Z.div_exact in Hm; [|lia].
      split.
      * intros [= <-]; rewrite Hm at 1; apply Z.mul_comm.
      * intros ->; f_equal; apply Z.div_mul; lia.
    + apply Z.eqb_neq in Hm.
      split; [discriminate|].
      intros ->; elim Hm; apply Z.mod_mul; lia.
Qed.

Lemma parseInteger_Throw (value fieldName : string) :
  parseInteger value fieldName = Throw (NotAValidInteger fieldName value)
  <-> ~ exists n, Spec.denotesInteger value n.
Proof.
  destruct (parseInteger value fieldName) as [a | e] eqn:E.
  - split; [discriminate|].
    intros H; elim H; exists a; now apply (parseInteger_Ok value fieldName).
  - apply parseInteger_throws in E as E'; subst e.
    split; [|reflexivity].
    intros _ [n H]; apply (parseInteger_Ok value fieldName) in H; congruence.
Qed.

Lemma parseInteger_accepts (value fieldName : string) :
  (exists n, parseInteger value fieldName = Ok n)
  <-> Number_isInteger (Number value) = true.
Proof.
  unfold parseInteger.
  destruct (Number value) as [| neg | m e]; simpl;
    try (split; [intros [n H]; discriminate | discriminate]).
  destruct (if 0 <=? e then true else m mod 2 ^ (- e) =? 0); simpl.
  - split; [reflexivity | eauto].
  - split; [intros [n H]; discriminate | discriminate].
Qed.

(** The first field of a plateau line that is no integer decides the error. *)
Lemma parsePlateau_fields (line part0 part1 : string) :
  splitWhiteSpace line = [part0; part1] ->
  (parsePlateau line = Throw (NotAValidInteger "plateau maxX" part0)
   <-> ~ exists n, Spec.denotesInteger part0 n)
  /\ ((exists n, Spec.denotesInteger part0 n) ->
      (parsePlateau line = Throw (NotAValidInteger "plateau maxY" part1)
       <-> ~ exists n, Spec.denotesInteger part1 n)).
Proof.
  intros Hs; unfold parsePlateau; rewrite Hs.
  split.
  - rewrite <- (parseInteger_Throw part0 "plateau maxX").
    destruct (parseInteger part0 "plateau maxX") as [a | e] eqn:E0; simpl.
    + split; [|discriminate].
      destruct (parseInteger part1 "plateau maxY") as [b | e] eqn:E1; simpl.
      * destruct (_ || _); discriminate.
      * apply parseInteger_throws in E1; subst e; discriminate.
    + apply parseInteger_throws in E0; subst e; split; reflexivity.
  - intros [n Hn]; apply (parseInteger_Ok part0 "plateau maxX") in Hn.
    rewrite Hn; simpl.
    rewrite <- (parseInteger_Throw part1 "plateau maxY").
    destruct (parseInteger part1 "plateau maxY") as [b | e] eqn:E1; simpl.
    + split; [|discriminate]; destruct (_ || _); discriminate.
    + apply parseInteger_throws in E1; subst e; split; reflexivity.
Qed.

(** The same for the two coordinates of a position line. *)
Lemma parsePosition_fields
  (line part0 part1 part2 : string) (plateau : Plateau) :
  splitWhiteSpace line = [part0; part1; part2] ->
  (parsePosition line plateau = Throw (NotAValidInteger "x coordinate" part0)
   <-> ~ exists n, Spec.denotesInteger part0 n)
  /\ ((exists n, Spec.denotesInteger part0 n) ->
      (parsePosition line plateau
       = Throw (NotAValidInteger "y coordinate" part1)
       <-> ~ exists n, Spec.denotesInteger part1 n)).
Proof.
  intros Hs; unfold parsePosition; rewrite Hs.
  split.
  - rewrite <- (parseInteger_Throw part0 "x coordinate").
    destruct (parseInteger part0 "x coordinate") as [a | e] eqn:E0; simpl.
    + split; [|discriminate].
      destruct (parseInteger part1 "y coordinate") as [b | e] eqn:E1; simpl.
      * destruct (VALID_DIRECTIONS _); [|discriminate].
        destruct (_ || _); discriminate.
      * apply parseInteger_throws in E1; subst e; discriminate.
    + apply parseInteger_throws in E0; subst e; split; reflexivity.
  - intros [n Hn]; apply (parseInteger_Ok part0 "x coordinate") in Hn.
    rewrite Hn; simpl.
    rewrite <- (parseInteger_Throw part1 "y coordinate").
    destruct (parseInteger part1 "y coordinate") as [b | e] eqn:E1; simpl.
    + split; [|discriminate].
      destruct (VALID_DIRECTIONS _); [|discriminate].
      destruct (_ || _); discriminate.
    + apply parseInteger_throws in E1; subst e; split; reflexivity.
Qed.

End IntegerFacts.

Section TextClaims.

Import JS Parser.

(** C3, as the code has it. A commands line that is empty or white space is
    dropped with the other blank lines before any line is paired: with every
    other line of the input not blank, the usable lines are one short, and
    [parseInput] fails on the count of lines, with the missing-rover-data
    error for a single rover and with the pairing error for more. The
    invalid-commands error is what [parseCommands] raises when it is called
    on such a line itself. *)
Theorem blank_commands_line_is_dropped
  (input commandsLine : string) (before after : list string) :
  splitLines input = (before ++ commandsLine :: after)%list ->
  Forall (fun l => Spec.blank l = false) before ->
  Forall (fun l => Spec.blank l = false) after ->
  Spec.blank commandsLine = true ->
  (2 <= List.length before)%nat ->
  Nat.even (List.length before) = true ->
  Nat.even (List.length after) = true ->
  parseCommands commandsLine = Throw (InvalidCommands commandsLine)
  /\ Spec.usableLines input = (map trim before ++ map trim after)%list
  /\ parseInput input
     = Throw (if (List.length before + List.length after <? 3)%nat
              then MissingRoverData else UnpairedRoverLines).
Proof.
  intros Hs Hb Ha Hc H2 Eb Ea.
  split; [now apply parseCommands_blank|].
  assert (U : Spec.usableLines input
              = (map trim before ++ map trim after)%list).
  { unfold Spec.usableLines; rewrite Hs, usable_app, usable_cons.
    now rewrite isEmpty_trim, Hc, !usable_of_nonblank. }
  split; [exact U|].
  rewrite parseInput_usableLines, U; cbv zeta.
  rewrite length_app, !length_map.
  set (n := (List.length before + List.length after)%nat).
  assert (En : Nat.even n = true).
  { unfold n; now rewrite Nat.even_add, Eb, Ea. }
  destruct (Nat.ltb_spec n 1); [lia|].
  destruct (Nat.ltb_spec n 3); [reflexivity|].
  now rewrite pairing_test, En by lia.
Qed.

Lemma blank_commands_line_is_dropped_witness :
  parseInput Scenario.blankCommands = Throw MissingRoverData
  /\ parseInput Scenario.blankCommandsOfTwo = Throw UnpairedRoverLines.
Proof.
  split.
  - apply (blank_commands_line_is_dropped
             Scenario.blankCommands "   " ["5 5"; "1 2 N"] []);
      try reflexivity; try (repeat constructor).
  - apply (blank_commands_line_is_dropped
             Scenario.blankCommandsOfTwo " " ["5 5"; "1 2 N"] ["3 3 E"; "MM"]);
      try reflexivity; try (repeat constructor).
Defined.

(** C3, as the specification states it, fails: the plateau line and the
    position line are valid and the commands line is three spaces, and the
    error is the missing-rover-data error, not the invalid-commands error. *)
Lemma blank_commands_line_counterexample :
  splitLines Scenario.blankCommands = ["5 5"; "1 2 N"; "   "]
  /\ parsePlateau "5 5" = Ok (mkPlateau 5 5)
  /\ parsePosition "1 2 N" (mkPlateau 5 5)
     = Ok (mkRoverState (mkPosition 1 2) North)
  /\ Spec.blank "   " = true
  /\ parseInput Scenario.blankCommands = Throw MissingRoverData
  /\ Spec.isInvalidCommands (parseInput Scenario.blankCommands) = false.
Proof. repeat split; vm_compute; reflexivity. Qed.

(** C6. The sample input parses to the plateau (5, 5) and two rovers; run in
    input order they end at (1, 3) facing North and (5, 1) facing East; and
    the output is the two lines [1 3 N] and [5 1 E], fields apart by one
    space, lines apart by one line feed, nothing after the last. *)
Theorem scenarioA_run :
  let rover1 := mkRoverInput (mkRoverState (mkPosition 1 2) North)
                             "LMLMLMLMM" in
  let rover2 := mkRoverInput (mkRoverState (mkPosition 3 3) East)
                             "MMRMMRMRRM" in
  let final1 := mkRoverState (mkPosition 1 3) North in
  let final2 := mkRoverState (mkPosition 5 1) East in
  Scenario.scenarioA
  = ("5 5" ++ String LF ("1 2 N" ++ String LF ("LMLMLMLMM"
       ++ String LF ("3 3 E" ++ String LF "MMRMMRMRRM"))))%string
  /\ parseInput Scenario.scenarioA
     = Ok (mkParsedInput (mkPlateau 5 5) [rover1; rover2])
  /\ Engine.executeCommands (start rover1) (commands rover1) (mkPlateau 5 5)
     = Ok final1
  /\ Engine.executeCommands (start rover2) (commands rover2) (mkPlateau 5 5)
     = Ok final2
  /\ Format.formatOutput [final1; final2]
     = ("1 3 N" ++ String LF "5 1 E")%string
  /\ Page.runSimulation Scenario.scenarioA
     = Ok ("1 3 N" ++ String LF "5 1 E")%string.
Proof. repeat split; vm_compute; reflexivity. Qed.

(** C10. [parseInteger] accepts exactly the strings that [Number] converts
    to an integer, and returns that integer. Besides 2.0 it accepts the
    hexadecimal 0x10 as 16, 1e3 with its exponent as 1000 and the signed +5
    as 5, as bounds of the plateau and as coordinates of a rover. *)
Theorem parseInteger_accepts_what_Number_makes_an_integer
  (fieldName : string) :
  (forall value,
      (exists n, parseInteger value fieldName = Ok n)
      <-> Number_isInteger (Number value) = true)
  /\ (forall value n,
        parseInteger value fieldName = Ok n <-> Spec.denotesInteger value n)
  /\ parseInteger "2.0" fieldName = Ok 2
  /\ parseInteger "0x10" fieldName = Ok 16
  /\ parseInteger "1e3" fieldName = Ok 1000
  /\ parseInteger "+5" fieldName = Ok 5
  /\ Scenario.otherNotations
     = ("0x10 1e3" ++ String LF ("+5 2.0 N" ++ String LF "M"))%string
  /\ parseInput Scenario.otherNotations
     = Ok (mkParsedInput
             (mkPlateau 16 1000)
             [mkRoverInput (mkRoverState (mkPosition 5 2) North) "M"]).
Proof.
  split; [intros value; apply parseInteger_accepts|].
  split; [intros value n; apply parseInteger_Ok|].
  repeat split; vm_compute; reflexivity.
Qed.

End TextClaims.

(** * The properties at concrete inputs *)

Lemma executeCommands_stays_in_bounds_witness :
  exists final,
    Engine.executeCommands (mkRoverState (mkPosition 0 0) North) "MMMRMMM"
                           (mkPlateau 2 2) = Ok final
    /\ 0 <= x (position final) <= 2
    /\ 0 <= y (position final) <= 2.
Proof.
  apply (executeCommands_stays_in_bounds
           (mkPlateau 2 2) (mkRoverState (mkPosition 0 0) North) "MMMRMMM").
  unfold Spec.contains; simpl; lia.
Defined.

Lemma turns_form_a_cycle_witness :
  exists d,
    Engine.executeCommands (mkRoverState (mkPosition 2 2) North) "LRLL"
                           (mkPlateau 5 5)
    = Ok (mkRoverState (mkPosition 2 2) d).
Proof.
  destruct (turns_form_a_cycle (mkPlateau 5 5)
                               (mkRoverState (mkPosition 2 2) North))
    as (_ & _ & _ & _ & _ & _ & _ & _ & H).
  exact (H "LRLL" eq_refl).
Defined.

Lemma executeCommands_total_and_skips_witness :
  Engine.executeCommands (mkRoverState (mkPosition 1 2) North) "Lm 3M"
                         (mkPlateau 5 5)
  = Engine.executeCommands (mkRoverState (mkPosition 1 2) North) "L 3M"
                           (mkPlateau 5 5).
Proof.
  destruct (executeCommands_total_and_skips
              (mkPlateau 5 5) (mkRoverState (mkPosition 1 2) North) "")
    as (_ & _ & H).
  exact (H "L" "m"%char " 3M" eq_refl).
Defined.

Lemma structural_checks_come_first_witness :
  Parser.parseInput "" = Throw EmptyInput
  /\ Parser.parseInput (Scenario.text ["5 5"; "1 2 N"])
     = Throw MissingRoverData
  /\ Parser.parseInput (Scenario.text ["5 5"; "1 2 N"; "LMLM"; "3 3 E"])
     = Throw UnpairedRoverLines.
Proof.
  split; [| split].
  - apply (proj1 (structural_checks_come_first "")); reflexivity.
  - apply (proj1 (proj2 (structural_checks_come_first
                           (Scenario.text ["5 5"; "1 2 N"]))));
      vm_compute; split; repeat constructor.
  - apply (proj1 (proj2 (proj2 (structural_checks_come_first
                                  (Scenario.text
                                     ["5 5"; "1 2 N"; "LMLM"; "3 3 E"])))));
      vm_compute; repeat constructor.
Defined.

Lemma start_outside_plateau_witness :
  Parser.parseInput Scenario.scenarioF = Throw (OutsidePlateau 6 2 5 5)
  /\ Parser.parsePosition "5 5 N" (mkPlateau 5 5)
     = Ok (mkRoverState (mkPosition 5 5) North).
Proof.
  split.
  - apply (proj1 (start_outside_plateau
                    Scenario.scenarioF "5 5" "6 2 N" "M" [] []
                    (mkPlateau 5 5) [] "6" "2" "N" 6 2 North
                    eq_refl eq_refl eq_refl eq_refl eq_refl eq_refl eq_refl
                    eq_refl)).
    right; left; reflexivity.
  - apply (proj2 (start_outside_plateau
                    (Scenario.text ["5 5"; "5 5 N"; "L"]) "5 5" "5 5 N" "L"
                    [] [] (mkPlateau 5 5) [] "5" "5" "N" 5 5 North
                    eq_refl eq_refl eq_refl eq_refl eq_refl eq_refl eq_refl
                    eq_refl)); simpl; lia.
Defined.

Lemma moveForward_step_witness :
  Engine.executeCommands (mkRoverState (mkPosition 0 0) North) "M"
                         (mkPlateau 2 2)
  = Ok (mkRoverState (mkPosition 0 1) North)
  /\ Engine.executeCommands (mkRoverState (mkPosition 0 2) North) "M"
                            (mkPlateau 2 2)
     = Ok (mkRoverState (mkPosition 0 2) North).
Proof.
  split.
  - destruct (moveForward_step (mkPlateau 2 2)
                               (mkRoverState (mkPosition 0 0) North) "")
      as (_ & _ & H & _).
    apply H; vm_compute; repeat split; discriminate.
  - destruct (moveForward_step (mkPlateau 2 2)
                               (mkRoverState (mkPosition 0 2) North) "")
      as (_ & _ & H & _).
    apply H; vm_compute; try reflexivity.
    intros [_ [_ H3]]; apply H3; reflexivity.
Defined.

(** C2 as the specification states it fails beyond [2^53]: the rover at
    [x = 2^53] facing East is within the plateau of bounds [2^53 + 2] and
    [0], and so is its position plus the displacement (+1, 0), yet [M] leaves
    the rover where it is, for [2^53 + 1] is no double and the sum is
    [2^53]. The parser delivers this state: the page prints the start cell
    after two [M]. *)
Lemma moveForward_step_counterexample :
  Spec.contains (mkPlateau 9007199254740994 0) (mkPosition 9007199254740992 0)
  /\ Spec.exactCandidate (mkRoverState (mkPosition 9007199254740992 0) East)
     = mkPosition 9007199254740993 0
  /\ Spec.contains (mkPlateau 9007199254740994 0)
                   (mkPosition 9007199254740993 0)
  /\ Engine.executeCommands
       (mkRoverState (mkPosition 9007199254740992 0) East) "M"
       (mkPlateau 9007199254740994 0)
     = Ok (mkRoverState (mkPosition 9007199254740992 0) East)
  /\ Parser.parseInput Scenario.farEast
     = Ok (mkParsedInput
             (mkPlateau 9007199254740994 0)
             [mkRoverInput
                (mkRoverState (mkPosition 9007199254740992 0) East) "MM"])
  /\ Page.runSimulation Scenario.farEast = Ok "9007199254740992 0 E".
Proof.
  split; [unfold Spec.contains; simpl; lia|].
  split; [reflexivity|].
  split; [unfold Spec.contains; simpl; lia|].
  split; [vm_compute; reflexivity|].
  split; vm_compute; reflexivity.
Qed.

(** * More of the engine *)

Section EngineMore.

Import Engine Loop.

Variable plateau : Plateau.

Lemma index_DIRECTIONS_of (d : Direction) :
  index DIRECTIONS (DIR_TO_NUM d) = Some d.
Proof. destruct d; reflexivity. Qed.

(** A step moves the direction number as [More.turn] moves the direction. *)
Lemma loopBody_turn (c : ascii) (d : Direction) (v v' : Vars) :
  var_dirNum v = DIR_TO_NUM d ->
  loopBody plateau c v = Ok v' ->
  var_dirNum v' = DIR_TO_NUM (More.turn c d).
Proof.
  destruct v as [vx vy vd]; simpl; intros ->.
  unfold loopBody, More.turn.
  destruct (Ascii.eqb c "L"); [intros [= <-]; destruct d; reflexivity|].
  destruct (Ascii.eqb c "R"); [intros [= <-]; destruct d; reflexivity|].
  destruct (Ascii.eqb c "M"); [|intros [= <-]; reflexivity].
  destruct (index DELTAS (DIR_TO_NUM d)) as [[dx dy]|]; [|discriminate].
  match goal with
  | |- context [if ?b then _ else _] => destruct b
  end; intros [= <-]; reflexivity.
Qed.

Lemma loop_turns (cmds : string) :
  forall d v v',
    var_dirNum v = DIR_TO_NUM d ->
    loop plateau cmds v = Ok v' ->
    var_dirNum v' = DIR_TO_NUM (More.applyTurns cmds d).
Proof.
  induction cmds as [| c r IH]; intros d v v' Hd; simpl.
  - now intros [= <-].
  - destruct (loopBody plateau c v) as [v1 |] eqn:E; simpl; [|discriminate].
    apply IH; eapply loopBody_turn; eassumption.
Qed.

(** X1. Running no command returns the start state, and running [a]
    followed by [b] is running [b] from the state [a] ends in: a run can be
    cut anywhere and resumed. *)
Theorem executeCommands_resumes (s : RoverState) (a b : string) :
  executeCommands s "" plateau = Ok s
  /\ executeCommands s (a ++ b) plateau
     = s' <- executeCommands s a plateau ;; executeCommands s' b plateau.
Proof.
  split; [|apply executeCommands_app].
  rewrite executeCommands_loop; simpl; apply stateOf_varsOf.
Qed.

(** X2. The direction a run ends in is the start direction after the turns
    of the command string, whatever the plateau, the position and the moves
    between the turns. *)
Theorem executeCommands_direction (s : RoverState) (cmds : string) :
  exists p,
    executeCommands s cmds plateau
    = Ok (mkRoverState p (More.applyTurns cmds (direction s))).
Proof.
  destruct (executeCommands_total plateau s cmds) as [final E].
  rewrite E; rewrite executeCommands_loop in E.
  destruct (loop plateau cmds (varsOf s)) as [v |] eqn:L; simpl in E;
    [|discriminate].
  pose proof (loop_turns cmds (direction s) (varsOf s) v eq_refl L) as D.
  unfold stateOf in E; rewrite D, index_DIRECTIONS_of in E.
  injection E as <-; eauto.
Qed.

(** One step moves the rover by one cell at most, an [M] only. *)
Lemma loopBody_distance (c : ascii) (v v' : Vars) :
  maxX plateau < 2 ^ 53 -> maxY plateau < 2 ^ 53 ->
  boundsOk plateau v -> dirOk v ->
  loopBody plateau c v = Ok v' ->
  Z.abs (var_x v' - var_x v) + Z.abs (var_y v' - var_y v)
  <= (if Ascii.eqb c "M" then 1 else 0).
Proof.
  intros HX HY B D.
  destruct (dirOk_cases v D) as [E | [E | [E | E]]];
    destruct v as [vx vy vd]; simpl in E; subst vd;
    unfold boundsOk, Spec.contains in B; simpl in B;
    unfold loopBody;
    (destruct (Ascii.eqb c "M"); [|destruct (Ascii.eqb c "L");
       [|destruct (Ascii.eqb c "R")]; intros [= <-]; simpl; lia]);
    (destruct (Ascii.eqb c "L"); [intros [= <-]; simpl; lia|]);
    (destruct (Ascii.eqb c "R"); [intros [= <-]; simpl; lia|]);
    match goal with
    | |- context [index DELTAS ?k] =>
        let r := eval vm_compute in (index DELTAS k) in
        change (index DELTAS k) with r
    end; cbv beta iota zeta;
    rewrite !add_exact by (simpl; lia);
    match goal with
    | |- context [if ?b then _ else _] => destruct b
    end; intros [= <-]; simpl; lia.
Qed.

Lemma loop_distance (cmds : string) :
  maxX plateau < 2 ^ 53 -> maxY plateau < 2 ^ 53 ->
  forall v v',
    boundsOk plateau v -> dirOk v ->
    loop plateau cmds v = Ok v' ->
    Z.abs (var_x v' - var_x v) + Z.abs (var_y v' - var_y v)
    <= More.countMoves cmds.
Proof.
  intros HX HY; induction cmds as [| c r IH]; intros v v' B D; simpl.
  - intros [= <-]; lia.
  - destruct (loopBody plateau c v) as [v1 |] eqn:E; simpl; [|discriminate].
    intros L.
    pose proof (loopBody_distance c v v1 HX HY B D E) as S1.
    pose proof (loopBody_bounds plateau c v v1 B E) as B1.
    destruct (loopBody_ok plateau c v D) as [v2 [E2 D2]].
    rewrite E in E2; injection E2 as <-.
    pose proof (IH v1 v' B1 D2 L) as S2.
    lia.
Qed.

(** X3. On a plateau with bounds below [2^53], a run from a start within
    the plateau ends at most as many cells away, counted along the two
    axes, as the command string holds [M]. *)
Theorem executeCommands_distance (s : RoverState) (cmds : string) :
  maxX plateau < 2 ^ 53 -> maxY plateau < 2 ^ 53 ->
  Spec.contains plateau (position s) ->
  exists final,
    executeCommands s cmds plateau = Ok final
    /\ Z.abs (x (position final) - x (position s))
       + Z.abs (y (position final) - y (position s))
       <= More.countMoves cmds.
Proof.
  intros HX HY B.
  destruct (executeCommands_total plateau s cmds) as [final E].
  exists final; split; [exact E|].
  rewrite executeCommands_loop in E.
  destruct (loop plateau cmds (varsOf s)) as [v |] eqn:L; simpl in E;
    [|discriminate].
  assert (Bv : boundsOk plateau (varsOf s)).
  { destruct s as [[px py] d]; exact B. }
  pose proof (loop_distance cmds HX HY _ _ Bv (dirOk_varsOf s) L) as S.
  unfold stateOf in E; destruct (index DIRECTIONS (var_dirNum v));
    [|discriminate].
  injection E as <-; destruct s as [[px py] ds]; exact S.
Qed.

End EngineMore.

Lemma executeCommands_distance_witness :
  exists final,
    Engine.executeCommands (mkRoverState (mkPosition 0 0) North) "MMMRMMM"
                           (mkPlateau 2 2) = Ok final
    /\ Z.abs (x (position final) - 0) + Z.abs (y (position final) - 0) <= 6.
Proof.
  apply (executeCommands_distance
           (mkPlateau 2 2) (mkRoverState (mkPosition 0 0) North) "MMMRMMM");
    [reflexivity | reflexivity | unfold Spec.contains; simpl; lia].
Defined.

(** * More of the parser *)

Section ParserMore.

Import JS Parser.

Lemma parsePlateau_nonneg (line : string) (p : Plateau) :
  parsePlateau line = Ok p -> 0 <= maxX p /\ 0 <= maxY p.
Proof.
  unfold parsePlateau.
  destruct (splitWhiteSpace line) as [| p0 [| p1 [| ? ?]]]; try discriminate.
  destruct (parseInteger p0 _) as [a |]; simpl; [|discriminate].
  destruct (parseInteger p1 _) as [b |]; simpl; [|discriminate].
  destruct ((a <? 0) || (b <? 0)) eqn:T; [discriminate|].
  intros [= <-]; simpl.
  rewrite orb_false_iff, !Z.ltb_ge in T; exact T.
Qed.

Lemma parsePosition_contains (line : string) (p : Plateau) (s : RoverState) :
  parsePosition line p = Ok s -> Spec.contains p (position s).
Proof.
  unfold parsePosition.
  destruct (splitWhiteSpace line) as [| p0 [| p1 [| p2 [| ? ?]]]];
    try discriminate.
  destruct (parseInteger p0 _) as [a |]; simpl; [|discriminate].
  destruct (parseInteger p1 _) as [b |]; simpl; [|discriminate].
  destruct (VALID_DIRECTIONS _); [|discriminate].
  destruct ((a <? 0) || (a >? maxX p) || (b <? 0) || (b >? maxY p)) eqn:T;
    [discriminate|].
  intros [= <-]; unfold Spec.contains; simpl.
  rewrite !orb_false_iff, !Z.ltb_ge, Z.gtb_ltb, Z.gtb_ltb, !Z.ltb_ge in T.
  lia.
Qed.

Lemma parseCommands_valid (line c : string) :
  parseCommands line = Ok c ->
  VALID_COMMANDS c = true /\ c = toUpperCase line.
Proof.
  unfold parseCommands.
  destruct (VALID_COMMANDS (toUpperCase line)) eqn:V; simpl;
    [|discriminate].
  intros [= <-]; now split.
Qed.

Lemma parseRovers_roverOk (p : Plateau) (lines : list string) :
  forall rs, parseRovers p lines = Ok rs -> Forall (More.roverOk p) rs.
Proof.
  induction lines as [| a | a b l IH] using pairs_ind; intros rs; simpl.
  - intros [= <-]; constructor.
  - destruct (parsePosition a p); discriminate.
  - destruct (parsePosition a p) as [s |] eqn:Es; simpl; [|discriminate].
    destruct (parseCommands b) as [c |] eqn:Ec; simpl; [|discriminate].
    destruct (parseRovers p l) as [rs' |]; simpl; [|discriminate].
    intros [= <-]; constructor; [|now apply IH].
    split; simpl.
    + eapply parsePosition_contains; eassumption.
    + now apply (parseCommands_valid b c).
Qed.

Lemma parseInput_Ok (input : string) (parsed : ParsedInput) :
  parseInput input = Ok parsed ->
  exists line0 rest,
    parsePlateau line0 = Ok (plateau parsed)
    /\ parseRovers (plateau parsed) rest = Ok (rovers parsed).
Proof.
  unfold parseInput.
  destruct (_ <? 1)%nat; [discriminate|].
  destruct (_ <? 3)%nat; [discriminate|].
  destruct (negb _); [discriminate|].
  destruct (inputLines input) as [| line0 rest]; [discriminate|].
  destruct (parsePlateau line0) as [p |] eqn:Ep; simpl; [|discriminate].
  destruct (parseRovers p rest) as [rs |] eqn:Er; simpl; [|discriminate].
  intros [= <-]; now exists line0, rest.
Qed.

Lemma parseInput_wellFormed (input : string) (parsed : ParsedInput) :
  parseInput input = Ok parsed -> More.wellFormed parsed.
Proof.
  intros H; destruct (parseInput_Ok input parsed H) as (l0 & rest & Hp & Hr).
  destruct (parsePlateau_nonneg _ _ Hp) as [HX HY].
  repeat split; try assumption.
  eapply parseRovers_roverOk; eassumption.
Qed.

(** X4. What [parseInput] returns is fit for the engine: the bounds of the
    plateau are not negative, every rover starts within the plateau, and
    every command string is not empty and holds only [L], [R] and [M]. *)
Theorem parseInput_returns_well_formed
  (input : string) (parsed : ParsedInput) :
  parseInput input = Ok parsed ->
  0 <= maxX (plateau parsed)
  /\ 0 <= maxY (plateau parsed)
  /\ Forall (fun rover =>
               Spec.contains (plateau parsed) (position (start rover))
               /\ commands rover <> EmptyString
               /\ allCommandLetters (commands rover) = true)
            (rovers parsed).
Proof.
  intros H; destruct (parseInput_wellFormed input parsed H) as (HX & HY & F).
  repeat split; try assumption.
  eapply Forall_impl; [|exact F].
  intros r [B V]; unfold VALID_COMMANDS in V.
  apply andb_true_iff in V; destruct V as [V1 V2].
  repeat split; try assumption; try apply B.
  intros E; rewrite E in V1; discriminate.
Qed.

(** The engine, started within the plateau, ends within it. *)
Lemma executeCommands_contains
  (p : Plateau) (s : RoverState) (cmds : string) :
  Spec.contains p (position s) ->
  exists final,
    Engine.executeCommands s cmds p = Ok final
    /\ Spec.contains p (position final).
Proof.
  intros B.
  destruct (executeCommands_total p s cmds) as [final E].
  exists final; split; [exact E|].
  rewrite executeCommands_loop in E.
  destruct (Engine.loop p cmds (Loop.varsOf s)) as [v |] eqn:L; simpl in E;
    [|discriminate].
  assert (B' : Loop.boundsOk p v).
  { apply (loop_bounds p cmds (Loop.varsOf s)); [|exact L].
    destruct s as [[px py] d]; exact B. }
  unfold Loop.stateOf in E.
  destruct (Engine.index Engine.DIRECTIONS (Engine.var_dirNum v));
    [|discriminate].
  injection E as <-; exact B'.
Qed.

Lemma mapResult_runs (p : Plateau) (rs : list RoverInput) :
  Forall (More.roverOk p) rs ->
  exists finals,
    Page.mapResult
      (fun rover => Engine.executeCommands (start rover) (commands rover) p)
      rs = Ok finals
    /\ Forall2 (fun rover final =>
                  Engine.executeCommands (start rover) (commands rover) p
                  = Ok final)
               rs finals
    /\ Forall (fun final => Spec.contains p (position final)) finals.
Proof.
  induction 1 as [| r rs [B _] _ (finals & E & L & F)]; simpl.
  - exists []; repeat split; constructor.
  - destruct (executeCommands_contains p (start r) (commands r) B)
      as (final & Ef & Bf).
    rewrite Ef; simpl; rewrite E; simpl.
    exists (final :: finals); repeat split; now constructor.
Qed.

(** X5. The simulation of the page fails exactly when [parseInput] fails,
    and with its exception: the engine and the formatter add none. When the
    input parses, the output is [formatOutput] of the final states: for each
    rover, in the order of the input, the state [executeCommands] returns
    from its start and its commands on the parsed plateau, one state per
    rover, every one within the plateau. *)
Theorem runSimulation_fails_in_the_parser_only (input : string) :
  (forall e, Page.runSimulation input = Throw e <-> parseInput input = Throw e)
  /\ (forall parsed,
        parseInput input = Ok parsed ->
        exists finals,
          Page.runSimulation input = Ok (Format.formatOutput finals)
          /\ Forall2 (fun rover final =>
                        Engine.executeCommands (start rover) (commands rover)
                                               (plateau parsed)
                        = Ok final)
                     (rovers parsed) finals
          /\ List.length finals = List.length (rovers parsed)
          /\ Forall (fun final =>
                       Spec.contains (plateau parsed) (position final))
                    finals).
Proof.
  unfold Page.runSimulation.
  destruct (parseInput input) as [parsed | e0] eqn:E; simpl.
  - destruct (parseInput_wellFormed input parsed E) as (_ & _ & F).
    destruct (mapResult_runs (plateau parsed) (rovers parsed) F)
      as (finals & Em & L & B).
    rewrite Em; simpl.
    split; [intros e; split; discriminate|].
    intros parsed' [= <-]; exists finals.
    repeat split; try assumption.
    symmetry; eapply Forall2_length; exact L.
  - split; [intros e; split; intros [= ->]; reflexivity | discriminate].
Qed.

End ParserMore.

Lemma parseInput_returns_well_formed_witness :
  0 <= 5 /\ 0 <= 5
  /\ Forall (fun rover =>
               Spec.contains (mkPlateau 5 5) (position (start rover))
               /\ commands rover <> EmptyString
               /\ Parser.allCommandLetters (commands rover) = true)
            [mkRoverInput (mkRoverState (mkPosition 1 2) North) "LMLMLMLMM";
             mkRoverInput (mkRoverState (mkPosition 3 3) East) "MMRMMRMRRM"].
Proof.
  apply (parseInput_returns_well_formed
           Scenario.scenarioA
           (mkParsedInput
              (mkPlateau 5 5)
              [mkRoverInput (mkRoverState (mkPosition 1 2) North) "LMLMLMLMM";
               mkRoverInput (mkRoverState (mkPosition 3 3) East)
                            "MMRMMRMRRM"])).
  vm_compute; reflexivity.
Defined.

(** * Letters in either case *)

Section Letters.

Import JS Parser.

Lemma upperUnit_letters (c : ascii) :
  allCommandLetters (upperUnit c) = More.isCommandLetterAnyCase c.
Proof. destruct c as [[] [] [] [] [] [] [] []]; reflexivity. Qed.

Lemma upperUnit_cons (c : ascii) : exists u t, upperUnit c = String u t.
Proof.
  unfold upperUnit; repeat match goal with
                           | |- context [if ?b then _ else _] => destruct b
                           end; eauto.
Qed.

Lemma upperUnit_of_letter (c : ascii) :
  More.isCommandLetterAnyCase c = true ->
  String.length (upperUnit c) = 1%nat.
Proof.
  destruct c as [[] [] [] [] [] [] [] []]; intros H; try discriminate H;
    reflexivity.
Qed.

Lemma upperUnit_of_upper (c : ascii) :
  isCommandLetter c = true -> upperUnit c = String c EmptyString.
Proof.
  destruct c as [[] [] [] [] [] [] [] []]; intros H; try discriminate H;
    reflexivity.
Qed.

Lemma allCommandLetters_app (a b : string) :
  allCommandLetters (a ++ b) = allCommandLetters a && allCommandLetters b.
Proof.
  induction a as [| c r IH]; simpl; [reflexivity|].
  now rewrite IH, andb_assoc.
Qed.

Lemma length_append (a b : string) :
  String.length (a ++ b) = (String.length a + String.length b)%nat.
Proof. induction a as [| c r IH]; simpl; [reflexivity | now rewrite IH]. Qed.

Lemma toUpperCase_letters (s : string) :
  allCommandLetters (toUpperCase s) = More.allCommandLettersAnyCase s.
Proof.
  induction s as [| c r IH]; simpl; [reflexivity|].
  now rewrite allCommandLetters_app, upperUnit_letters, IH.
Qed.

Lemma toUpperCase_isEmpty (s : string) :
  isEmpty (toUpperCase s) = isEmpty s.
Proof.
  destruct s as [| c r]; simpl; [reflexivity|].
  destruct (upperUnit_cons c) as (u & t & ->); reflexivity.
Qed.

Lemma toUpperCase_length (s : string) :
  More.allCommandLettersAnyCase s = true ->
  String.length (toUpperCase s) = String.length s.
Proof.
  induction s as [| c r IH]; simpl; [reflexivity|].
  rewrite andb_true_iff; intros [Hc Hr].
  now rewrite length_append, (upperUnit_of_letter c Hc), (IH Hr).
Qed.

Lemma toUpperCase_of_upper (s : string) :
  allCommandLetters s = true -> toUpperCase s = s.
Proof.
  induction s as [| c r IH]; simpl; [reflexivity|].
  rewrite andb_true_iff; intros [Hc Hr].
  now rewrite (upperUnit_of_upper c Hc), (IH Hr).
Qed.

(** X7. [parseCommands] accepts exactly the lines that are not empty and
    hold only the letters l, r, m in either case; it returns the line in
    upper case, as long as the line, and what it returns it accepts again
    unchanged. Any other line is the invalid-commands error, carrying the
    line as it was given. *)
Theorem parseCommands_accepts_letters_in_either_case (line : string) :
  (forall c,
      parseCommands line = Ok c
      <-> line <> EmptyString
          /\ More.allCommandLettersAnyCase line = true
          /\ c = toUpperCase line)
  /\ (forall c,
        parseCommands line = Ok c ->
        String.length c = String.length line /\ parseCommands c = Ok c)
  /\ (forall e, parseCommands line = Throw e -> e = InvalidCommands line).
Proof.
  assert (V : VALID_COMMANDS (toUpperCase line)
              = negb (isEmpty line) && More.allCommandLettersAnyCase line).
  { unfold VALID_COMMANDS; now rewrite toUpperCase_isEmpty,
      toUpperCase_letters. }
  assert (A : forall c,
             parseCommands line = Ok c
             <-> line <> EmptyString
                 /\ More.allCommandLettersAnyCase line = true
                 /\ c = toUpperCase line).
  { intros c; unfold parseCommands; rewrite V.
    destruct line as [| c0 r]; simpl.
    - split; [discriminate | intros [H _]; now elim H].
    - destruct (More.isCommandLetterAnyCase c0
                && More.allCommandLettersAnyCase r); simpl.
      + split; [intros [= <-]; repeat split; discriminate|].
        intros (_ & _ & ->); reflexivity.
      + split; [discriminate | intros (_ & H & _); discriminate]. }
  split; [exact A|].
  split; [|intros e; apply parseCommands_throws].
  intros c H; apply A in H as H'; destruct H' as (_ & L & ->).
  split; [now apply toUpperCase_length|].
  apply (parseCommands_valid line) in H; destruct H as [Hv _].
  unfold parseCommands.
  assert (U : toUpperCase (toUpperCase line) = toUpperCase line).
  { apply toUpperCase_of_upper; unfold VALID_COMMANDS in Hv.
    now apply andb_true_iff in Hv. }
  now rewrite U, Hv.
Qed.

Lemma upper_of_one (c : ascii) :
  VALID_DIRECTIONS (upperUnit c)
  = More.directionOfText (String c EmptyString).
Proof. destruct c as [[] [] [] [] [] [] [] []]; reflexivity. Qed.

(** The upper case of two code units or more has two or more. *)
Lemma toUpperCase_long (c0 c1 : ascii) (r : string) :
  exists u0 u1 t,
    toUpperCase (String c0 (String c1 r)) = String u0 (String u1 t).
Proof.
  simpl.
  destruct (upperUnit_cons c0) as (u0 & t0 & ->).
  destruct (upperUnit_cons c1) as (u1 & t1 & ->).
  destruct t0 as [| a t0]; simpl; eauto.
Qed.

Lemma eqb_long (u0 u1 a : ascii) (t : string) :
  String.eqb (String u0 (String u1 t)) (String a EmptyString) = false.
Proof. apply String.eqb_neq; intros H; discriminate H. Qed.

Lemma VALID_DIRECTIONS_long (u0 u1 : ascii) (t : string) :
  VALID_DIRECTIONS (String u0 (String u1 t)) = None.
Proof. unfold VALID_DIRECTIONS; now rewrite !eqb_long. Qed.

Lemma directionOfText_long (u0 u1 : ascii) (t : string) :
  More.directionOfText (String u0 (String u1 t)) = None.
Proof. unfold More.directionOfText; now rewrite !eqb_long. Qed.

Lemma VALID_DIRECTIONS_toUpperCase (text : string) :
  VALID_DIRECTIONS (toUpperCase text) = More.directionOfText text.
Proof.
  destruct text as [| c0 [| c1 r]].
  - reflexivity.
  - cbn [toUpperCase]; rewrite <- upper_of_one; f_equal.
    induction (upperUnit c0) as [| a t IH]; simpl; [reflexivity|].
    now rewrite IH.
  - destruct (toUpperCase_long c0 c1 r) as (u0 & u1 & t & ->).
    now rewrite VALID_DIRECTIONS_long, directionOfText_long.
Qed.

(** X8. On a position line of three fields whose first two parse to [x]
    and [y], the direction field is accepted exactly when it is one of the
    eight texts N, E, S, W, n, e, s, w. Each of the eight names its
    direction, in either case: the line parses to the state of [x], [y] and
    that direction when the position is within the plateau, and is the
    outside-plateau error otherwise. Any other field is the
    invalid-direction error, raised before the position is tested against
    the plateau, also for a position outside it; the error carries the field
    in upper case, which is [toUpperCase] of it when the field holds neither
    U+00B5 nor U+00FF. *)
Theorem parsePosition_direction
  (line part0 part1 part2 : string) (plateau : Plateau) (x y : Z) :
  splitWhiteSpace line = [part0; part1; part2] ->
  parseInteger part0 "x coordinate" = Ok x ->
  parseInteger part1 "y coordinate" = Ok y ->
  (forall d,
     More.directionOfText part2 = Some d ->
     parsePosition line plateau
     = if (x <? 0) || (x >? maxX plateau) || (y <? 0) || (y >? maxY plateau)
       then Throw (OutsidePlateau x y (maxX plateau) (maxY plateau))
       else Ok (mkRoverState (mkPosition x y) d))
  /\ (forall d,
        More.directionOfText part2 = Some d ->
        Spec.contains plateau (mkPosition x y) ->
        parsePosition line plateau = Ok (mkRoverState (mkPosition x y) d))
  /\ (More.directionOfText part2 = None ->
      exists direction,
        parsePosition line plateau = Throw (InvalidDirection direction)
        /\ (More.upperBelow256 part2 = true ->
            direction = toUpperCase part2))
  /\ (forall s,
        parsePosition line plateau = Ok s ->
        More.directionOfText part2 = Some (direction s)
        /\ position s = mkPosition x y).
Proof.
  intros Hs Hx Hy; unfold parsePosition; rewrite Hs, Hx; simpl.
  rewrite Hy; simpl; rewrite VALID_DIRECTIONS_toUpperCase.
  destruct (More.directionOfText part2) as [d |].
  - split; [intros d' [= <-]; reflexivity|].
    split.
    { intros d' [= <-] [[Hx0 Hx1] [Hy0 Hy1]]; simpl in *.
      destruct (Z.ltb_spec x 0); [lia|].
      destruct (Z.ltb_spec y 0); [lia|].
      rewrite Z.gtb_ltb, Z.gtb_ltb.
      destruct (Z.ltb_spec (maxX plateau) x); [lia|].
      destruct (Z.ltb_spec (maxY plateau) y); [lia|].
      reflexivity. }
    split; [discriminate|].
    destruct (_ || _); [discriminate|].
    intros s [= <-]; split; reflexivity.
  - split; [discriminate|].
    split; [discriminate|].
    split; [|intros s; discriminate].
    intros _; exists (toUpperCase part2); split; reflexivity.
Qed.

End Letters.

Lemma parsePosition_direction_witness :
  Parser.parsePosition "2 3 w" (mkPlateau 5 5)
  = Ok (mkRoverState (mkPosition 2 3) West)
  /\ Parser.parsePosition "9 9 s" (mkPlateau 5 5)
     = Throw (OutsidePlateau 9 9 5 5)
  /\ exists direction,
       Parser.parsePosition "9 9 x" (mkPlateau 5 5)
       = Throw (InvalidDirection direction)
       /\ (More.upperBelow256 "x" = true -> direction = "X").
Proof.
  split; [|split].
  - apply (proj1 (parsePosition_direction
                    "2 3 w" "2" "3" "w" (mkPlateau 5 5) 2 3
                    eq_refl eq_refl eq_refl) West).
    reflexivity.
  - apply (proj1 (parsePosition_direction
                    "9 9 s" "9" "9" "s" (mkPlateau 5 5) 9 9
                    eq_refl eq_refl eq_refl) South).
    reflexivity.
  - apply (proj1 (proj2 (proj2 (parsePosition_direction
                                  "9 9 x" "9" "9" "x" (mkPlateau 5 5) 9 9
                                  eq_refl eq_refl eq_refl)))).
    reflexivity.
Defined.

(** * White space around and between the lines *)

Section Padding.

Import JS Parser.

Lemma splitLines_one (a : string) :
  More.lineFeedFree a = true -> splitLines a = [a].
Proof.
  induction a as [| c r IH]; simpl; [reflexivity|].
  rewrite andb_true_iff, negb_true_iff; intros [Hc Hr].
  now rewrite Hc, (IH Hr).
Qed.

Lemma splitLines_app (a b : string) :
  More.lineFeedFree a = true ->
  splitLines (a ++ String LF b) = a :: splitLines b.
Proof.
  induction a as [| c r IH]; simpl.
  - intros _; reflexivity.
  - rewrite andb_true_iff, negb_true_iff; intros [Hc Hr].
    now rewrite Hc, (IH Hr).
Qed.

(** A text of lines without line feeds splits into these lines again. *)
Lemma splitLines_text (lines : list string) :
  lines <> [] ->
  Forall (fun l => More.lineFeedFree l = true) lines ->
  splitLines (Scenario.text lines) = lines.
Proof.
  intros N F; induction F as [| l ls Hl F IH]; [now elim N|].
  destruct ls as [| l' ls'].
  - simpl; now apply splitLines_one.
  - change (Scenario.text (l :: l' :: ls'))
      with (l ++ String LF (Scenario.text (l' :: ls')))%string.
    rewrite (splitLines_app _ _ Hl), IH; [reflexivity | discriminate].
Qed.

Lemma trimStart_pad (pad s : string) :
  Spec.blank pad = true -> trimStart (pad ++ s) = trimStart s.
Proof.
  induction pad as [| c r IH]; simpl; [reflexivity|].
  rewrite andb_true_iff; intros [Hc Hr]; now rewrite Hc, (IH Hr).
Qed.

Lemma trimEnd_pad (s pad : string) :
  Spec.blank pad = true -> trimEnd (s ++ pad) = trimEnd s.
Proof.
  intros B; induction s as [| c r IH].
  - simpl; apply isEmpty_true; now rewrite isEmpty_trimEnd.
  - change (String c r ++ pad)%string with (String c (r ++ pad)).
    now rewrite !trimEnd_cons, IH.
Qed.

Lemma trim_pad (pad1 line pad2 : string) :
  Spec.blank pad1 = true -> Spec.blank pad2 = true ->
  trim (pad1 ++ line ++ pad2) = trim line.
Proof.
  intros B1 B2; unfold trim.
  rewrite (trimStart_pad _ _ B1), <- !trimStart_trimEnd.
  now rewrite (trimEnd_pad _ _ B2).
Qed.

Lemma lineFeedFree_app (a b : string) :
  More.lineFeedFree (a ++ b) = More.lineFeedFree a && More.lineFeedFree b.
Proof.
  induction a as [| c r IH]; simpl; [reflexivity|].
  now rewrite IH, andb_assoc.
Qed.

Lemma usableLines_text (lines : list string) :
  lines <> [] ->
  Forall (fun l => More.lineFeedFree l = true) lines ->
  Spec.usableLines (Scenario.text lines) = Spec.usable lines.
Proof.
  intros N F; unfold Spec.usableLines; now rewrite splitLines_text.
Qed.

(** X6. Blank lines and the white space around a line are ignored, wherever
    they are: an input with a line of white space added between its lines,
    or with white space added before and after one of its lines, parses to
    the same result, an exception or a [ParsedInput]. *)
Theorem parseInput_ignores_padding
  (before after : list string) (line blankLine pad1 pad2 : string) :
  Forall (fun l => More.lineFeedFree l = true) before ->
  Forall (fun l => More.lineFeedFree l = true) after ->
  More.lineFeedFree line = true ->
  More.lineFeedFree blankLine = true -> Spec.blank blankLine = true ->
  More.lineFeedFree pad1 = true -> Spec.blank pad1 = true ->
  More.lineFeedFree pad2 = true -> Spec.blank pad2 = true ->
  parseInput (Scenario.text (before ++ line :: blankLine :: after))
  = parseInput (Scenario.text (before ++ line :: after))
  /\ parseInput (Scenario.text (before ++ blankLine :: line :: after))
     = parseInput (Scenario.text (before ++ line :: after))
  /\ parseInput (Scenario.text (before ++ (pad1 ++ line ++ pad2) :: after))
     = parseInput (Scenario.text (before ++ line :: after)).
Proof.
  intros Fb Fa Hl Hb Bb H1 B1 H2 B2.
  assert (Hp : More.lineFeedFree (pad1 ++ line ++ pad2) = true).
  { now rewrite !lineFeedFree_app, H1, Hl, H2. }
  assert (T : forall mid,
             Forall (fun l => More.lineFeedFree l = true) mid ->
             mid <> [] ->
             Spec.usableLines (Scenario.text (before ++ mid ++ after))
             = (Spec.usable before ++ Spec.usable mid
                ++ Spec.usable after)%list).
  { intros mid Fm Nm; rewrite usableLines_text.
    - now rewrite !usable_app.
    - destruct before; [destruct mid; [now elim Nm|] |]; discriminate.
    - apply Forall_app; split; [exact Fb|].
      apply Forall_app; split; assumption. }
  rewrite !parseInput_usableLines.
  change (before ++ line :: blankLine :: after)%list
    with (before ++ [line; blankLine] ++ after)%list.
  change (before ++ blankLine :: line :: after)%list
    with (before ++ [blankLine; line] ++ after)%list.
  change (before ++ (pad1 ++ line ++ pad2)%string :: after)%list
    with (before ++ [pad1 ++ line ++ pad2]%string ++ after)%list.
  change (before ++ line :: after)%list
    with (before ++ [line] ++ after)%list.
  rewrite (T [line; blankLine]), (T [blankLine; line]),
    (T [pad1 ++ line ++ pad2]%string), (T [line])
    by (first [discriminate | repeat constructor; assumption]).
  repeat split.
  - now rewrite !usable_cons, (isEmpty_trim blankLine), Bb.
  - now rewrite !usable_cons, (isEmpty_trim blankLine), Bb.
  - now rewrite !usable_cons, (trim_pad _ _ _ B1 B2).
Qed.

End Padding.

Lemma parseInput_ignores_padding_witness :
  Parser.parseInput
    (Scenario.text ["5 5"; "1 2 N"; "  "; "LMLM"])
  = Parser.parseInput (Scenario.text ["5 5"; "1 2 N"; "LMLM"])
  /\ Parser.parseInput
       (Scenario.text ["5 5"; "  "; "1 2 N"; "LMLM"])
     = Parser.parseInput (Scenario.text ["5 5"; "1 2 N"; "LMLM"])
  /\ Parser.parseInput
       (Scenario.text ["5 5"; "  1 2 N "; "LMLM"])
     = Parser.parseInput (Scenario.text ["5 5"; "1 2 N"; "LMLM"]).
Proof.
  apply (parseInput_ignores_padding
           ["5 5"] ["LMLM"] "1 2 N" "  " "  " " ");
    repeat constructor.
Defined.

(** * The shape of the output *)

Section OutputShape.

Import JS Format.

Lemma spaceFree_app (a b : string) :
  More.spaceFree (a ++ b) = More.spaceFree a && More.spaceFree b.
Proof.
  induction a as [| c r IH]; simpl; [reflexivity|].
  now rewrite IH, andb_assoc.
Qed.

Lemma spaceFree_lineFeedFree (s : string) :
  More.spaceFree s = true -> More.lineFeedFree s = true.
Proof.
  induction s as [| c r IH]; simpl; [reflexivity|].
  rewrite !andb_true_iff, !negb_true_iff; intros [Hc Hr].
  split; [|now apply IH].
  destruct (Ascii.eqb c LF) eqn:E; [|reflexivity].
  apply LF_isWhiteSpace in E; congruence.
Qed.

Lemma spaceFree_uint (d : Decimal.uint) :
  More.spaceFree (NilEmpty.string_of_uint d) = true.
Proof. induction d; simpl; assumption || reflexivity. Qed.

Lemma spaceFree_digits (n : Z) : More.spaceFree (digits n) = true.
Proof.
  unfold digits, NilZero.string_of_uint.
  destruct (N.to_uint (Z.to_N n)) as [| u | u | u | u | u | u | u | u | u | u];
    simpl; try reflexivity; apply spaceFree_uint.
Qed.

Lemma digits_nonempty (n : Z) : isEmpty (digits n) = false.
Proof.
  unfold digits, NilZero.string_of_uint.
  destruct (N.to_uint (Z.to_N n)); reflexivity.
Qed.

Lemma spaceFree_zeros (k : nat) : More.spaceFree (zeros k) = true.
Proof. induction k; simpl; assumption || reflexivity. Qed.

Lemma isEmpty_app (a b : string) :
  isEmpty (a ++ b) = isEmpty a && isEmpty b.
Proof. destruct a; reflexivity. Qed.

Lemma positiveToString_plain (x : Z) :
  More.spaceFree (positiveToString x) = true
  /\ isEmpty (positiveToString x) = false.
Proof.
  unfold positiveToString.
  destruct (shortestDigits 17 x 1) as [[[n k] s] |];
    [| split; [apply spaceFree_digits | apply digits_nonempty]].
  destruct (n <=? 21).
  - rewrite spaceFree_app, isEmpty_app, spaceFree_digits, spaceFree_zeros,
      digits_nonempty; now split.
  - pose proof (spaceFree_digits s) as F.
    pose proof (digits_nonempty s) as N.
    destruct (digits s) as [| d more]; [discriminate N|].
    simpl in F; apply andb_true_iff in F; destruct F as [Fd Fm].
    destruct more as [| d' more'].
    + simpl; rewrite Fd; simpl; split; [apply spaceFree_digits | reflexivity].
    + split; [|reflexivity].
      simpl in Fm |- *; apply andb_true_iff in Fm; destruct Fm as [Fd' Fm'].
      rewrite Fd, Fd', spaceFree_app, Fm'; simpl; apply spaceFree_digits.
Qed.

(** A number is written without white space, and with a character at
    least. *)
Lemma numberToString_plain (n : Z) :
  More.spaceFree (numberToString n) = true
  /\ isEmpty (numberToString n) = false.
Proof.
  unfold numberToString.
  destruct (n =? 0); [now split|].
  destruct (n <? 0); [|apply positiveToString_plain].
  destruct (positiveToString_plain (- n)) as [F _]; simpl; now split.
Qed.

Lemma splitGaps_last (a : string) :
  More.spaceFree a = true -> splitGaps false a = [a].
Proof.
  induction a as [| c r IH]; simpl; [reflexivity|].
  rewrite andb_true_iff, negb_true_iff; intros [Hc Hr].
  now rewrite Hc, (IH Hr).
Qed.

Lemma splitGaps_word (a rest : string) :
  More.spaceFree a = true ->
  splitGaps false (a ++ String " " rest) = a :: splitGaps true rest.
Proof.
  induction a as [| c r IH]; simpl; [reflexivity|].
  rewrite andb_true_iff, negb_true_iff; intros [Hc Hr].
  now rewrite Hc, (IH Hr).
Qed.

Lemma splitGaps_after_gap (a : string) :
  More.spaceFree a = true -> isEmpty a = false ->
  forall rest, splitGaps true (a ++ rest) = splitGaps false (a ++ rest).
Proof.
  destruct a as [| c r]; [discriminate|]; simpl.
  rewrite andb_true_iff, negb_true_iff; intros [Hc _] _ rest.
  now rewrite Hc.
Qed.

Lemma append_empty_r (s : string) : (s ++ EmptyString)%string = s.
Proof. induction s as [| c r IH]; simpl; [reflexivity | now rewrite IH]. Qed.

Lemma directionLetter_plain (d : Direction) :
  More.spaceFree (directionLetter d) = true
  /\ isEmpty (directionLetter d) = false.
Proof. destruct d; split; reflexivity. Qed.

(** The three fields of a formatted state. *)
Lemma splitWhiteSpace_formatState (s : RoverState) :
  splitWhiteSpace (formatState s)
  = [numberToString (x (position s)); numberToString (y (position s));
     directionLetter (direction s)].
Proof.
  unfold splitWhiteSpace, formatState.
  destruct (numberToString_plain (x (position s))) as [Fx _].
  destruct (numberToString_plain (y (position s))) as [Fy Ny].
  destruct (directionLetter_plain (direction s)) as [Fd Nd].
  change (numberToString (x (position s)) ++ " "
          ++ numberToString (y (position s)) ++ " "
          ++ directionLetter (direction s))%string
    with (numberToString (x (position s))
          ++ String " " (numberToString (y (position s))
                         ++ String " " (directionLetter (direction s))))%string.
  rewrite (splitGaps_word _ _ Fx), (splitGaps_after_gap _ Fy Ny).
  rewrite (splitGaps_word _ _ Fy).
  rewrite <- (append_empty_r (directionLetter (direction s))) at 1.
  rewrite (splitGaps_after_gap _ Fd Nd), append_empty_r.
  now rewrite (splitGaps_last _ Fd).
Qed.

Lemma formatState_lineFeedFree (s : RoverState) :
  More.lineFeedFree (formatState s) = true.
Proof.
  unfold formatState.
  destruct (numberToString_plain (x (position s))) as [Fx _].
  destruct (numberToString_plain (y (position s))) as [Fy _].
  destruct (directionLetter_plain (direction s)) as [Fd _].
  rewrite !lineFeedFree_app.
  now rewrite (spaceFree_lineFeedFree _ Fx), (spaceFree_lineFeedFree _ Fy),
    (spaceFree_lineFeedFree _ Fd).
Qed.

(** X9. The output has one line for each state, in order, and no line feed
    after the last: split at the line feeds it is the list of the formatted
    states, and for no state it is the empty string. Each line has the
    three fields of its state, the two coordinates and the letter of the
    direction, one space apart. *)
Theorem formatOutput_lines (states : list RoverState) :
  formatOutput [] = EmptyString
  /\ (states <> [] ->
      splitLines (formatOutput states) = map formatState states)
  /\ (forall s,
        splitWhiteSpace (formatState s)
        = [numberToString (x (position s)); numberToString (y (position s));
           directionLetter (direction s)]).
Proof.
  split; [reflexivity|].
  split; [|apply splitWhiteSpace_formatState].
  intros N; apply splitLines_text.
  - destruct states; [now elim N | discriminate].
  - apply Forall_forall; intros l H; apply in_map_iff in H.
    destruct H as (s & <- & _); apply formatState_lineFeedFree.
Qed.

End OutputShape.

Lemma formatOutput_lines_witness :
  JS.splitLines
    (Format.formatOutput [mkRoverState (mkPosition 1 3) North;
                          mkRoverState (mkPosition 5 1) East])
  = ["1 3 N"; "5 1 E"].
Proof.
  apply (proj1 (proj2 (formatOutput_lines
                         [mkRoverState (mkPosition 1 3) North;
                          mkRoverState (mkPosition 5 1) East]))).
  discriminate.
Defined.

(** * The lines and the fields the parser reads *)

Section Fields.

Import JS Parser.

Lemma trimStart_idem (s : string) : trimStart (trimStart s) = trimStart s.
Proof.
  induction s as [| c r IH]; simpl; [reflexivity|].
  destruct (isWhiteSpace c) eqn:W; [exact IH|].
  simpl; now rewrite W.
Qed.

Lemma trimEnd_idem (s : string) : trimEnd (trimEnd s) = trimEnd s.
Proof.
  induction s as [| c r IH]; [reflexivity|].
  rewrite trimEnd_cons.
  destruct (isEmpty (trimEnd r) && isWhiteSpace c) eqn:E; [reflexivity|].
  now rewrite trimEnd_cons, IH, E.
Qed.

Lemma trim_trimmed (s : string) :
  trimStart (trim s) = trim s /\ trimEnd (trim s) = trim s.
Proof.
  unfold trim; split; [|apply trimEnd_idem].
  now rewrite trimStart_trimEnd, trimStart_idem.
Qed.

Lemma trimStart_head (s : string) :
  match trimStart s with
  | EmptyString => True
  | String c _ => isWhiteSpace c = false
  end.
Proof.
  induction s as [| c r IH]; simpl; [exact I|].
  destruct (isWhiteSpace c) eqn:W; [exact IH | exact W].
Qed.

Lemma trimEnd_tail (c : ascii) (r : string) :
  trimEnd (String c r) = String c r -> trimEnd r = r.
Proof.
  rewrite trimEnd_cons; destruct (_ && _); [discriminate|].
  now intros [= H].
Qed.

Lemma consFirst_field (c : ascii) (pieces : list string) :
  isWhiteSpace c = false ->
  Forall (fun f => More.spaceFree f = true) pieces ->
  Forall (fun f => More.spaceFree f = true) (consFirst c pieces).
Proof.
  intros W [| f fs Hf Hfs]; simpl; repeat constructor; simpl;
    try assumption; now rewrite W.
Qed.

Lemma splitGaps_spaceFree (s : string) :
  forall inGap,
    Forall (fun f => More.spaceFree f = true) (splitGaps inGap s).
Proof.
  induction s as [| c r IH]; intros inGap; simpl; [repeat constructor|].
  destruct (isWhiteSpace c) eqn:W.
  - destruct inGap; [apply IH | constructor; [reflexivity | apply IH]].
  - apply consFirst_field; [exact W | apply IH].
Qed.

Lemma consFirst_nonempty (c : ascii) (pieces : list string) :
  Forall (fun f => isEmpty f = false) (List.tl pieces) ->
  Forall (fun f => isEmpty f = false) (consFirst c pieces).
Proof.
  destruct pieces as [| f fs]; simpl; intros H; now repeat constructor.
Qed.

(** With no white space at its end, a string has an empty piece at its
    start only, and only when it starts with white space. *)
Lemma splitGaps_nonempty (s : string) :
  trimEnd s = s -> s <> EmptyString ->
  Forall (fun f => isEmpty f = false) (splitGaps true s)
  /\ Forall (fun f => isEmpty f = false) (List.tl (splitGaps false s)).
Proof.
  induction s as [| c r IH]; [intros _ N; now elim N|].
  intros T _; pose proof (trimEnd_tail c r T) as Tr.
  cbn [splitGaps]; destruct (isWhiteSpace c) eqn:W.
  - assert (Nr : r <> EmptyString).
    { intros ->; rewrite trimEnd_cons, W in T; discriminate. }
    destruct (IH Tr Nr) as [IH1 _]; split; [exact IH1 | exact IH1].
  - destruct r as [| c' r'].
    + simpl; split; repeat constructor.
    + assert (Nr : String c' r' <> EmptyString) by discriminate.
      destruct (IH Tr Nr) as [_ IH2].
      split; [now apply consFirst_nonempty|].
      destruct (splitGaps false (String c' r')); simpl in *;
        [constructor | exact IH2].
Qed.

(** X10. Every line [parseInput] reads a plateau, a position or commands
    from has a character at least and no white space at either end, and
    each of the fields it splits into has a character at least and no white
    space: no field passed to [parseInteger] is empty. *)
Theorem inputLines_fields (input line : string) :
  In line (inputLines input) ->
  line <> EmptyString
  /\ trim line = line
  /\ Forall (fun f => More.isField f = true) (splitWhiteSpace line).
Proof.
  unfold inputLines; intros H; apply filter_In in H; destruct H as [H L].
  apply in_map_iff in H; destruct H as (l & <- & _).
  destruct (trim_trimmed l) as [Ts Te].
  assert (N : trim l <> EmptyString).
  { intros E; rewrite E in L; discriminate. }
  split; [exact N|].
  split; [unfold trim at 1; now rewrite Ts, Te|].
  pose proof (trimStart_head (trim l)) as Hd; rewrite Ts in Hd.
  unfold splitWhiteSpace, More.isField.
  pose proof (splitGaps_spaceFree (trim l) false) as S.
  assert (E : Forall (fun f => isEmpty f = false) (splitGaps false (trim l))).
  { destruct (trim l) as [| c r]; [now elim N|].
    cbn [splitGaps]; rewrite Hd; apply consFirst_nonempty.
    destruct r as [| c' r']; [constructor|].
    apply splitGaps_nonempty; [|discriminate].
    now apply (trimEnd_tail c). }
  revert S E; generalize (splitGaps false (trim l)); intros pieces.
  induction 1 as [| f fs Hf _ IH]; intros E; [constructor|].
  inversion E as [| ? ? Ef Efs]; subst.
  constructor; [now rewrite Ef, Hf | now apply IH].
Qed.

End Fields.

Lemma inputLines_fields_witness :
  Forall (fun f => More.isField f = true) (JS.splitWhiteSpace "1  2 N").
Proof.
  apply (inputLines_fields
           (Scenario.text ["5 5"; "  1  2 N  "; "LM"]) "1  2 N").
  vm_compute; right; left; reflexivity.
Defined.

(** * Numerals *)

Section Numerals.

Import JS Parser.

(** An integer up to [2^53], of either sign, is a double, and an integer
    for [Number.isInteger]. *)
Lemma roundToDouble_exact (negative : bool) (p : Z) :
  0 <= p <= 2 ^ 53 ->
  Number_isInteger (roundToDouble negative p 1) = true
  /\ isNaN (roundToDouble negative p 1) = false
  /\ integerValue (roundToDouble negative p 1)
     = (if negative then - p else p).
Proof.
  intros Hz; unfold roundToDouble.
  destruct (Z.eqb_spec p 0) as [E0 | N0].
  { subst p; destruct negative; repeat split. }
  assert (Hp : 0 < p) by lia.
  change (Z.log2 1) with 0; rewrite Z.sub_0_r.
  pose proof (Z.log2_nonneg p) as HL0.
  destruct (Z.log2_spec p Hp) as [HL1 HL2].
  set (L := Z.log2 p) in *.
  assert (HL53 : L <= 53).
  { destruct (Z.le_gt_cases L 53) as [H | H]; [exact H|].
    assert (2 ^ 54 <= 2 ^ L) by (apply Z.pow_le_mono_r; lia).
    assert (2 ^ 53 < 2 ^ 54) by (apply Z.pow_lt_mono_r; lia). lia. }
  rewrite (Z.max_l 0 (- L)), (Z.max_r 0 L) by lia.
  rewrite Z.pow_0_r, Z.mul_1_r, Z.mul_1_l.
  destruct (Z.ltb_spec p (2 ^ L)) as [H | _]; [lia|].
  rewrite (Z.max_l (L - 52) (-1074)) by lia.
  destruct (Z.eq_dec L 53) as [E53 | N53].
  - assert (Ep : p = 2 ^ 53) by (rewrite E53 in HL1; lia).
    rewrite E53, Ep; destruct negative; vm_compute; repeat split.
  - rewrite (Z.max_r 0 (- (L - 52))), (Z.max_l 0 (L - 52)) by lia.
    rewrite Z.pow_0_r, Z.mul_1_l, divNearestEven_1, Z.mul_1_r.
    replace (- (L - 52)) with (52 - L) by lia.
    assert (Hd : 0 < 2 ^ (52 - L)) by (apply Z.pow_pos_nonneg; lia).
    assert (Hm : p * 2 ^ (52 - L) < 2 ^ 53).
    { replace (2 ^ 53) with (2 ^ Z.succ L * 2 ^ (52 - L)).
      - apply Z.mul_lt_mono_pos_r; assumption.
      - rewrite <- Z.pow_add_r by lia; f_equal; lia. }
    assert (H1024 : 2 ^ 53 < 2 ^ 1024) by (apply Z.pow_lt_mono_r; lia).
    destruct (Z.leb_spec (2 ^ 1024) (p * 2 ^ (52 - L))) as [H | _]; [lia|].
    unfold integerValue, Number_isInteger, isNaN.
    destruct (Z.leb_spec 0 (L - 52)) as [H52 | H52].
    + replace (L - 52) with 0 by lia; replace (52 - L) with 0 by lia.
      rewrite !Z.pow_0_r, Z.mul_1_r.
      destruct negative; repeat split; lia.
    + replace (- (L - 52)) with (52 - L) by lia.
      destruct negative.
      * rewrite <- Z.mul_opp_l, Z.mod_mul, Z.div_mul by lia.
        repeat split.
      * rewrite Z.mod_mul, Z.div_mul by lia; repeat split.
Qed.

(** From [2^53] on an integer rounds to a double from [2^53] on, or to
    infinity. *)
Lemma roundInteger_large (v : Z) :
  2 ^ 53 <= v -> roundInteger v = 0 \/ 2 ^ 53 <= roundInteger v.
Proof.
  intros Hv.
  assert (H53 : 0 < 2 ^ 53) by (apply Z.pow_pos_nonneg; lia).
  unfold roundInteger, roundToDouble.
  destruct (Z.ltb_spec v 0) as [H | _]; [lia|].
  rewrite Z.abs_eq by lia.
  destruct (Z.eqb_spec v 0) as [E0 | _]; [lia|].
  change (Z.log2 1) with 0; rewrite Z.sub_0_r.
  assert (Hp : 0 < v) by lia.
  destruct (Z.log2_spec v Hp) as [HL1 HL2].
  set (L := Z.log2 v) in *.
  assert (HL : 53 <= L).
  { destruct (Z.le_gt_cases 53 L) as [H | H]; [exact H|].
    assert (2 ^ Z.succ L <= 2 ^ 53) by (apply Z.pow_le_mono_r; lia). lia. }
  rewrite (Z.max_l 0 (- L)), (Z.max_r 0 L) by lia.
  rewrite Z.pow_0_r, Z.mul_1_r, Z.mul_1_l.
  destruct (Z.ltb_spec v (2 ^ L)) as [H | _]; [lia|].
  rewrite (Z.max_l (L - 52) (-1074)) by lia.
  rewrite (Z.max_l 0 (- (L - 52))), (Z.max_r 0 (L - 52)) by lia.
  rewrite Z.pow_0_r, Z.mul_1_r, Z.mul_1_l.
  set (k := L - 52) in *.
  assert (Hk : 0 < 2 ^ k) by (apply Z.pow_pos_nonneg; lia).
  assert (Hq : 2 ^ 52 <= v / 2 ^ k).
  { apply Z.div_le_lower_bound; [exact Hk|].
    rewrite <- Z.pow_add_r by lia.
    replace (k + 52) with L by (unfold k; lia). exact HL1. }
  assert (Hm : v / 2 ^ k <= divNearestEven v (2 ^ k)).
  { unfold divNearestEven.
    destruct (2 * (v mod 2 ^ k) <? 2 ^ k); [lia|].
    destruct (2 ^ k <? 2 * (v mod 2 ^ k)); [lia|].
    destruct (Z.even (v / 2 ^ k)); lia. }
  destruct (2 ^ 1024 <=? divNearestEven v (2 ^ k) * 2 ^ k);
    [left; reflexivity|].
  right; unfold integerValue.
  destruct (Z.leb_spec 0 k) as [_ | H]; [|unfold k in H; lia].
  assert (H2 : 2 ^ 1 <= 2 ^ k) by (apply Z.pow_le_mono_r; unfold k; lia).
  change (2 ^ 53) with (2 ^ 52 * 2 ^ 1).
  apply Z.mul_le_mono_nonneg; lia.
Qed.

Lemma digit_char (c : ascii) (v : Z) :
  digitOf 10 c = Some v ->
  isWhiteSpace c = false
  /\ Ascii.eqb c "+" = false /\ Ascii.eqb c "-" = false
  /\ Ascii.eqb c "I" = false
  /\ Ascii.eqb c "x" = false /\ Ascii.eqb c "X" = false
  /\ Ascii.eqb c "o" = false /\ Ascii.eqb c "O" = false
  /\ Ascii.eqb c "b" = false /\ Ascii.eqb c "B" = false.
Proof.
  destruct c as [[] [] [] [] [] [] [] []]; intros H; try discriminate H;
    repeat split.
Qed.

Lemma numeric_uint (d : Decimal.uint) :
  More.numeric (NilEmpty.string_of_uint d) = true.
Proof. induction d; simpl; assumption || reflexivity. Qed.

Lemma numeric_spaceFree (s : string) :
  More.numeric s = true -> More.spaceFree s = true.
Proof.
  induction s as [| c r IH]; simpl; [reflexivity|].
  destruct (digitOf 10 c) as [v |] eqn:E; [|discriminate].
  intros H; destruct (digit_char c v E) as [W _]; now rewrite W, IH.
Qed.

Lemma trim_spaceFree (s : string) : More.spaceFree s = true -> trim s = s.
Proof.
  intros F; unfold trim.
  assert (S : trimStart s = s).
  { destruct s as [| c r]; [reflexivity|]; simpl in *.
    apply andb_true_iff in F; destruct F as [Hc _].
    apply negb_true_iff in Hc; now rewrite Hc. }
  rewrite S; clear S; induction s as [| c r IH]; [reflexivity|].
  simpl in F; apply andb_true_iff in F; destruct F as [Hc Hr].
  apply negb_true_iff in Hc.
  now rewrite trimEnd_cons, Hc, andb_false_r, (IH Hr).
Qed.

(** Reading the digits of a numeral, with digits read before in [acc]. *)
Lemma readDigits_uint_acc (d : Decimal.uint) :
  forall acc count,
    readDigits 10 (NilEmpty.string_of_uint d) (Z.pos acc) count
    = (Z.pos (Pos.of_uint_acc d acc),
       count + Z.of_nat (Decimal.nb_digits d), EmptyString).
Proof.
  induction d; intros acc count;
    [simpl; now rewrite Z.add_0_r | ..];
    cbn [NilEmpty.string_of_uint readDigits Decimal.nb_digits
         Pos.of_uint_acc];
    match goal with
    | |- context [digitOf 10 ?c] =>
        let r := eval vm_compute in (digitOf 10 c) in
        change (digitOf 10 c) with r
    end; cbv beta iota;
    match goal with
    | |- readDigits 10 _ ?a _ = (Z.pos (Pos.of_uint_acc _ ?b), _, _) =>
        replace a with (Z.pos b) by lia
    end; rewrite IHd; f_equal; f_equal; lia.
Qed.

Lemma readDigits_uint (d : Decimal.uint) :
  forall count,
    readDigits 10 (NilEmpty.string_of_uint d) 0 count
    = (Z.of_N (Pos.of_uint d),
       count + Z.of_nat (Decimal.nb_digits d), EmptyString).
Proof.
  induction d; intros count;
    [simpl; now rewrite Z.add_0_r | ..];
    cbn [NilEmpty.string_of_uint readDigits Decimal.nb_digits Pos.of_uint];
    match goal with
    | |- context [digitOf 10 ?c] =>
        let r := eval vm_compute in (digitOf 10 c) in
        change (digitOf 10 c) with r
    end; cbv beta iota;
    [ change (0 * 10 + 0) with 0; rewrite IHd; f_equal; f_equal; lia
    | match goal with
      | |- readDigits 10 _ ?a _ = _ =>
          let r := eval vm_compute in a in change a with r
      end; rewrite readDigits_uint_acc; cbn [Z.of_N]; f_equal; f_equal;
      lia .. ].
Qed.

(** The digits of [n] read back as [n]. *)
Lemma readDigits_digits (n : Z) :
  0 <= n ->
  exists count,
    0 < count
    /\ readDigits 10 (digits n) 0 0 = (n, count, EmptyString)
    /\ More.numeric (digits n) = true.
Proof.
  intros Hn; unfold digits.
  pose proof (DecimalN.Unsigned.of_to (Z.to_N n)) as V.
  unfold N.of_uint in V.
  assert (N : N.to_uint (Z.to_N n) <> Decimal.Nil).
  { destruct (Z.to_N n); [discriminate|].
    apply DecimalPos.Unsigned.to_uint_nonnil. }
  set (u := N.to_uint (Z.to_N n)) in *.
  assert (S : NilZero.string_of_uint u = NilEmpty.string_of_uint u).
  { destruct u; [now elim N | reflexivity ..]. }
  rewrite S; exists (0 + Z.of_nat (Decimal.nb_digits u)).
  split; [destruct u; [now elim N | simpl; lia ..]|].
  split; [|apply numeric_uint].
  rewrite readDigits_uint, V; f_equal; f_equal; lia.
Qed.

(** What [Number] makes of a string of digits, and of one after a minus
    sign. *)
Lemma Number_numeric (t : string) (v count : Z) :
  More.numeric t = true -> 0 < count ->
  readDigits 10 t 0 0 = (v, count, EmptyString) ->
  Number t = roundToDouble false v 1
  /\ Number (String "-" t) = roundToDouble true v 1.
Proof.
  intros Hn Hc Hr.
  assert (D : readUnsignedDecimal t = Some (v, 0)).
  { unfold readUnsignedDecimal; rewrite Hr; cbv beta iota zeta.
    destruct (Z.eqb_spec (count + 0) 0) as [E | _]; [lia | reflexivity]. }
  assert (R : forall neg,
             roundToDouble neg (v * 10 ^ Z.max 0 0) (10 ^ Z.max 0 (- 0))
             = roundToDouble neg v 1).
  { intros neg; simpl; now rewrite Z.mul_1_r. }
  destruct t as [| c0 r]; [simpl in Hr; injection Hr as _ <-; lia|].
  simpl in Hn; destruct (digitOf 10 c0) as [v0 |] eqn:E0; [|discriminate].
  destruct (digit_char c0 v0 E0)
    as (W0 & P0 & M0 & I0 & _).
  assert (F : More.spaceFree (String c0 r) = true).
  { apply numeric_spaceFree; simpl; now rewrite E0. }
  assert (Dec : readDecimal (String c0 r) = roundToDouble false v 1).
  { unfold readDecimal, readSign; rewrite P0, M0.
    cbn [String.eqb]; rewrite I0; cbn [andb]; now rewrite D, R. }
  split.
  - unfold Number; rewrite (trim_spaceFree _ F).
    destruct r as [| c1 r']; [exact Dec|].
    simpl in Hn; destruct (digitOf 10 c1) as [v1 |] eqn:E1; [|discriminate].
    destruct (digit_char c1 v1 E1)
      as (_ & _ & _ & _ & X1 & X2 & O1 & O2 & B1 & B2).
    rewrite X1, X2, O1, O2, B1, B2; cbn [orb]; rewrite !andb_false_r.
    exact Dec.
  - assert (F' : More.spaceFree (String "-" (String c0 r)) = true).
    { change (More.spaceFree (String "-" (String c0 r)))
        with (negb (isWhiteSpace "-") && More.spaceFree (String c0 r)).
      now rewrite F. }
    unfold Number; rewrite (trim_spaceFree _ F').
    change (Ascii.eqb "-" "0") with false; cbn [andb].
    unfold readDecimal, readSign.
    change (Ascii.eqb "-" "+") with false; change (Ascii.eqb "-" "-") with true.
    cbv beta iota.
    cbn [String.eqb]; rewrite I0; cbn [andb]; now rewrite D, R.
Qed.

(** [parseInteger] reads the digits of [n] as [n], and as [- n] after a
    minus sign. *)
Lemma parseInteger_digits (n : Z) (fieldName : string) :
  0 <= n <= 2 ^ 53 ->
  parseInteger (digits n) fieldName = Ok n
  /\ parseInteger (String "-" (digits n)) fieldName = Ok (- n).
Proof.
  intros Hn.
  destruct (readDigits_digits n (proj1 Hn)) as (count & Hc & Hr & Hnum).
  destruct (Number_numeric _ _ _ Hnum Hc Hr) as [N1 N2].
  unfold parseInteger; rewrite N1, N2.
  destruct (roundToDouble_exact false n Hn) as (I1 & A1 & V1).
  destruct (roundToDouble_exact true n Hn) as (I2 & A2 & V2).
  now rewrite I1, A1, V1, I2, A2, V2.
Qed.

Lemma append_assoc (a b c : string) :
  ((a ++ b) ++ c = a ++ (b ++ c))%string.
Proof. induction a as [| h t IH]; simpl; [reflexivity | now rewrite IH]. Qed.

Lemma string_of_revapp (l : Decimal.uint) :
  forall acc,
    NilEmpty.string_of_uint (Decimal.revapp l acc)
    = (NilEmpty.string_of_uint (Decimal.revapp l Decimal.Nil)
       ++ NilEmpty.string_of_uint acc)%string.
Proof.
  induction l; intros acc; [reflexivity | ..]; simpl;
    rewrite IHl; symmetry; rewrite IHl, append_assoc; reflexivity.
Qed.

(** Ten times a number is written with one more zero. *)
Lemma digits_tenfold (n : Z) :
  0 < n -> digits (10 * n) = (digits n ++ "0")%string.
Proof.
  intros Hn; destruct n as [| p | p]; try lia.
  unfold digits; change (Z.to_N (10 * Z.pos p)) with (10 * N.pos p)%N.
  change (Z.to_N (Z.pos p)) with (N.pos p).
  assert (E : N.to_uint (10 * N.pos p)
              = Decimal.revapp (Pos.to_little_uint p)
                               (Decimal.D0 Decimal.Nil)).
  { change (N.to_uint (10 * N.pos p))
      with (Decimal.rev (DecimalPos.Unsigned.to_lu (10 * N.pos p))).
    now rewrite DecimalPos.Unsigned.to_ldec_tenfold. }
  assert (S : forall u, u <> Decimal.Nil ->
                        NilZero.string_of_uint u = NilEmpty.string_of_uint u).
  { intros u N; destruct u; [now elim N | reflexivity ..]. }
  rewrite !S.
  - rewrite E, string_of_revapp; reflexivity.
  - apply DecimalPos.Unsigned.to_uint_nonnil.
  - change (10 * N.pos p)%N with (N.pos (10 * p)).
    apply DecimalPos.Unsigned.to_uint_nonnil.
Qed.

Lemma zeros_snoc (j : nat) : (zeros j ++ "0")%string = String "0" (zeros j).
Proof. induction j; simpl; [reflexivity | now rewrite IHj]. Qed.

Lemma digits_pow10 (s : Z) (j : nat) :
  0 < s -> digits (s * 10 ^ Z.of_nat j) = (digits s ++ zeros j)%string.
Proof.
  intros Hs; induction j as [| j IH].
  - simpl; now rewrite Z.mul_1_r, append_empty_r.
  - rewrite Nat2Z.inj_succ, Z.pow_succ_r by lia.
    replace (s * (10 * 10 ^ Z.of_nat j)) with (10 * (s * 10 ^ Z.of_nat j))
      by lia.
    rewrite digits_tenfold, IH.
    + now rewrite append_assoc, zeros_snoc.
    + apply Z.mul_pos_pos; [exact Hs | apply Z.pow_pos_nonneg; lia].
Qed.

Lemma nearestCandidate_In (x k : Z) (cs : list (Z * Z)) :
  forall best c,
    fold_left
      (fun best c =>
         let dist := fun '(n, s) => Z.abs (s * 10 ^ (n - k) - x) in
         match best with
         | None => Some c
         | Some b =>
             if dist c <? dist b then Some c
             else if (dist c =? dist b) && Z.even (snd c) && Z.odd (snd b)
                  then Some c else best
         end)
      cs best = Some c ->
    best = Some c \/ In c cs.
Proof.
  induction cs as [| a cs IH]; intros best c; simpl; [now left|].
  intros H; apply IH in H; destruct H as [H | H]; [|now right; right].
  destruct best as [b |]; [|injection H as <-; right; now left].
  cbv zeta in H.
  repeat match type of H with
         | context [if ?t then _ else _] => destruct t
         end;
    first [ now left | injection H as <-; right; now left ].
Qed.

Lemma shortestDigits_spec (fuel : nat) (x : Z) :
  forall k n k' s,
    1 <= k ->
    shortestDigits fuel x k = Some (n, k', s) ->
    1 <= k' /\ In (n, s) (digitCandidates x k').
Proof.
  induction fuel as [| f IH]; intros k n k' s Hk; simpl; [discriminate|].
  destruct (nearestCandidate x k (digitCandidates x k)) as [[n0 s0] |] eqn:E.
  - intros [= <- <- <-]; split; [exact Hk|].
    apply nearestCandidate_In in E; destruct E as [E | E];
      [discriminate | exact E].
  - intros H; apply (IH (k + 1)); [lia | exact H].
Qed.

Lemma digitCandidates_spec (x k n s : Z) :
  In (n, s) (digitCandidates x k) ->
  k <= n /\ 10 ^ (k - 1) <= s
  /\ roundInteger (s * 10 ^ (n - k)) = x.
Proof.
  unfold digitCandidates; intros H; apply filter_In in H.
  destruct H as [_ H].
  rewrite !andb_true_iff, !Z.leb_le, Z.eqb_eq in H; tauto.
Qed.

(** Below [2^53] a number is written digit by digit. *)
Lemma positiveToString_digits (x : Z) :
  0 < x < 2 ^ 53 -> positiveToString x = digits x.
Proof.
  intros Hx; unfold positiveToString.
  destruct (shortestDigits 17 x 1) as [[[n k] s] |] eqn:E; [|reflexivity].
  apply shortestDigits_spec in E; [|lia].
  destruct E as [Hk C]; apply digitCandidates_spec in C.
  destruct C as (Hkn & Hs & Hr).
  assert (P1 : 0 < 10 ^ (k - 1)) by (apply Z.pow_pos_nonneg; lia).
  assert (P2 : 0 < 10 ^ (n - k)) by (apply Z.pow_pos_nonneg; lia).
  set (v := s * 10 ^ (n - k)) in *.
  assert (Hv : 0 < v) by (apply Z.mul_pos_pos; lia).
  assert (Ev : v = x).
  { destruct (Z.le_gt_cases (2 ^ 53) v) as [L | L].
    - destruct (roundInteger_large v L) as [Z0 | G]; lia.
    - rewrite roundInteger_exact in Hr by lia; exact Hr. }
  assert (Hn : n <= 16).
  { assert (B : 10 ^ (n - 1) <= v).
    { replace (n - 1) with ((k - 1) + (n - k)) by lia.
      rewrite Z.pow_add_r by lia.
      apply Z.mul_le_mono_nonneg_r; lia. }
    destruct (Z.le_gt_cases n 16) as [H | H]; [exact H|].
    assert (10 ^ 16 <= 10 ^ (n - 1)) by (apply Z.pow_le_mono_r; lia).
    assert (2 ^ 53 < 10 ^ 16) by reflexivity.
    lia. }
  destruct (Z.leb_spec n 21) as [_ | H]; [|lia].
  rewrite <- Ev; unfold v.
  rewrite <- (Z2Nat.id (n - k)) at 2 by lia.
  symmetry; apply digits_pow10; lia.
Qed.

Lemma numberToString_digits (n : Z) :
  Z.abs n < 2 ^ 53 ->
  numberToString n
  = if n <? 0 then String "-" (digits (- n)) else digits n.
Proof.
  intros Hn; unfold numberToString.
  destruct (Z.eqb_spec n 0) as [-> | N0]; [reflexivity|].
  destruct (Z.ltb_spec n 0) as [L | L];
    now rewrite positiveToString_digits by lia.
Qed.

(** X11. A coordinate below [2^53] in absolute value is written in plain
    decimal notation: its digits without leading zero, after a minus sign
    when it is negative, with no exponent and no rounding. So are the two
    coordinates of a line of the output. *)
Theorem formatState_decimal (s : RoverState) :
  (forall n, Z.abs n < 2 ^ 53 ->
             numberToString n = NilZero.string_of_int (Z.to_int n))
  /\ (Z.abs (x (position s)) < 2 ^ 53 -> Z.abs (y (position s)) < 2 ^ 53 ->
      Format.formatState s
      = (NilZero.string_of_int (Z.to_int (x (position s))) ++ " "
         ++ NilZero.string_of_int (Z.to_int (y (position s))) ++ " "
         ++ Format.directionLetter (direction s))%string).
Proof.
  assert (A : forall n, Z.abs n < 2 ^ 53 ->
                        numberToString n
                        = NilZero.string_of_int (Z.to_int n)).
  { intros n Hn; rewrite (numberToString_digits n Hn).
    destruct n as [| p | p]; reflexivity. }
  split; [exact A|].
  intros Hx Hy; unfold Format.formatState; now rewrite !A.
Qed.

(** X12. A number that [formatOutput] writes is read back by
    [parseInteger] as the same number, for every integer below [2^53] in
    absolute value. *)
Theorem parseInteger_reads_numberToString (n : Z) (fieldName : string) :
  Z.abs n < 2 ^ 53 ->
  parseInteger (numberToString n) fieldName = Ok n.
Proof.
  intros Hn; rewrite (numberToString_digits n Hn).
  destruct (Z.ltb_spec n 0) as [L | L].
  - destruct (parseInteger_digits (- n) fieldName) as [_ H]; [lia|].
    now rewrite H, Z.opp_involutive.
  - destruct (parseInteger_digits n fieldName) as [H _]; [lia | exact H].
Qed.

Lemma parsePosition_formatState (s : RoverState) (plateau : Plateau) :
  maxX plateau < 2 ^ 53 -> maxY plateau < 2 ^ 53 ->
  Spec.contains plateau (position s) ->
  parsePosition (Format.formatState s) plateau = Ok s.
Proof.
  intros HX HY [Bx By]; unfold parsePosition.
  rewrite splitWhiteSpace_formatState.
  assert (Px : parseInteger (numberToString (x (position s))) "x coordinate"
               = Ok (x (position s))).
  { destruct (parseInteger_digits (x (position s)) "x coordinate") as [H _];
      [lia|].
    now rewrite numberToString_digits, (proj2 (Z.ltb_ge _ _)) by lia. }
  assert (Py : parseInteger (numberToString (y (position s))) "y coordinate"
               = Ok (y (position s))).
  { destruct (parseInteger_digits (y (position s)) "y coordinate") as [H _];
      [lia|].
    now rewrite numberToString_digits, (proj2 (Z.ltb_ge _ _)) by lia. }
  rewrite Px; simpl; rewrite Py; simpl.
  assert (D : VALID_DIRECTIONS
                (toUpperCase (Format.directionLetter (direction s)))
              = Some (direction s)) by (destruct (direction s); reflexivity).
  rewrite D.
  replace ((x (position s) <? 0) || (x (position s) >? maxX plateau)
           || (y (position s) <? 0) || (y (position s) >? maxY plateau))
    with false.
  - destruct s as [[px py] d]; reflexivity.
  - symmetry; rewrite !orb_false_iff, !Z.ltb_ge, Z.gtb_ltb, Z.gtb_ltb,
      !Z.ltb_ge; lia.
Qed.

(** X13. A line of the output is a position line: on a plateau with bounds
    below [2^53], the line written for a state within the plateau is parsed
    by [parsePosition] to that state, and every line of an output for such
    states is. *)
Theorem output_line_parses_back
  (plateau : Plateau) (states : list RoverState) :
  maxX plateau < 2 ^ 53 -> maxY plateau < 2 ^ 53 ->
  Forall (fun s => Spec.contains plateau (position s)) states ->
  states <> [] ->
  Page.mapResult (fun line => parsePosition line plateau)
                 (splitLines (Format.formatOutput states))
  = Ok states.
Proof.
  intros HX HY F N.
  assert (L : splitLines (Format.formatOutput states)
              = map Format.formatState states).
  { apply splitLines_text.
    - destruct states; [now elim N | discriminate].
    - apply Forall_forall; intros l H; apply in_map_iff in H.
      destruct H as (s & <- & _); apply formatState_lineFeedFree. }
  rewrite L; clear L N.
  induction F as [| s states B _ IH]; [reflexivity|].
  simpl; rewrite (parsePosition_formatState s plateau HX HY B); simpl.
  now rewrite IH.
Qed.

End Numerals.

Lemma parseInteger_reads_numberToString_witness :
  Parser.parseInteger (JS.numberToString (-42)) "x coordinate" = Ok (-42).
Proof.
  apply (parseInteger_reads_numberToString (-42) "x coordinate").
  reflexivity.
Defined.

Lemma output_line_parses_back_witness :
  Page.mapResult
    (fun line => Parser.parsePosition line (mkPlateau 5 5))
    (JS.splitLines
       (Format.formatOutput [mkRoverState (mkPosition 1 3) North;
                             mkRoverState (mkPosition 5 1) East]))
  = Ok [mkRoverState (mkPosition 1 3) North;
        mkRoverState (mkPosition 5 1) East].
Proof.
  apply (output_line_parses_back
           (mkPlateau 5 5)
           [mkRoverState (mkPosition 1 3) North;
            mkRoverState (mkPosition 5 1) East]);
    [reflexivity | reflexivity | | discriminate].
  repeat constructor; simpl; lia.
Defined.

(** * The order of the rovers *)

Section RoverOrder.

Import Parser.

Lemma parseRovers_throw_first
  (plateau : Plateau) (before rest : list string) :
  forall e,
    Nat.even (List.length before) = true ->
    parseRovers plateau before = Throw e ->
    parseRovers plateau (before ++ rest) = Throw e.
Proof.
  induction before as [| a | a b l IH] using pairs_ind; intros e Hl.
  - discriminate.
  - discriminate Hl.
  - cbn [parseRovers app].
    destruct (parsePosition a plateau) as [s |]; simpl; [|now intros H].
    destruct (parseCommands b) as [c |]; simpl; [|now intros H].
    destruct (parseRovers plateau l) as [rs |] eqn:E; simpl; [discriminate|].
    intros [= ->]; now rewrite (IH e Hl eq_refl).
Qed.

(** X14. The rover loop of [parseInput] reads the rovers in order, each
    from its own two lines: the rovers of the first lines come first and
    unchanged whatever follows them, and when one of them fails, its
    exception is the one raised, whatever follows. *)
Theorem parseRovers_in_order
  (plateau : Plateau) (before rest : list string) :
  (forall earlier,
      parseRovers plateau before = Ok earlier ->
      parseRovers plateau (before ++ rest)
      = later <- parseRovers plateau rest ;; Ok (earlier ++ later)%list)
  /\ (forall e,
        Nat.even (List.length before) = true ->
        parseRovers plateau before = Throw e ->
        parseRovers plateau (before ++ rest) = Throw e).
Proof.
  split; [apply parseRovers_app | apply parseRovers_throw_first].
Qed.

End RoverOrder.

Lemma parseRovers_in_order_witness :
  Parser.parseRovers (mkPlateau 5 5) ["1 2 N"; "LM"; "3 3 E"; "MM"]
  = Ok [mkRoverInput (mkRoverState (mkPosition 1 2) North) "LM";
        mkRoverInput (mkRoverState (mkPosition 3 3) East) "MM"]
  /\ Parser.parseRovers (mkPlateau 5 5) ["9 9 N"; "LM"; "3 3 E"; "M3"]
     = Throw (OutsidePlateau 9 9 5 5).
Proof.
  split.
  - apply (proj1 (parseRovers_in_order
                    (mkPlateau 5 5) ["1 2 N"; "LM"] ["3 3 E"; "MM"])
                 [mkRoverInput (mkRoverState (mkPosition 1 2) North) "LM"]).
    reflexivity.
  - apply (proj2 (parseRovers_in_order
                    (mkPlateau 5 5) ["9 9 N"; "LM"] ["3 3 E"; "M3"])
                 (OutsidePlateau 9 9 5 5)); reflexivity.
Defined.

(** * Numerals, their values and their numbers *)

Section Rounding.

Import JS.

(** The quotient rounded is within half of the divisor of the dividend. *)
Lemma divNearestEven_near (p q : Z) :
  0 < q -> 2 * Z.abs (divNearestEven p q * q - p) <= q.
Proof.
  intros Hq; unfold divNearestEven.
  pose proof (Z.div_mod p q ltac:(lia)) as D.
  pose proof (Z.mod_pos_bound p q Hq) as B.
  destruct (Z.ltb_spec (2 * (p mod q)) q); [nia|].
  destruct (Z.ltb_spec q (2 * (p mod q))); [nia|].
  destruct (Z.even (p / q)); nia.
Qed.

Lemma divNearestEven_exact (n q : Z) :
  0 < q -> divNearestEven (n * q) q = n.
Proof.
  intros Hq; unfold divNearestEven.
  rewrite Z.mod_mul, Z.div_mul by lia.
  destruct (Z.ltb_spec (2 * 0) q); [reflexivity | lia].
Qed.

Lemma exponentOf_spec (p q : Z) :
  0 < p -> 0 < q ->
  q * 2 ^ Z.max 0 (More.exponentOf p q) <= p * 2 ^ Z.max 0 (- More.exponentOf p q)
  /\ p * 2 ^ Z.max 0 (- More.exponentOf p q)
     < 2 * (q * 2 ^ Z.max 0 (More.exponentOf p q)).
Proof.
  intros Hp Hq; unfold More.exponentOf.
  destruct (Z.log2_spec p Hp) as [A1 A2].
  destruct (Z.log2_spec q Hq) as [B1 B2].
  pose proof (Z.log2_nonneg p) as A0.
  pose proof (Z.log2_nonneg q) as B0.
  set (a := Z.log2 p) in *; set (b := Z.log2 q) in *.
  rewrite !Z.pow_succ_r in * by lia.
  destruct (Z.le_gt_cases 0 (a - b)) as [H | H].
  - rewrite (Z.max_l 0 (- (a - b))), (Z.max_r 0 (a - b)) by lia.
    rewrite Z.pow_0_r, Z.mul_1_r.
    assert (E : 2 ^ a = 2 ^ b * 2 ^ (a - b)).
    { rewrite <- Z.pow_add_r by lia; f_equal; lia. }
    assert (P : 0 < 2 ^ (a - b)) by (apply Z.pow_pos_nonneg; lia).
    destruct (Z.ltb_spec p (q * 2 ^ (a - b))) as [T | T].
    + destruct (Z.eq_dec (a - b) 0) as [Z0 | Z0].
      * replace (a - b - 1) with (-1) by lia.
        rewrite Z0 in *; change (2 ^ 0) with 1 in *.
        change (2 ^ Z.max 0 (-1)) with 1; change (2 ^ Z.max 0 (- -1)) with 2.
        lia.
      * rewrite (Z.max_r 0 (a - b - 1)), (Z.max_l 0 (- (a - b - 1))) by lia.
        rewrite Z.pow_0_r, Z.mul_1_r.
        assert (E' : 2 ^ (a - b) = 2 * 2 ^ (a - b - 1)).
        { rewrite <- Z.pow_succ_r by lia; f_equal; lia. }
        assert (P' : 0 < 2 ^ (a - b - 1)) by (apply Z.pow_pos_nonneg; lia).
        nia.
    + rewrite (Z.max_l 0 (- (a - b))), (Z.max_r 0 (a - b)) by lia.
      rewrite Z.pow_0_r, Z.mul_1_r. nia.
  - rewrite (Z.max_r 0 (- (a - b))), (Z.max_l 0 (a - b)) by lia.
    rewrite Z.pow_0_r, Z.mul_1_r.
    assert (E : 2 ^ b = 2 ^ a * 2 ^ (- (a - b))).
    { rewrite <- Z.pow_add_r by lia; f_equal; lia. }
    assert (P : 0 < 2 ^ (- (a - b))) by (apply Z.pow_pos_nonneg; lia).
    destruct (Z.ltb_spec (p * 2 ^ (- (a - b))) q) as [T | T].
    + rewrite (Z.max_r 0 (- (a - b - 1))), (Z.max_l 0 (a - b - 1)) by lia.
      rewrite Z.pow_0_r, Z.mul_1_r.
      assert (E' : 2 ^ (- (a - b - 1)) = 2 * 2 ^ (- (a - b))).
      { rewrite <- Z.pow_succ_r by lia; f_equal; lia. }
      nia.
    + rewrite (Z.max_r 0 (- (a - b))), (Z.max_l 0 (a - b)) by lia.
      rewrite Z.pow_0_r, Z.mul_1_r. nia.
Qed.

Lemma roundToDouble_unfold (negative : bool) (p q : Z) :
  0 < p ->
  roundToDouble negative p q
  = let k := Z.max (More.exponentOf p q - 52) (-1074) in
    let m := divNearestEven (p * 2 ^ Z.max 0 (- k)) (q * 2 ^ Z.max 0 k) in
    if 2 ^ 1024 <=? m * 2 ^ Z.max 0 k then Infinity negative
    else Finite (if negative then - m else m) k.
Proof.
  intros Hp; unfold roundToDouble, More.exponentOf.
  destruct (Z.eqb_spec p 0); [lia | reflexivity].
Qed.

(** An integer below [2^53] written as a quotient rounds to itself. *)
Lemma roundToDouble_quotient (negative : bool) (n q : Z) :
  0 <= n < 2 ^ 53 -> 0 < q ->
  Number_isInteger (roundToDouble negative (n * q) q) = true
  /\ isNaN (roundToDouble negative (n * q) q) = false
  /\ integerValue (roundToDouble negative (n * q) q)
     = (if negative then - n else n).
Proof.
  intros Hn Hq.
  destruct (Z.eq_dec n 0) as [-> | N0].
  { destruct negative; repeat split. }
  assert (Hp : 0 < n * q) by nia.
  rewrite (roundToDouble_unfold negative _ q Hp).
  destruct (exponentOf_spec (n * q) q Hp Hq) as [L U].
  set (e := More.exponentOf (n * q) q) in *.
  assert (E0 : 0 <= e).
  { destruct (Z.le_gt_cases 0 e) as [H | H]; [exact H|].
    rewrite (Z.max_l 0 e), (Z.max_r 0 (- e)) in U by lia.
    assert (2 ^ 1 <= 2 ^ (- e)) by (apply Z.pow_le_mono_r; lia).
    change (2 ^ 1) with 2 in *; rewrite Z.pow_0_r in U; nia. }
  rewrite (Z.max_r 0 e), (Z.max_l 0 (- e)), Z.pow_0_r in L, U by lia.
  assert (P : 0 < 2 ^ e) by (apply Z.pow_pos_nonneg; lia).
  assert (L' : 2 ^ e <= n) by nia.
  assert (U' : n < 2 * 2 ^ e) by nia.
  assert (E52 : e <= 52).
  { destruct (Z.le_gt_cases e 52) as [H | H]; [exact H|].
    assert (2 ^ 53 <= 2 ^ e) by (apply Z.pow_le_mono_r; lia). lia. }
  cbv zeta.
  rewrite (Z.max_l (e - 52) (-1074)) by lia.
  rewrite (Z.max_r 0 (- (e - 52))), (Z.max_l 0 (e - 52)) by lia.
  rewrite Z.pow_0_r, !Z.mul_1_r.
  replace (- (e - 52)) with (52 - e) by lia.
  replace (n * q * 2 ^ (52 - e)) with (n * 2 ^ (52 - e) * q) by ring.
  rewrite divNearestEven_exact by exact Hq.
  assert (Hd : 0 < 2 ^ (52 - e)) by (apply Z.pow_pos_nonneg; lia).
  assert (Hm : n * 2 ^ (52 - e) < 2 ^ 53).
  { replace (2 ^ 53) with (2 * 2 ^ e * 2 ^ (52 - e)).
    - apply Z.mul_lt_mono_pos_r; assumption.
    - rewrite <- Z.pow_succ_r, <- Z.pow_add_r by lia; f_equal; lia. }
  assert (H1024 : 2 ^ 53 < 2 ^ 1024) by (apply Z.pow_lt_mono_r; lia).
  destruct (Z.leb_spec (2 ^ 1024) (n * 2 ^ (52 - e))) as [H | _]; [lia|].
  unfold integerValue, Number_isInteger, isNaN.
  destruct (Z.leb_spec 0 (e - 52)) as [H52 | H52].
  - replace (e - 52) with 0 by lia; replace (52 - e) with 0 by lia.
    rewrite !Z.pow_0_r, !Z.mul_1_r.
    destruct negative; repeat split; lia.
  - replace (- (e - 52)) with (52 - e) by lia.
    destruct negative.
    + rewrite <- Z.mul_opp_l, Z.mod_mul, Z.div_mul by lia.
      repeat split.
    + rewrite Z.mod_mul, Z.div_mul by lia; repeat split.
Qed.

(** A quotient that is no integer, of a dividend below [2^53] by a divisor
    below [2^1075], rounds to no integer. *)
Lemma roundToDouble_fraction (negative : bool) (p q : Z) :
  0 < p < 2 ^ 53 -> 0 < q < 2 ^ 1075 -> p mod q <> 0 ->
  Number_isInteger (roundToDouble negative p q) = false.
Proof.
  intros [Hp Hp53] [Hq Hq1075] Hr.
  rewrite (roundToDouble_unfold negative p q Hp).
  destruct (exponentOf_spec p q Hp Hq) as [L _].
  set (e := More.exponentOf p q) in *.
  assert (Q2 : 2 <= q).
  { destruct (Z.eq_dec q 1) as [-> | N1]; [|lia].
    elim Hr; apply Z.mod_1_r. }
  (* the bound on the divisor, whatever the sign of the exponent *)
  assert (B : q < 2 * 2 ^ (52 - e) /\ e < 52).
  { destruct (Z.le_gt_cases 0 e) as [H | H].
    - rewrite (Z.max_r 0 e), (Z.max_l 0 (- e)), Z.pow_0_r in L by lia.
      assert (P : 0 < 2 ^ e) by (apply Z.pow_pos_nonneg; lia).
      assert (E52 : e < 52).
      { destruct (Z.lt_ge_cases e 52) as [H' | H']; [exact H'|].
        assert (2 ^ 52 <= 2 ^ e) by (apply Z.pow_le_mono_r; lia).
        change (2 ^ 53) with (2 * 2 ^ 52) in Hp53. nia. }
      split; [|exact E52].
      assert (E : 2 ^ 53 = 2 * 2 ^ (52 - e) * 2 ^ e).
      { rewrite <- Z.pow_succ_r, <- Z.pow_add_r by lia; f_equal; lia. }
      assert (P' : 0 < 2 ^ (52 - e)) by (apply Z.pow_pos_nonneg; lia).
      nia.
    - rewrite (Z.max_l 0 e), (Z.max_r 0 (- e)), Z.pow_0_r in L by lia.
      split; [|lia].
      assert (E : 2 * 2 ^ (52 - e) = 2 ^ 53 * 2 ^ (- e)).
      { rewrite <- Z.pow_succ_r, <- Z.pow_add_r by lia; f_equal; lia. }
      assert (P : 0 < 2 ^ (- e)) by (apply Z.pow_pos_nonneg; lia).
      nia. }
  destruct B as [B E52]; cbv zeta.
  set (k := Z.max (e - 52) (-1074)).
  assert (K0 : k < 0) by (unfold k; lia).
  assert (BK : q < 2 * 2 ^ (- k)).
  { unfold k; destruct (Z.max_spec (e - 52) (-1074)) as [[_ ->] | [_ ->]].
    - change (2 * 2 ^ (- -1074)) with (2 ^ 1075); exact Hq1075.
    - replace (- (e - 52)) with (52 - e) by lia; exact B. }
  rewrite (Z.max_r 0 (- k)), (Z.max_l 0 k) by lia.
  rewrite Z.pow_0_r, !Z.mul_1_r.
  pose proof (divNearestEven_near (p * 2 ^ (- k)) q Hq) as F.
  set (m := divNearestEven (p * 2 ^ (- k)) q) in *.
  destruct (2 ^ 1024 <=? m); [reflexivity|].
  unfold Number_isInteger.
  destruct (Z.leb_spec 0 k) as [H | _]; [lia|].
  apply Z.eqb_neq; intros D.
  assert (P : 0 < 2 ^ (- k)) by (apply Z.pow_pos_nonneg; lia).
  assert (Dm : exists c, m = c * 2 ^ (- k)).
  { apply Z.mod_divide in D; [|lia].
    destruct negative; [apply -> Z.divide_opp_r in D|]; exact D. }
  destruct Dm as [c Ec].
  assert (N : c * q <> p).
  { intros <-; elim Hr; apply Z.mod_mul; lia. }
  rewrite Ec in F.
  replace (c * 2 ^ (- k) * q - p * 2 ^ (- k))
    with ((c * q - p) * 2 ^ (- k)) in F by ring.
  rewrite Z.abs_mul, (Z.abs_eq (2 ^ (- k))) in F by lia.
  assert (1 <= Z.abs (c * q - p)) by lia.
  nia.
Qed.

End Rounding.

Section Reading.

Import JS Parser.

Lemma readDigits_numeric_app (s rest : string) :
  More.numeric s = true ->
  forall acc count,
    readDigits 10 (s ++ rest) acc count
    = let '(a, c, _) := readDigits 10 s acc count in readDigits 10 rest a c.
Proof.
  induction s as [| c r IH]; intros N acc count; simpl in *.
  - destruct rest; reflexivity.
  - destruct (digitOf 10 c); [apply IH; exact N | discriminate].
Qed.

(** Reading a numeral after the digits [acc]. *)
Lemma readDigits_numeral (d : Decimal.uint) :
  forall acc count,
    readDigits 10 (Literal.numeral d) acc count
    = (acc * 10 ^ Z.of_nat (Decimal.nb_digits d) + Literal.value d,
       count + Z.of_nat (Decimal.nb_digits d), EmptyString).
Proof.
  unfold Literal.numeral, Literal.value.
  induction d; intros acc count;
    [simpl; f_equal; f_equal; lia | ..];
    (match goal with
     | |- readDigits 10 (NilEmpty.string_of_uint ?u) _ _ = _ =>
         pose proof (readDigits_uint u 0) as V
     end;
     match type of V with
     | readDigits 10 (NilEmpty.string_of_uint ?u) 0 0 = _ =>
         assert (E : Z.of_N (N.of_uint u)
                     = fst (fst (readDigits 10 (NilEmpty.string_of_uint u)
                                            0 0)))
           by (rewrite V; reflexivity)
     end;
     rewrite E; clear E V;
     cbn [NilEmpty.string_of_uint readDigits Decimal.nb_digits];
     match goal with
     | |- context [digitOf 10 ?c] =>
         let r := eval vm_compute in (digitOf 10 c) in
         change (digitOf 10 c) with r
     end; cbv beta iota;
     rewrite !IHd; cbn [fst];
     rewrite Nat2Z.inj_succ, Z.pow_succ_r by lia;
     f_equal; f_equal; lia).
Qed.

Lemma numeralChar_facts (c : ascii) :
  More.numeralChar c = true ->
  isWhiteSpace c = false
  /\ Ascii.eqb c "+" = false /\ Ascii.eqb c "I" = false
  /\ Ascii.eqb c "x" = false /\ Ascii.eqb c "X" = false
  /\ Ascii.eqb c "o" = false /\ Ascii.eqb c "O" = false
  /\ Ascii.eqb c "b" = false /\ Ascii.eqb c "B" = false.
Proof.
  destruct c as [[] [] [] [] [] [] [] []]; intros H; try discriminate H;
    repeat split.
Qed.

Lemma numeralChars_app (a b : string) :
  More.numeralChars (a ++ b) = More.numeralChars a && More.numeralChars b.
Proof.
  induction a as [| c r IH]; simpl; [reflexivity|].
  now rewrite IH, andb_assoc.
Qed.

Lemma numeralChars_numeric (s : string) :
  More.numeric s = true -> More.numeralChars s = true.
Proof.
  induction s as [| c r IH]; simpl; [reflexivity|]; unfold More.numeralChar.
  destruct (digitOf 10 c); [exact IH | discriminate].
Qed.

Lemma numeralChars_spaceFree (s : string) :
  More.numeralChars s = true -> More.spaceFree s = true.
Proof.
  induction s as [| c r IH]; simpl; [reflexivity|].
  intros H; apply andb_true_iff in H; destruct H as [Hc Hr].
  destruct (numeralChar_facts c Hc) as [W _]; now rewrite W, IH.
Qed.

Lemma numeralChars_text (l : Literal.literal) :
  More.numeralChars (Literal.text l) = true.
Proof.
  unfold Literal.text, Literal.fractionText, Literal.exponentText,
    Literal.numeral.
  rewrite !numeralChars_app.
  rewrite (numeralChars_numeric _ (numeric_uint (Literal.whole l))).
  assert (S : More.numeralChars (if Literal.negative l then "-" else "") = true)
    by (destruct (Literal.negative l); reflexivity).
  rewrite S; clear S.
  assert (F : More.numeralChars
                match Literal.fraction l with
                | Some f => String "." (NilEmpty.string_of_uint f)
                | None => ""
                end = true).
  { destruct (Literal.fraction l) as [f |]; [|reflexivity].
    simpl; apply numeralChars_numeric, numeric_uint. }
  rewrite F; clear F.
  destruct (Literal.exponent l) as [ex |]; [|reflexivity].
  cbn [More.numeralChars andb]; rewrite numeralChars_app.
  destruct (readDigits_digits (Z.abs ex) (Z.abs_nonneg ex)) as (_ & _ & _ & N).
  rewrite (numeralChars_numeric _ N).
  destruct (ex <? 0); reflexivity.
Qed.

(** A text of such characters is read as a decimal literal. *)
Lemma Number_numeralChars (c : ascii) (r : string) :
  More.numeralChars (String c r) = true ->
  Number (String c r) = readDecimal (String c r).
Proof.
  intros H; unfold Number.
  rewrite (trim_spaceFree _ (numeralChars_spaceFree _ H)).
  destruct r as [| c1 r]; [reflexivity|].
  simpl in H; apply andb_true_iff in H; destruct H as [_ H].
  apply andb_true_iff in H; destruct H as [H1 _].
  destruct (numeralChar_facts c1 H1) as (_ & _ & _ & -> & -> & -> & -> & -> & ->).
  now rewrite !andb_false_r.
Qed.

Lemma readDigits_stop (rest : string) (acc count : Z) :
  match rest with
  | String c _ => digitOf 10 c = None
  | EmptyString => True
  end ->
  readDigits 10 rest acc count = (acc, count, rest).
Proof. destruct rest as [| c r]; simpl; [reflexivity | now intros ->]. Qed.

Lemma readExponent_text (l : Literal.literal) :
  readExponent (Literal.exponentText l)
  = Some match Literal.exponent l with
         | Some ex => ex
         | None => 0
         end.
Proof.
  unfold Literal.exponentText.
  destruct (Literal.exponent l) as [ex |]; [|reflexivity].
  unfold readExponent.
  change (Ascii.eqb "e" "e" || Ascii.eqb "e" "E") with true; cbv iota.
  destruct (readDigits_digits (Z.abs ex) (Z.abs_nonneg ex))
    as (count & Hc & R & N).
  assert (S : readSign (digits (Z.abs ex)) = (false, digits (Z.abs ex))).
  { destruct (digits (Z.abs ex)) as [| c r]; [reflexivity|].
    simpl in N; destruct (digitOf 10 c) as [v |] eqn:E; [|discriminate].
    destruct (digit_char c v E) as (_ & P & M & _).
    unfold readSign; now rewrite P, M. }
  destruct (Z.ltb_spec ex 0) as [Hn | Hn].
  - change (readSign ("-" ++ digits (Z.abs ex)))
      with (true, digits (Z.abs ex)).
    cbv iota beta; rewrite R.
    destruct (Z.eqb_spec count 0); [lia|]; simpl; f_equal; lia.
  - change ("" ++ digits (Z.abs ex)) with (digits (Z.abs ex)).
    rewrite S, R.
    destruct (Z.eqb_spec count 0); [lia|]; simpl; f_equal; lia.
Qed.

Lemma exponentText_stop (l : Literal.literal) :
  match Literal.exponentText l with
  | String c _ => digitOf 10 c = None /\ Ascii.eqb c "." = false
  | EmptyString => True
  end.
Proof.
  unfold Literal.exponentText; destruct (Literal.exponent l);
    [split; reflexivity | exact I].
Qed.

(** The digits, the point and the exponent of a numeral, read back. *)
Lemma readUnsignedDecimal_text (l : Literal.literal) :
  Literal.wellFormed l ->
  readUnsignedDecimal
    (Literal.numeral (Literal.whole l)
     ++ Literal.fractionText l ++ Literal.exponentText l)
  = Some (Literal.mantissa l, Literal.scale l).
Proof.
  unfold Literal.wellFormed, Literal.mantissa, Literal.scale, Literal.places,
    Literal.fractionText.
  intros W; unfold readUnsignedDecimal.
  rewrite (readDigits_numeric_app _ _ (numeric_uint (Literal.whole l))).
  rewrite readDigits_numeral; cbv iota beta.
  pose proof (exponentText_stop l) as X.
  pose proof (readExponent_text l) as R.
  destruct (Literal.fraction l) as [f |].
  - cbn [append].
    rewrite readDigits_stop by reflexivity.
    change (Ascii.eqb "." ".") with true; cbv iota.
    rewrite (readDigits_numeric_app _ _ (numeric_uint f)).
    rewrite readDigits_numeral; cbv iota beta.
    rewrite readDigits_stop
      by (destruct (Literal.exponentText l); [exact I | apply X]).
    destruct (Z.eqb_spec
                (0 + Z.of_nat (Decimal.nb_digits (Literal.whole l))
                 + (0 + Z.of_nat (Decimal.nb_digits f))) 0); [lia|].
    rewrite R; f_equal; f_equal; lia.
  - change ("" ++ Literal.exponentText l) with (Literal.exponentText l).
    rewrite readDigits_stop
      by (destruct (Literal.exponentText l); [exact I | apply X]).
    assert (M : match Literal.exponentText l with
                | String c r =>
                    if Ascii.eqb c "."
                    then readDigits
                           10 r
                           (0 * 10 ^ Z.of_nat
                                       (Decimal.nb_digits (Literal.whole l))
                            + Literal.value (Literal.whole l)) 0
                    else (0 * 10 ^ Z.of_nat
                                     (Decimal.nb_digits (Literal.whole l))
                          + Literal.value (Literal.whole l), 0,
                          Literal.exponentText l)
                | EmptyString =>
                    (0 * 10 ^ Z.of_nat (Decimal.nb_digits (Literal.whole l))
                     + Literal.value (Literal.whole l), 0,
                     Literal.exponentText l)
                end
                = (Literal.value (Literal.whole l), 0,
                   Literal.exponentText l)).
    { destruct (Literal.exponentText l) as [| c r];
        [f_equal; f_equal; lia|].
      destruct X as [_ ->]; f_equal; f_equal; lia. }
    rewrite M; clear M.
    destruct (Z.eqb_spec
                (0 + Z.of_nat (Decimal.nb_digits (Literal.whole l)) + 0) 0);
      [lia|].
    rewrite R, Z.pow_0_r; f_equal; f_equal; lia.
Qed.

(** A numeral starts, after its sign, with a digit or with the point. *)
Lemma body_start (l : Literal.literal) :
  Literal.wellFormed l ->
  exists c r,
    (Literal.numeral (Literal.whole l)
     ++ Literal.fractionText l ++ Literal.exponentText l)%string
    = String c r
    /\ Ascii.eqb c "+" = false /\ Ascii.eqb c "-" = false
    /\ Ascii.eqb c "I" = false.
Proof.
  unfold Literal.wellFormed, Literal.places, Literal.fractionText,
    Literal.numeral.
  destruct (Literal.whole l); cbn [NilEmpty.string_of_uint append];
    try (intros _; eexists; eexists; repeat split; reflexivity).
  destruct (Literal.fraction l) as [f |]; [|simpl; lia].
  intros _; eexists; eexists; repeat split; reflexivity.
Qed.

Lemma readDecimal_text (l : Literal.literal) :
  Literal.wellFormed l ->
  readDecimal (Literal.text l)
  = roundToDouble (Literal.negative l)
                  (Literal.mantissa l * 10 ^ Z.max 0 (Literal.scale l))
                  (10 ^ Z.max 0 (- Literal.scale l)).
Proof.
  intros W; unfold Literal.text, readDecimal.
  pose proof (readUnsignedDecimal_text l W) as U.
  destruct (body_start l W) as (c & r & E & P & M & I).
  assert (S : readSign
                ((if Literal.negative l then "-" else "")
                 ++ Literal.numeral (Literal.whole l)
                 ++ Literal.fractionText l ++ Literal.exponentText l)
              = (Literal.negative l,
                 (Literal.numeral (Literal.whole l)
                  ++ Literal.fractionText l ++ Literal.exponentText l)%string)).
  { destruct (Literal.negative l); [reflexivity|].
    cbn [append]; rewrite E; unfold readSign; now rewrite P, M. }
  rewrite S, U; clear S U.
  rewrite E; cbn [String.eqb]; rewrite I; reflexivity.
Qed.

(** The number of a numeral's text: its exact value, rounded. *)
Lemma Number_text (l : Literal.literal) :
  Literal.wellFormed l ->
  Number (Literal.text l)
  = roundToDouble (Literal.negative l)
                  (Literal.mantissa l * 10 ^ Z.max 0 (Literal.scale l))
                  (10 ^ Z.max 0 (- Literal.scale l)).
Proof.
  intros W; rewrite <- (readDecimal_text l W).
  pose proof (numeralChars_text l) as N.
  assert (E : exists c r, Literal.text l = String c r).
  { unfold Literal.text; destruct (Literal.negative l).
    - eexists; eexists; reflexivity.
    - destruct (body_start l W) as (c & r & E & _).
      exists c, r; exact E. }
  destruct E as (c & r & E); rewrite E in *.
  now apply Number_numeralChars.
Qed.

Lemma mantissa_nonneg (l : Literal.literal) : 0 <= Literal.mantissa l.
Proof.
  unfold Literal.mantissa, Literal.value.
  assert (0 <= 10 ^ Literal.places l) by (apply Z.pow_nonneg; lia).
  destruct (Literal.fraction l); nia.
Qed.

(** A numeral whose value is an integer below [2^53] is accepted, with that
    integer. *)
Lemma parseInteger_integer_literal
  (l : Literal.literal) (n : Z) (fieldName : string) :
  Literal.wellFormed l -> Literal.denotes l n -> Z.abs n < 2 ^ 53 ->
  parseInteger (Literal.text l) fieldName = Ok n.
Proof.
  intros W D B; unfold parseInteger; rewrite (Number_text l W).
  pose proof (mantissa_nonneg l) as M0.
  unfold Literal.denotes in D; cbv zeta in D.
  destruct (Z.leb_spec 0 (Literal.scale l)) as [S | S].
  - rewrite (Z.max_r 0 (Literal.scale l)), (Z.max_l 0 (- Literal.scale l))
      by lia.
    rewrite Z.pow_0_r.
    assert (P : 0 <= 10 ^ Literal.scale l) by (apply Z.pow_nonneg; lia).
    destruct (roundToDouble_exact
                (Literal.negative l)
                (Literal.mantissa l * 10 ^ Literal.scale l))
      as (I & N & V).
    { destruct (Literal.negative l); nia. }
    rewrite I, N, V; simpl; f_equal.
    destruct (Literal.negative l); lia.
  - rewrite (Z.max_l 0 (Literal.scale l)), (Z.max_r 0 (- Literal.scale l))
      by lia.
    rewrite Z.pow_0_r, Z.mul_1_r.
    assert (P : 0 < 10 ^ (- Literal.scale l))
      by (apply Z.pow_pos_nonneg; lia).
    assert (E : Literal.mantissa l = Z.abs n * 10 ^ (- Literal.scale l)).
    { destruct (Literal.negative l); nia. }
    rewrite E.
    destruct (roundToDouble_quotient
                (Literal.negative l) (Z.abs n) (10 ^ (- Literal.scale l)))
      as (I & N & V); [lia | exact P |].
    rewrite I, N, V; simpl; f_equal.
    destruct (Literal.negative l); nia.
Qed.

(** A numeral whose value is no integer is refused, when its digits are an
    integer below [2^53] and at most 323 places follow its point. *)
Lemma parseInteger_fraction_literal
  (l : Literal.literal) (fieldName : string) :
  Literal.wellFormed l ->
  Literal.mantissa l < 2 ^ 53 -> -323 <= Literal.scale l ->
  (~ exists n, Literal.denotes l n) ->
  parseInteger (Literal.text l) fieldName
  = Throw (NotAValidInteger fieldName (Literal.text l)).
Proof.
  intros W B S D; unfold parseInteger; rewrite (Number_text l W).
  pose proof (mantissa_nonneg l) as M0.
  unfold Literal.denotes in D; cbv zeta in D.
  destruct (Z.leb_spec 0 (Literal.scale l)) as [S0 | S0].
  { elim D; eexists; reflexivity. }
  rewrite (Z.max_l 0 (Literal.scale l)), (Z.max_r 0 (- Literal.scale l))
    by lia.
  rewrite Z.pow_0_r, Z.mul_1_r.
  set (q := 10 ^ (- Literal.scale l)) in *.
  assert (P : 0 < q) by (apply Z.pow_pos_nonneg; lia).
  assert (Q : q < 2 ^ 1075).
  { assert (q <= 10 ^ 323) by (apply Z.pow_le_mono_r; lia).
    assert (10 ^ 323 < 2 ^ 1075) by (apply Z.ltb_lt; vm_compute; reflexivity).
    lia. }
  assert (R : Literal.mantissa l mod q <> 0).
  { intros R; apply Z.div_exact in R; [|lia].
    elim D.
    exists (if Literal.negative l
            then - (Literal.mantissa l / q) else Literal.mantissa l / q).
    destruct (Literal.negative l); nia. }
  assert (M1 : 0 < Literal.mantissa l).
  { destruct (Z.eq_dec (Literal.mantissa l) 0) as [Z0 | Z0]; [|lia].
    elim R; rewrite Z0; apply Z.mod_0_l; lia. }
  rewrite (roundToDouble_fraction (Literal.negative l) _ q); auto.
Qed.

(** Whether the value of a numeral is an integer can be told. *)
Lemma denotes_decidable (l : Literal.literal) :
  (exists n, Literal.denotes l n) \/ ~ (exists n, Literal.denotes l n).
Proof.
  unfold Literal.denotes; cbv zeta.
  destruct (0 <=? Literal.scale l) eqn:S; [left; eexists; reflexivity|].
  apply Z.leb_gt in S.
  set (m := if Literal.negative l then _ else _).
  set (q := 10 ^ (- Literal.scale l)).
  assert (P : 0 < q) by (apply Z.pow_pos_nonneg; lia).
  destruct (Z.eq_dec (m mod q) 0) as [E | E].
  - left; exists (m / q); apply Z.div_exact in E; lia.
  - right; intros [n D]; apply E; rewrite D; apply Z.mod_mul; lia.
Qed.

(** Within the precision of a double, a numeral is refused exactly when its
    value is no integer. *)
Lemma parseInteger_literal
  (l : Literal.literal) (fieldName : string) :
  Literal.wellFormed l ->
  Literal.mantissa l * 10 ^ Z.max 0 (Literal.scale l) < 2 ^ 53 ->
  -323 <= Literal.scale l ->
  (parseInteger (Literal.text l) fieldName
   = Throw (NotAValidInteger fieldName (Literal.text l))
   <-> ~ exists n, Literal.denotes l n)
  /\ (forall n,
        parseInteger (Literal.text l) fieldName = Ok n
        <-> Literal.denotes l n).
Proof.
  intros W B S.
  pose proof (mantissa_nonneg l) as M0.
  assert (P : 1 <= 10 ^ Z.max 0 (Literal.scale l)).
  { assert (0 < 10 ^ Z.max 0 (Literal.scale l))
      by (apply Z.pow_pos_nonneg; lia).
    lia. }
  assert (A : forall n, Literal.denotes l n ->
                        parseInteger (Literal.text l) fieldName = Ok n).
  { intros n D; apply parseInteger_integer_literal; [exact W | exact D |].
    unfold Literal.denotes in D; cbv zeta in D.
    destruct (Z.leb_spec 0 (Literal.scale l)) as [S0 | S0].
    - rewrite (Z.max_r 0 (Literal.scale l)) in B, P by lia.
      destruct (Literal.negative l); nia.
    - rewrite (Z.max_l 0 (Literal.scale l)), Z.pow_0_r in B by lia.
      assert (0 < 10 ^ (- Literal.scale l))
        by (apply Z.pow_pos_nonneg; lia).
      destruct (Literal.negative l); nia. }
  assert (R : (~ exists n, Literal.denotes l n) ->
              parseInteger (Literal.text l) fieldName
              = Throw (NotAValidInteger fieldName (Literal.text l))).
  { intros D; apply parseInteger_fraction_literal; try assumption; nia. }
  split.
  - split; [|exact R].
    intros T [n D]; rewrite (A n D) in T; discriminate.
  - intros n; split; [|apply A].
    intros E.
    destruct (denotes_decidable l) as [[n' D] | D].
    + rewrite (A n' D) in E; injection E as <-; exact D.
    + rewrite (R D) in E; discriminate.
Qed.

End Reading.

Section NoNumber.

Import JS Parser.

Lemma parseInteger_refuses (value fieldName : string) :
  parseInteger value fieldName = Throw (NotAValidInteger fieldName value)
  <-> Number_isInteger (Number value) = false.
Proof.
  unfold parseInteger.
  destruct (Number value) as [| neg | m e]; simpl;
    try (split; reflexivity).
  destruct (if 0 <=? e then true else m mod 2 ^ (- e) =? 0); simpl;
    split; (reflexivity || discriminate).
Qed.

Lemma numeralStart_facts (c : ascii) :
  More.numeralStart c = false ->
  digitOf 10 c = None
  /\ Ascii.eqb c "0" = false /\ Ascii.eqb c "+" = false
  /\ Ascii.eqb c "-" = false /\ Ascii.eqb c "." = false.
Proof.
  destruct c as [[] [] [] [] [] [] [] []]; intros H; try discriminate H;
    repeat split.
Qed.

(** A text that does not start as a numeral is no integer. *)
Lemma Number_no_numeral (value : string) (c0 : ascii) (r : string) :
  trim value = String c0 r -> More.numeralStart c0 = false ->
  Number_isInteger (Number value) = false.
Proof.
  intros T S; unfold Number; rewrite T.
  destruct (numeralStart_facts c0 S) as (D & Z0 & P & M & Pt).
  assert (R : readDecimal (String c0 r) = NaN
              \/ readDecimal (String c0 r) = Infinity false).
  { unfold readDecimal, readSign; rewrite P, M.
    destruct (String.eqb (String c0 r) "Infinity"); [now right | left].
    unfold readUnsignedDecimal; cbn [readDigits]; rewrite D, Pt.
    reflexivity. }
  destruct r as [| c1 r']; [|rewrite Z0; cbn [andb]];
    destruct R as [-> | ->]; reflexivity.
Qed.

Lemma numberChar_facts (c : ascii) :
  More.numberChar c = false ->
  isWhiteSpace c = false
  /\ Ascii.eqb c "+" = false /\ Ascii.eqb c "-" = false
  /\ Ascii.eqb c "." = false
  /\ Ascii.eqb c "e" = false /\ Ascii.eqb c "E" = false
  /\ Ascii.eqb c "0" = false.
Proof.
  destruct c as [[] [] [] [] [] [] [] []]; intros H; try discriminate H;
    repeat split.
Qed.

Lemma digit_numberChar (base : Z) (c : ascii) (v : Z) :
  base <= 16 -> digitOf base c = Some v -> More.numberChar c = true.
Proof.
  unfold More.numberChar, digitOf; intros B.
  set (d := if (48 <=? _) && _ then _ else _).
  destruct (Z.ltb_spec d base); [|discriminate].
  destruct (Z.ltb_spec d 16); [reflexivity | lia].
Qed.

Lemma foreign_trimStart (s : string) :
  More.foreign (trimStart s) = More.foreign s.
Proof.
  induction s as [| c r IH]; simpl; [reflexivity|].
  destruct (isWhiteSpace c) eqn:W; [|reflexivity].
  rewrite IH; unfold More.numberChar; rewrite W.
  destruct (digitOf 16 c); reflexivity.
Qed.

Lemma foreign_trimEnd (s : string) :
  More.foreign (trimEnd s) = More.foreign s.
Proof.
  induction s as [| c r IH]; [reflexivity|].
  rewrite trimEnd_cons; cbn [More.foreign]; rewrite <- IH.
  destruct (trimEnd r) as [| c' r'] eqn:E; cbn [isEmpty andb];
    [|reflexivity].
  destruct (isWhiteSpace c) eqn:W; [|reflexivity].
  unfold More.numberChar; rewrite W; destruct (digitOf 16 c); reflexivity.
Qed.

Lemma foreign_trim (s : string) : More.foreign (trim s) = More.foreign s.
Proof. unfold trim; now rewrite foreign_trimEnd, foreign_trimStart. Qed.

Lemma foreign_isEmpty (s : string) :
  More.foreign s = true -> isEmpty s = false.
Proof. destruct s; [discriminate | reflexivity]. Qed.

(** The digits read stop before a character no number is written with. *)
Lemma readDigits_foreign (base : Z) (s : string) :
  base <= 16 -> More.foreign s = true ->
  forall acc count,
    More.foreign (snd (readDigits base s acc count)) = true.
Proof.
  intros B; induction s as [| c r IH]; intros F acc count;
    [discriminate|]; cbn [readDigits].
  destruct (digitOf base c) as [v |] eqn:D; [|exact F].
  apply IH; cbn [More.foreign] in F.
  now rewrite (digit_numberChar base c v B D) in F.
Qed.

Lemma readSign_foreign (s : string) :
  More.foreign s = true -> More.foreign (snd (readSign s)) = true.
Proof.
  destruct s as [| c r]; [discriminate|]; unfold readSign.
  destruct (Ascii.eqb_spec c "+") as [-> | _]; [intros F; exact F|].
  destruct (Ascii.eqb_spec c "-") as [-> | _]; intros F; exact F.
Qed.

Lemma readExponent_foreign (s : string) :
  More.foreign s = true -> readExponent s = None.
Proof.
  destruct s as [| c r]; [discriminate|]; intros F; unfold readExponent.
  destruct (Ascii.eqb c "e" || Ascii.eqb c "E") eqn:E; [|reflexivity].
  assert (Fr : More.foreign r = true).
  { apply orb_true_iff in E; destruct E as [E | E];
      apply Ascii.eqb_eq in E; subst c; exact F. }
  pose proof (readSign_foreign r Fr) as F1.
  destruct (readSign r) as [neg r1]; cbn [snd] in F1.
  pose proof (readDigits_foreign 10 r1 ltac:(lia) F1 0 0) as F2.
  destruct (readDigits 10 r1 0 0) as [[v n] rest]; cbn [snd] in F2.
  now rewrite (foreign_isEmpty rest F2), orb_true_r.
Qed.

Lemma readUnsignedDecimal_foreign (s : string) :
  More.foreign s = true -> readUnsignedDecimal s = None.
Proof.
  intros F; unfold readUnsignedDecimal.
  pose proof (readDigits_foreign 10 s ltac:(lia) F 0 0) as F1.
  destruct (readDigits 10 s 0 0) as [[iv icount] r1]; cbn [snd] in F1.
  assert (F2 : More.foreign
                 (snd match r1 with
                      | String c r =>
                          if Ascii.eqb c "." then readDigits 10 r iv 0
                          else (iv, 0, r1)
                      | EmptyString => (iv, 0, r1)
                      end) = true).
  { destruct r1 as [| c r]; [exact F1|].
    destruct (Ascii.eqb_spec c ".") as [-> | _]; [|exact F1].
    apply readDigits_foreign; [lia | exact F1]. }
  destruct (match r1 with
            | String c r =>
                if Ascii.eqb c "." then readDigits 10 r iv 0 else (iv, 0, r1)
            | EmptyString => (iv, 0, r1)
            end) as [[mv fcount] r2]; cbn [snd] in F2.
  rewrite (readExponent_foreign r2 F2).
  destruct (icount + fcount =? 0); reflexivity.
Qed.

Lemma readNonDecimal_foreign (base : Z) (s : string) :
  base <= 16 -> More.foreign s = true -> readNonDecimal base s = NaN.
Proof.
  intros B F; unfold readNonDecimal.
  pose proof (readDigits_foreign base s B F 0 0) as F1.
  destruct (readDigits base s 0 0) as [[v n] rest]; cbn [snd] in F1.
  now rewrite (foreign_isEmpty rest F1), orb_true_r.
Qed.

Lemma readDecimal_foreign (s : string) :
  More.foreign s = true -> readDecimal s = NaN.
Proof.
  intros F; unfold readDecimal.
  pose proof (readSign_foreign s F) as F1.
  destruct (readSign s) as [neg u]; cbn [snd] in F1.
  destruct (String.eqb_spec u "Infinity") as [-> | _]; [discriminate F1|].
  now rewrite (readUnsignedDecimal_foreign u F1).
Qed.

(** A text that holds a character no number is written with is no number. *)
Lemma Number_foreign (value : string) :
  More.foreign value = true -> Number value = NaN.
Proof.
  intros F; rewrite <- foreign_trim in F; unfold Number.
  destruct (trim value) as [| c0 [| c1 r]]; [discriminate F | ..];
    try (now apply readDecimal_foreign).
  destruct (Ascii.eqb c0 "0" && (Ascii.eqb c1 "x" || Ascii.eqb c1 "X")) eqn:H;
    [|destruct (Ascii.eqb c0 "0" && (Ascii.eqb c1 "o" || Ascii.eqb c1 "O"))
        eqn:O;
      [|destruct (Ascii.eqb c0 "0" && (Ascii.eqb c1 "b" || Ascii.eqb c1 "B"))
          eqn:B; [|now apply readDecimal_foreign]]];
    (apply readNonDecimal_foreign; [lia|]);
    match goal with
    | E : _ && (_ || _) = true |- _ =>
        apply andb_true_iff in E; destruct E as [E0 E1];
        apply Ascii.eqb_eq in E0; subst c0;
        apply orb_true_iff in E1; destruct E1 as [E1 | E1];
        apply Ascii.eqb_eq in E1; subst c1; exact F
    end.
Qed.

End NoNumber.

(** * The integers of the fields *)

Section IntegerClaim.

Import JS Parser.

(** The first field of a plateau line that [parseInteger] refuses decides the
    error of the line. *)
Lemma parsePlateau_refuses (line part0 part1 : string) :
  splitWhiteSpace line = [part0; part1] ->
  (parsePlateau line = Throw (NotAValidInteger "plateau maxX" part0)
   <-> parseInteger part0 "plateau maxX"
       = Throw (NotAValidInteger "plateau maxX" part0))
  /\ ((exists n, parseInteger part0 "plateau maxX" = Ok n) ->
      (parsePlateau line = Throw (NotAValidInteger "plateau maxY" part1)
       <-> parseInteger part1 "plateau maxY"
           = Throw (NotAValidInteger "plateau maxY" part1))).
Proof.
  intros Hs; destruct (parsePlateau_fields line part0 part1 Hs) as [A B].
  split.
  - now rewrite A, parseInteger_Throw.
  - intros [n Hn]; rewrite parseInteger_Throw; apply B.
    exists n; now apply (parseInteger_Ok part0 "plateau maxX").
Qed.

Lemma parsePosition_refuses
  (line part0 part1 part2 : string) (plateau : Plateau) :
  splitWhiteSpace line = [part0; part1; part2] ->
  (parsePosition line plateau = Throw (NotAValidInteger "x coordinate" part0)
   <-> parseInteger part0 "x coordinate"
       = Throw (NotAValidInteger "x coordinate" part0))
  /\ ((exists n, parseInteger part0 "x coordinate" = Ok n) ->
      (parsePosition line plateau
       = Throw (NotAValidInteger "y coordinate" part1)
       <-> parseInteger part1 "y coordinate"
           = Throw (NotAValidInteger "y coordinate" part1))).
Proof.
  intros Hs.
  destruct (parsePosition_fields line part0 part1 part2 plateau Hs) as [A B].
  split.
  - now rewrite A, parseInteger_Throw.
  - intros [n Hn]; rewrite parseInteger_Throw; apply B.
    exists n; now apply (parseInteger_Ok part0 "x coordinate").
Qed.

(** C4, amended. A numeric field, bound of the plateau or coordinate of a
    rover, is refused as not a valid integer exactly when the number its
    text converts to, the double nearest to the value the text denotes, is
    no integer, and is accepted otherwise. Hence the classes of the
    specification, in this order below. Text that is no number is refused:
    any text whose first character after white space is neither a digit, nor
    a sign, nor the point, [five] and [NaN] among them, and any text that
    holds a character no number is written with. A decimal numeral
    [-]digits[.digits][e[-]digits] converts to its value, rounded; when that
    value is no integer, as for [5.5], the numeral is refused, provided its
    digits are an integer below [2^53] and its value has at most 323
    decimal places; when that value is an integer below [2^53] in absolute
    value, as for [2.0], the numeral is accepted, with that integer. So a
    numeral within these bounds is refused exactly when its value is no
    integer. [Infinity] is refused with either sign. Beyond the bounds the
    rounding decides: [1.0000000000000001] is accepted as 1, and [1e400],
    an integer, is refused. On a plateau line and on a position line the
    first field that [parseInteger] refuses is the error of the line. *)
Theorem parseInteger_rejects_what_rounds_to_no_integer (fieldName : string) :
  (forall value,
      parseInteger value fieldName = Throw (NotAValidInteger fieldName value)
      <-> Number_isInteger (Number value) = false)
  /\ (forall value,
        (exists n, parseInteger value fieldName = Ok n)
        <-> Number_isInteger (Number value) = true)
  /\ (forall value c r,
        trim value = String c r -> More.numeralStart c = false ->
        parseInteger value fieldName
        = Throw (NotAValidInteger fieldName value))
  /\ (forall value,
        More.foreign value = true ->
        parseInteger value fieldName
        = Throw (NotAValidInteger fieldName value))
  /\ (forall l,
        Literal.wellFormed l ->
        Number (Literal.text l)
        = roundToDouble (Literal.negative l)
                        (Literal.mantissa l * 10 ^ Z.max 0 (Literal.scale l))
                        (10 ^ Z.max 0 (- Literal.scale l)))
  /\ (forall l,
        Literal.wellFormed l ->
        Literal.mantissa l < 2 ^ 53 -> -323 <= Literal.scale l ->
        (~ exists n, Literal.denotes l n) ->
        parseInteger (Literal.text l) fieldName
        = Throw (NotAValidInteger fieldName (Literal.text l)))
  /\ (forall l n,
        Literal.wellFormed l -> Literal.denotes l n -> Z.abs n < 2 ^ 53 ->
        parseInteger (Literal.text l) fieldName = Ok n)
  /\ (forall l,
        Literal.wellFormed l ->
        Literal.mantissa l * 10 ^ Z.max 0 (Literal.scale l) < 2 ^ 53 ->
        -323 <= Literal.scale l ->
        (parseInteger (Literal.text l) fieldName
         = Throw (NotAValidInteger fieldName (Literal.text l))
         <-> ~ exists n, Literal.denotes l n)
        /\ (forall n,
              parseInteger (Literal.text l) fieldName = Ok n
              <-> Literal.denotes l n))
  /\ parseInteger "five" fieldName = Throw (NotAValidInteger fieldName "five")
  /\ parseInteger "NaN" fieldName = Throw (NotAValidInteger fieldName "NaN")
  /\ parseInteger "5.5" fieldName = Throw (NotAValidInteger fieldName "5.5")
  /\ parseInteger "2.0" fieldName = Ok 2
  /\ parseInteger "Infinity" fieldName
     = Throw (NotAValidInteger fieldName "Infinity")
  /\ parseInteger "-Infinity" fieldName
     = Throw (NotAValidInteger fieldName "-Infinity")
  /\ parseInteger "1.0000000000000001" fieldName = Ok 1
  /\ parseInteger "1e400" fieldName
     = Throw (NotAValidInteger fieldName "1e400")
  /\ (forall line part0 part1,
        splitWhiteSpace line = [part0; part1] ->
        (parsePlateau line = Throw (NotAValidInteger "plateau maxX" part0)
         <-> parseInteger part0 "plateau maxX"
             = Throw (NotAValidInteger "plateau maxX" part0))
        /\ ((exists n, parseInteger part0 "plateau maxX" = Ok n) ->
            (parsePlateau line = Throw (NotAValidInteger "plateau maxY" part1)
             <-> parseInteger part1 "plateau maxY"
                 = Throw (NotAValidInteger "plateau maxY" part1))))
  /\ (forall line part0 part1 part2 plateau,
        splitWhiteSpace line = [part0; part1; part2] ->
        (parsePosition line plateau
         = Throw (NotAValidInteger "x coordinate" part0)
         <-> parseInteger part0 "x coordinate"
             = Throw (NotAValidInteger "x coordinate" part0))
        /\ ((exists n, parseInteger part0 "x coordinate" = Ok n) ->
            (parsePosition line plateau
             = Throw (NotAValidInteger "y coordinate" part1)
             <-> parseInteger part1 "y coordinate"
                 = Throw (NotAValidInteger "y coordinate" part1)))).
Proof.
  split; [intros value; apply parseInteger_refuses|].
  split; [intros value; apply parseInteger_accepts|].
  split.
  { intros value c r T S; apply parseInteger_refuses.
    now apply (Number_no_numeral value c r). }
  split.
  { intros value F; apply parseInteger_refuses.
    now rewrite (Number_foreign value F). }
  split; [exact Number_text|].
  split; [intros l; apply parseInteger_fraction_literal|].
  split; [intros l n; apply parseInteger_integer_literal|].
  split; [intros l; apply parseInteger_literal|].
  do 8 (split; [vm_compute; reflexivity|]).
  split; [apply parsePlateau_refuses | apply parsePosition_refuses].
Qed.

End IntegerClaim.

Lemma parseInteger_rejects_what_rounds_to_no_integer_witness :
  Parser.parseInteger "5.5" "plateau maxX"
  = Throw (NotAValidInteger "plateau maxX" "5.5")
  /\ Parser.parseInteger "-12.50e1" "x coordinate" = Ok (-125)
  /\ Parser.parseInteger "$5" "y coordinate"
     = Throw (NotAValidInteger "y coordinate" "$5").
Proof.
  split; [|split].
  - destruct (parseInteger_rejects_what_rounds_to_no_integer "plateau maxX")
      as (_ & _ & _ & _ & _ & H & _).
    apply (H Literal.fiveAndAHalf).
    + unfold Literal.wellFormed; simpl; lia.
    + reflexivity.
    + vm_compute; discriminate.
    + intros [n D]; change (55 = n * 10) in D; lia.
  - destruct (parseInteger_rejects_what_rounds_to_no_integer "x coordinate")
      as (_ & _ & _ & _ & _ & _ & H & _).
    apply (H Literal.signedWithExponent (-125)).
    + unfold Literal.wellFormed; simpl; lia.
    + change (-1250 = -125 * 10); reflexivity.
    + reflexivity.
  - destruct (parseInteger_rejects_what_rounds_to_no_integer "y coordinate")
      as (_ & _ & _ & H & _).
    apply (H "$5"); reflexivity.
Defined.

(** C4 as the specification states it fails in both directions. The value
    of [1.0000000000000001] is no integer, and the field is accepted, as 1:
    the double nearest to that value is 1. The value of [1e400] is an
    integer, and the field is refused: the double nearest to that value is
    [Infinity]. *)
Lemma not_a_valid_integer_counterexample :
  Literal.text Literal.justAboveOne = "1.0000000000000001"
  /\ Literal.mantissa Literal.justAboveOne = 10000000000000001
  /\ Literal.scale Literal.justAboveOne = -16
  /\ (forall n, ~ Literal.denotes Literal.justAboveOne n)
  /\ Parser.parseInteger "1.0000000000000001" "x coordinate" = Ok 1
  /\ Literal.text Literal.tenToThe400 = "1e400"
  /\ Literal.denotes Literal.tenToThe400 (10 ^ 400)
  /\ Parser.parseInteger "1e400" "x coordinate"
     = Throw (NotAValidInteger "x coordinate" "1e400").
Proof.
  split; [reflexivity|].
  split; [reflexivity|].
  split; [reflexivity|].
  split.
  { intros n D.
    change (10000000000000001 = n * 10000000000000000) in D; lia. }
  split; [vm_compute; reflexivity|].
  split; [reflexivity|].
  split; [|vm_compute; reflexivity].
  change (10 ^ 400 = 1 * 10 ^ 400); lia.
Qed.
